(** * BayesDash: the Bayesian A/B testing calculator

    A shallow embedding of the [BayesianCalculator] class (the inference
    engine of the dashboard) and the proofs of its specified properties.

    Conventions of the embedding.
    - A JavaScript number is a real number ([R]): the embedding covers
      positive shapes and draws of [Math.random()] in (0,1), and knows no
      rounding, overflow or underflow.  Where a value can be NaN or
      infinite on inputs the program receives it is a [number], which
      adds the IEEE results [NaN] and the two infinities to the reals:
      the division by [this.monteCarloSamples], the constant [lambda] of
      Cheng's sampler, and the field [maxDuration] of the sample size
      calculator.
    - [Math.random()] reads the next element of a sequence [rng : nat -> R];
      the state threaded through the sampling code is the number of draws
      made so far.
    - A [while (true)] loop is run with a bound on its iterations ([fuel]);
      the result [None] stands for a loop that is still running when the
      bound is reached. *)

From Stdlib Require Import Reals Lra Lia List Arith Bool.
From Stdlib Require String.
Import ListNotations.

Set Warnings "-abstract-large-number".

Open Scope R_scope.

(** ** JavaScript values *)

Module JS.

(** The result of a division of two finite numbers. *)
Inductive number : Type :=
| Fin (r : R)
| NaN
| PosInf
| NegInf.

(** [x / y] on finite [x], [y]. *)
Definition div (x y : R) : number :=
  if Req_dec_T y 0 then
    if Req_dec_T x 0 then NaN
    else if Rlt_dec 0 x then PosInf else NegInf
  else Fin (x / y).

(** [p >= t]: false whenever [p] is NaN. *)
Definition ge (p : number) (t : R) : bool :=
  match p with
  | Fin r => if Rge_dec r t then true else false
  | PosInf => true
  | NaN | NegInf => false
  end.

(** [p <= t]: false whenever [p] is NaN. *)
Definition le (p : number) (t : R) : bool :=
  match p with
  | Fin r => if Rle_dec r t then true else false
  | NegInf => true
  | NaN | PosInf => false
  end.

(** A parameter with a default value: [None] is an omitted argument. *)
Definition arg_or {A : Type} (dflt : A) (arg : option A) : A :=
  match arg with
  | Some a => a
  | None => dflt
  end.

(** [Math.sqrt(q)] on the result of a division: NaN for a negative
    number and for NaN, Infinity for Infinity. *)
Definition sqrt (q : number) : number :=
  match q with
  | Fin r => if Rlt_dec r 0 then NaN else Fin (R_sqrt.sqrt r)
  | PosInf => PosInf
  | NaN | NegInf => NaN
  end.

End JS.

(** The functions of the [Math] object the calculator calls. *)
Module Math.

Definition PI : R := Rtrigo1.PI.
Definition log (x : R) : R := ln x.
Definition exp (x : R) : R := Rtrigo_def.exp x.
Definition sin (x : R) : R := Rtrigo_def.sin x.
Definition sqrt (x : R) : R := R_sqrt.sqrt x.
Definition max (x y : R) : R := Rmax x y.
Definition min (x y : R) : R := Rmin x y.

(** [Math.pow(x, y)] for a base [0 <= x] and an exponent [0 < y], the
    arguments the rejection sampler passes: [0] at base [0]. *)
Definition pow (x y : R) : R :=
  if Req_dec_T x 0 then 0 else Rpower x y.

End Math.

(** ** Data *)

(** The object [{alpha, beta}] returned by [calculatePosterior]. *)
Record BetaParams : Type := mkBetaParams { alpha : R; beta : R }.

(** An element [{successes, trials}] of a time series. *)
Record Observation : Type := mkObservation { successes : R; trials : R }.

(** The fields the constructor sets on [this]. *)
Record BayesianCalculator : Type := mkCalculator {
  this_alpha : R;
  this_beta : R;
  monteCarloSamples : nat
}.

(** [constructor(alpha = 1, beta = 1)] *)
Definition constructor (alpha beta : option R) : BayesianCalculator :=
  {| this_alpha := JS.arg_or 1 alpha;
     this_beta := JS.arg_or 1 beta;
     monteCarloSamples := 10000 |}.

(** The object [{lower, upper}] returned by [calculateCredibleInterval]. *)
Record Interval : Type := mkInterval { lower : R; upper : R }.

(** The object returned by [calculateExpectedLoss]. *)
Module Loss.
Record t : Type := mk {
  lossA : JS.number;
  lossB : JS.number;
  probBGreater : JS.number
}.
End Loss.

(** The object pushed by [sequentialTest] at each step. *)
Module Step.
Record t : Type := mk {
  step : nat;
  probBGreater : JS.number;
  expectedLoss : Loss.t;
  posteriorA : BetaParams;
  posteriorB : BetaParams;
  shouldStop : bool
}.
End Step.

(** ** Posterior *)

(** [calculatePosterior(successes, trials, alpha = this.alpha,
    beta = this.beta)]: the second definition in the class body, which is
    the one in force. *)
Definition calculatePosterior (this : BayesianCalculator)
    (successes trials : R) (alpha beta : option R) : BetaParams :=
  let alpha := JS.arg_or (this_alpha this) alpha in
  let beta := JS.arg_or (this_beta this) beta in
  let failures := trials - successes in
  {| alpha := alpha + successes; beta := beta + failures |}.

(** The condition the specification calls InvalidObservation. *)
Definition InvalidObservation (successes trials : R) : Prop :=
  trials < successes \/ successes < 0 \/ trials < 0.

(** ** Special functions *)

Definition coefficients : list R :=
  [ 676.5203681218851; -1259.1392167224028; 771.32342877765313;
    -176.61502916214059; 12.507343278686905; -0.13857109526572012;
    9.9843695780195716e-6; 1.5056327351493116e-7 ].

(** The body of [logGamma] below its reflection test. *)
Definition logGamma_series (x : R) : R :=
  let x := x - 1 in
  let a := x + 5.5 in
  let b := x + 0.5 in
  let c := 0.99999999999980993 in
  let c :=
    fold_left
      (fun c i => c + nth i coefficients 0 / (x + INR i + 1))
      (seq 0 (length coefficients)) c in
  Math.log c + b * Math.log a - a.

(** [logGamma(x)].  The recursive call is made at [1 - x] with [x < 0.5],
    where the reflection test fails, so it runs the series.  The embedding
    covers [x > 0]; at [x <= 0] a logarithm of the source may return NaN
    or an infinity. *)
Definition logGamma (x : R) : R :=
  if Rlt_dec x 0.5 then
    Math.log Math.PI - Math.log (Math.sin (Math.PI * x))
    - logGamma_series (1 - x)
  else logGamma_series x.

(** [betaPDF(x, alpha, beta)], for positive shapes.  The value is a real
    number: a density below the smallest positive double is 0 in the
    source, a positive real here. *)
Definition betaPDF (x alpha beta : R) : R :=
  if Rle_dec x 0 then 0
  else if Rge_dec x 1 then 0
  else
    let logBeta := logGamma alpha + logGamma beta - logGamma (alpha + beta) in
    let logPDF :=
      (alpha - 1) * Math.log x + (beta - 1) * Math.log (1 - x) - logBeta in
    Math.exp logPDF.

(** [betaCDF(x, alpha, beta)] *)
Definition betaCDF (x alpha beta : R) : R :=
  if Rle_dec x 0 then 0
  else if Rge_dec x 1 then 1
  else
    let numPoints := 1000%nat in
    fold_left
      (fun cdf i =>
         let t := (INR i / INR numPoints) * x in
         cdf + betaPDF t alpha beta * x / INR numPoints)
      (seq 0 numPoints) 0.

(** ** Moments and the credible interval *)

(** [calculateExpectedValue(posterior)] *)
Definition calculateExpectedValue (posterior : BetaParams) : R :=
  let '(mkBetaParams alpha beta) := posterior in
  alpha / (alpha + beta).

(** [calculateVariance(posterior)] *)
Definition calculateVariance (posterior : BetaParams) : R :=
  let '(mkBetaParams alpha beta) := posterior in
  (alpha * beta) / ((alpha + beta) ^ 2 * (alpha + beta + 1)).

Module InvNorm.

Definition a : list R :=
  [ 0; -3.969683028665376e1; 2.209460984245205e2; -2.759285104469687e2;
    1.383577518672690e2; -3.066479806614716e1; 2.506628277459239 ].
Definition b : list R :=
  [ 0; -5.447609879822406e1; 1.615858368580409e2; -1.556989798598866e2;
    6.680131188771972e1; -1.328068155288572e1 ].
Definition c : list R :=
  [ 0; -7.784894002430293e-3; -3.223964580411365e-1; -2.400758277161838;
    -2.549732539343734; 4.374664141464968; 2.938163982698783 ].
Definition d : list R :=
  [ 0; 7.784695709041462e-3; 3.224671290700398e-1; 2.445134137142996;
    3.754408661907416 ].

Definition p_low : R := 0.02425.
Definition p_high : R := 1 - p_low.

(** The numerator and the denominator of the tail branches, in [q]. *)
Definition tail_num (q : R) : R :=
  ((((nth 1 c 0 * q + nth 2 c 0) * q + nth 3 c 0) * q + nth 4 c 0) * q
   + nth 5 c 0) * q + nth 6 c 0.
Definition tail_den (q : R) : R :=
  (((nth 1 d 0 * q + nth 2 d 0) * q + nth 3 d 0) * q + nth 4 d 0) * q + 1.

(** The numerator (without its factor [q]) and the denominator of the
    central branch, in [r = q * q]. *)
Definition central_num (r : R) : R :=
  ((((nth 1 a 0 * r + nth 2 a 0) * r + nth 3 a 0) * r + nth 4 a 0) * r
   + nth 5 a 0) * r + nth 6 a 0.
Definition central_den (r : R) : R :=
  ((((nth 1 b 0 * r + nth 2 b 0) * r + nth 3 b 0) * r + nth 4 b 0) * r
   + nth 5 b 0) * r + 1.

End InvNorm.

(** [inverseNormalCDF(p)] *)
Definition inverseNormalCDF (p : R) : R :=
  if Rlt_dec p InvNorm.p_low then
    let q := Math.sqrt (-2 * Math.log p) in
    InvNorm.tail_num q / InvNorm.tail_den q
  else if Rle_dec p InvNorm.p_high then
    let q := p - 0.5 in
    let r := q * q in
    InvNorm.central_num r * q / InvNorm.central_den r
  else
    let q := Math.sqrt (-2 * Math.log (1 - p)) in
    - InvNorm.tail_num q / InvNorm.tail_den q.

(** [calculateCredibleInterval(posterior, confidence = 0.95)] *)
Definition calculateCredibleInterval (posterior : BetaParams)
    (confidence : option R) : Interval :=
  let confidence := JS.arg_or 0.95 confidence in
  let '(mkBetaParams alpha beta) := posterior in
  let alpha_level := (1 - confidence) / 2 in
  let mean := alpha / (alpha + beta) in
  let variance :=
    (alpha * beta) / ((alpha + beta) ^ 2 * (alpha + beta + 1)) in
  let stdDev := Math.sqrt variance in
  let z := inverseNormalCDF (1 - alpha_level) in
  let margin := z * stdDev in
  {| lower := Math.max 0 (mean - margin);
     upper := Math.min 1 (mean + margin) |}.

(** ** Sampling: state, fuel and the random source *)

(** A computation that draws random numbers: from the number of draws made
    so far to a result and the new number of draws, or [None] when a
    [while (true)] loop has used up its iterations. *)
Definition M (A : Type) : Type := nat -> option (A * nat).

Definition ret {A : Type} (a : A) : M A := fun k => Some (a, k).

Definition bind {A B : Type} (m : M A) (f : A -> M B) : M B :=
  fun k =>
    match m k with
    | Some (a, k') => f a k'
    | None => None
    end.

Notation "x <- m ;; f" := (bind m (fun x => f))
  (at level 61, m at next level, right associativity).

(** [while (true) { body }], where the body either returns a value
    ([Some v]) or falls through to the next iteration ([None]). *)
Fixpoint while_true {A : Type} (fuel : nat) (body : M (option A)) : M A :=
  match fuel with
  | O => fun _ => None
  | S fuel' =>
      r <- body ;;
      match r with
      | Some v => ret v
      | None => while_true fuel' body
      end
  end.

Section Sampling.

(** The values successive calls of [Math.random()] return. *)
Variable rng : nat -> R.

(** The iterations granted to each [while (true)] loop. *)
Variable fuel : nat.

Definition Math_random : M R := fun k => Some (rng k, S k).

(** One iteration of the loop of [sampleBetaRejection], for positive
    shapes and draws in (0,1). *)
Definition rejection_body (alpha beta : R) : M (option R) :=
  u1 <- Math_random ;;
  u2 <- Math_random ;;
  let x := Math.pow u1 (1 / alpha) in
  let y := Math.pow u2 (1 / beta) in
  if Rle_dec (x + y) 1 then ret (Some (x / (x + y))) else ret None.

(** [sampleBetaRejection(alpha, beta)] *)
Definition sampleBetaRejection (alpha beta : R) : M R :=
  while_true fuel (rejection_body alpha beta).

(** One iteration of the loop of [sampleBetaCheng], after its constants,
    for positive shapes and draws in (0,1).  The constant [lambda] is the
    root of a quotient and need not be a positive number: when it is NaN
    (a negative quotient, or 0 / 0), every operand of the test is NaN;
    when it is 0, [mu = a + 1 / lambda] is infinite and [mu * v] is NaN;
    when it is Infinity, [v] is infinite or NaN and the left side of the
    test is -Infinity or NaN.  In these cases the test fails and the loop
    goes on.  When [lambda] is a positive number so is [mu], which is
    written in that branch. *)
Definition cheng_body (alpha a b gamma : R) (lambda : JS.number)
    : M (option R) :=
  u1 <- Math_random ;;
  u2 <- Math_random ;;
  match lambda with
  | JS.Fin lambda =>
      if Rlt_dec 0 lambda then
        let mu := a + 1 / lambda in
        let v := lambda * Math.log (u1 / (1 - u1)) in
        let w := a * Math.exp v in
        if Rge_dec (gamma * Math.log (gamma / (b + w)) + mu * v - 1.3862944)
                   (Math.log (u1 * u1 * u2))
        then
          ret (Some (if Req_dec_T alpha a then w / (b + w) else b / (b + w)))
        else ret None
      else ret None
  | JS.NaN | JS.PosInf | JS.NegInf => ret None
  end.

(** [sampleBetaCheng(alpha, beta)] *)
Definition sampleBetaCheng (alpha beta : R) : M R :=
  let a := Math.min alpha beta in
  let b := Math.max alpha beta in
  let gamma := a + b in
  let lambda := JS.sqrt (JS.div (gamma - 2) (2 * a * b - gamma)) in
  while_true fuel (cheng_body alpha a b gamma lambda).

(** [sampleBeta(alpha, beta)] *)
Definition sampleBeta (alpha beta : R) : M R :=
  if Rle_dec alpha 1 then
    if Rle_dec beta 1 then sampleBetaRejection alpha beta
    else sampleBetaCheng alpha beta
  else sampleBetaCheng alpha beta.

(** The [for] loop of [monteCarloSample]: [n] iterations are left and
    [samples_array] holds the values pushed so far. *)
Fixpoint monteCarloSample_loop (alpha beta : R) (n : nat)
    (samples_array : list R) : M (list R) :=
  match n with
  | O => ret samples_array
  | S n' =>
      s <- sampleBeta alpha beta ;;
      monteCarloSample_loop alpha beta n' (samples_array ++ [s])
  end.

(** [monteCarloSample(posterior, samples = this.monteCarloSamples)] *)
Definition monteCarloSample (this : BayesianCalculator)
    (posterior : BetaParams) (samples : option nat) : M (list R) :=
  let samples := JS.arg_or (monteCarloSamples this) samples in
  let '(mkBetaParams alpha beta) := posterior in
  monteCarloSample_loop alpha beta samples [].

(** ** Monte Carlo estimates *)

(** The counting loop of [calculateProbabilityBGreaterThanAMonteCarlo]:
    the value of [count] after [n] iterations. *)
Definition count_wins (samplesA samplesB : list R) (n : nat) : nat :=
  fold_left
    (fun count i =>
       if Rgt_dec (nth i samplesB 0) (nth i samplesA 0)
       then S count else count)
    (seq 0 n) 0%nat.

(** [calculateProbabilityBGreaterThanAMonteCarlo(posteriorA, posteriorB)] *)
Definition calculateProbabilityBGreaterThanAMonteCarlo
    (this : BayesianCalculator) (posteriorA posteriorB : BetaParams)
    : M JS.number :=
  samplesA <- monteCarloSample this posteriorA
                (Some (monteCarloSamples this)) ;;
  samplesB <- monteCarloSample this posteriorB
                (Some (monteCarloSamples this)) ;;
  let count := count_wins samplesA samplesB (monteCarloSamples this) in
  ret (JS.div (INR count) (INR (monteCarloSamples this))).

(** The summing loop of [calculateExpectedLoss]: the value of the
    accumulator after [n] iterations, for samples [xs] and [ys] summing
    [Math.max(0, ys[i] - xs[i])]. *)
Definition sum_loss (xs ys : list R) (n : nat) : R :=
  fold_left
    (fun loss i => loss + Math.max 0 (nth i ys 0 - nth i xs 0))
    (seq 0 n) 0.

(** [calculateExpectedLoss(posteriorA, posteriorB)] *)
Definition calculateExpectedLoss
    (this : BayesianCalculator) (posteriorA posteriorB : BetaParams)
    : M Loss.t :=
  probBGreater <-
    calculateProbabilityBGreaterThanAMonteCarlo this posteriorA posteriorB ;;
  samplesA <- monteCarloSample this posteriorA
                (Some (monteCarloSamples this)) ;;
  samplesB <- monteCarloSample this posteriorB
                (Some (monteCarloSamples this)) ;;
  let lossA := sum_loss samplesA samplesB (monteCarloSamples this) in
  let lossB := sum_loss samplesB samplesA (monteCarloSamples this) in
  ret {| Loss.lossA := JS.div lossA (INR (monteCarloSamples this));
         Loss.lossB := JS.div lossB (INR (monteCarloSamples this));
         Loss.probBGreater := probBGreater |}.

(** ** Sequential test *)

(** [probBGreater >= threshold || probBGreater <= (1 - threshold)] *)
Definition stop_condition (probBGreater : JS.number) (threshold : R) : bool :=
  JS.ge probBGreater threshold || JS.le probBGreater (1 - threshold).

(** The [for] loop of [sequentialTest]: [steps] iterations are left before
    [i] reaches [Math.min(dataA.length, dataB.length)], and [results] holds
    the records pushed so far. *)
Fixpoint sequentialTest_loop (this : BayesianCalculator)
    (dataA dataB : list Observation) (threshold : R)
    (steps i : nat) (results : list Step.t) : M (list Step.t) :=
  match steps with
  | O => ret results
  | S steps' =>
      let obsA := nth i dataA (mkObservation 0 0) in
      let obsB := nth i dataB (mkObservation 0 0) in
      let posteriorA :=
        calculatePosterior this (successes obsA) (trials obsA) None None in
      let posteriorB :=
        calculatePosterior this (successes obsB) (trials obsB) None None in
      probBGreater <-
        calculateProbabilityBGreaterThanAMonteCarlo this
          posteriorA posteriorB ;;
      expectedLoss <- calculateExpectedLoss this posteriorA posteriorB ;;
      let results :=
        results ++
        [ {| Step.step := i + 1;
             Step.probBGreater := probBGreater;
             Step.expectedLoss := expectedLoss;
             Step.posteriorA := posteriorA;
             Step.posteriorB := posteriorB;
             Step.shouldStop := stop_condition probBGreater threshold |} ] in
      if stop_condition probBGreater threshold then ret results
      else sequentialTest_loop this dataA dataB threshold steps' (S i) results
  end.

(** [sequentialTest(dataA, dataB, threshold = 0.95)] *)
Definition sequentialTest (this : BayesianCalculator)
    (dataA dataB : list Observation) (threshold : option R)
    : M (list Step.t) :=
  let threshold := JS.arg_or 0.95 threshold in
  sequentialTest_loop this dataA dataB threshold
    (Nat.min (length dataA) (length dataB)) 0 [].

End Sampling.

(** ** Notions used in the statements *)

(** The loop body [sampleBeta(alpha, beta)] runs, by shape regime. *)
Definition sampleBeta_body (rng : nat -> R) (alpha beta : R)
    : M (option R) :=
  if Rle_dec alpha 1 then
    if Rle_dec beta 1 then rejection_body rng alpha beta
    else
      let a := Math.min alpha beta in
      let b := Math.max alpha beta in
      let gamma := a + b in
      let lambda := JS.sqrt (JS.div (gamma - 2) (2 * a * b - gamma)) in
      cheng_body rng alpha a b gamma lambda
  else
    let a := Math.min alpha beta in
    let b := Math.max alpha beta in
    let gamma := a + b in
    let lambda := JS.sqrt (JS.div (gamma - 2) (2 * a * b - gamma)) in
    cheng_body rng alpha a b gamma lambda.

(** What one iteration of the loop of [sampleBeta(alpha, beta)] does with
    the two numbers drawn at positions [k] and [k + 1]: [Some v] when it
    returns [v], [None] when it goes on to the next iteration. *)
Definition attempt (rng : nat -> R) (alpha beta : R) (k : nat) : option R :=
  match sampleBeta_body rng alpha beta k with
  | Some (r, _) => r
  | None => None
  end.

(** The quotient under the root of Cheng's constant [lambda] is a positive
    number, so that [lambda] is one. *)
Definition cheng_regular (alpha beta : R) : Prop :=
  let a := Math.min alpha beta in
  let b := Math.max alpha beta in
  let gamma := a + b in
  2 * a * b - gamma <> 0 /\ 0 < (gamma - 2) / (2 * a * b - gamma).


(** The counting loop counts the indices below [n] at which the B sample
    is strictly greater than the A sample. *)
Definition b_wins (samplesA samplesB : list R) (i : nat) : bool :=
  if Rgt_dec (nth i samplesB 0) (nth i samplesA 0) then true else false.

Definition wins (samplesA samplesB : list R) (n : nat) : list nat :=
  filter (b_wins samplesA samplesB) (seq 0 n).

(** The record pushed at index [i], given the two estimates. *)
Definition step_record (this : BayesianCalculator)
    (dataA dataB : list Observation) (threshold : R) (i : nat)
    (probBGreater : JS.number) (expectedLoss : Loss.t) : Step.t :=
  let obsA := nth i dataA (mkObservation 0 0) in
  let obsB := nth i dataB (mkObservation 0 0) in
  {| Step.step := i + 1;
     Step.probBGreater := probBGreater;
     Step.expectedLoss := expectedLoss;
     Step.posteriorA :=
       calculatePosterior this (successes obsA) (trials obsA) None None;
     Step.posteriorB :=
       calculatePosterior this (successes obsB) (trials obsB) None None;
     Step.shouldStop := stop_condition probBGreater threshold |}.

(** A polynomial of degree 5 in Bernstein form on the interval [0, h]. *)
Definition bernstein5 (c0 c1 c2 c3 c4 c5 h r : R) : R :=
  c0 * (r ^ 0 * (h - r) ^ 5) + c1 * (r ^ 1 * (h - r) ^ 4) +
  c2 * (r ^ 2 * (h - r) ^ 3) + c3 * (r ^ 3 * (h - r) ^ 2) +
  c4 * (r ^ 4 * (h - r) ^ 1) + c5 * (r ^ 5 * (h - r) ^ 0).

(** ** The properties the specification states, where the code differs *)

(** The property C5 states of a result of [calculateExpectedLoss]: one set
    of [n] paired samples gives the two losses and the probability. *)
Definition from_one_sample_set (n : nat) (r : Loss.t) : Prop :=
  exists sA sB : list R,
    length sA = n /\ length sB = n /\
    Loss.lossA r = JS.div (sum_loss sA sB n) (INR n) /\
    Loss.lossB r = JS.div (sum_loss sB sA n) (INR n) /\
    Loss.probBGreater r = JS.div (INR (count_wins sA sB n)) (INR n).

(** The totals of the observations up to index [j], as the specification
    describes the state of the sequential test. *)
Definition cumulative_totals (data : list Observation) (j : nat)
    : Observation :=
  fold_left
    (fun total obs =>
       mkObservation (successes total + successes obs)
                     (trials total + trials obs))
    (firstn (S j) data) (mkObservation 0 0).

(** The property C1 states of the records of a run: the posteriors of the
    record at index [j] are those of the cumulative totals up to [j]. *)
Definition posteriors_from_cumulative_totals (this : BayesianCalculator)
    (dataA dataB : list Observation) (results : list Step.t) : Prop :=
  forall j r, nth_error results j = Some r ->
    let totalA := cumulative_totals dataA j in
    let totalB := cumulative_totals dataB j in
    Step.posteriorA r =
      calculatePosterior this (successes totalA) (trials totalA) None None /\
    Step.posteriorB r =
      calculatePosterior this (successes totalB) (trials totalB) None None.

(** ** Inputs of the runs evaluated below *)

(** The posterior (1,1) of an arm without data under the uniform prior. *)
Definition uniform_posterior : BetaParams := {| alpha := 1; beta := 1 |}.

(** A calculator with the uniform prior and [n] samples per estimate. *)
Definition uniform_calculator (n : nat) : BayesianCalculator :=
  {| this_alpha := 1; this_beta := 1; monteCarloSamples := n |}.

(** Eight numbers the random source may return; [1/2] afterwards. *)
Definition rng_loss (k : nat) : R :=
  nth k [1/10; 4/10; 4/10; 1/10; 4/10; 1/10; 1/10; 4/10] (1/2).

(** A random source that returns 9/10 at every call. *)
Definition rng_stuck (k : nat) : R := 9 / 10.

(** A random source that returns 9/10 twice and 1/10 afterwards. *)
Definition rng_retry (k : nat) : R := if (k <? 2)%nat then 9 / 10 else 1 / 10.

(** A random source of period 8: the second number of each pair is 1/100,
    the first is 1/2, except in the fourth pair of a period, where it is
    9/10. *)
Definition rng_seq (k : nat) : R :=
  if Nat.odd k then 1 / 100
  else if (k mod 8 =? 6)%nat then 9 / 10 else 1 / 2.

(** The eight numbers of a period, seen from position [k]. *)
Definition period_at (rng : nat -> R) (k : nat) : Prop :=
  rng k = 1 / 2 /\ rng (1 + k)%nat = 1 / 100 /\
  rng (2 + k)%nat = 1 / 2 /\ rng (3 + k)%nat = 1 / 100 /\
  rng (4 + k)%nat = 1 / 2 /\ rng (5 + k)%nat = 1 / 100 /\
  rng (6 + k)%nat = 9 / 10 /\ rng (7 + k)%nat = 1 / 100.


(** The calculator with the Jeffreys prior (0.5, 0.5), and a single step
    with no success in 5 trials. *)
Definition jeffreys_calculator : BayesianCalculator :=
  constructor (Some 0.5) (Some 0.5).


(** Per-step observations: arm A converts 1 of 2 at each step, arm B
    converts 2 of 2. *)
Definition seq_dataA : list Observation :=
  [mkObservation 1 2; mkObservation 1 2].
Definition seq_dataB : list Observation :=
  [mkObservation 2 2; mkObservation 2 2].

Definition seq_loss : Loss.t :=
  {| Loss.lossA := JS.Fin (1 / 8);
     Loss.lossB := JS.Fin (1 / 8);
     Loss.probBGreater := JS.Fin (1 / 2) |}.

(** The record of the run at index [i]: both steps have the posteriors
    (2,2) and (3,1) of their own observations. *)
Definition seq_record (i : nat) : Step.t :=
  {| Step.step := i + 1;
     Step.probBGreater := JS.Fin (1 / 2);
     Step.expectedLoss := seq_loss;
     Step.posteriorA := {| alpha := 2; beta := 2 |};
     Step.posteriorB := {| alpha := 3; beta := 1 |};
     Step.shouldStop := false |}.

(** The only record of the run with threshold 0.5, which stops at once. *)
Definition seq_record_stop : Step.t :=
  {| Step.step := 0 + 1;
     Step.probBGreater := JS.Fin (1 / 2);
     Step.expectedLoss := seq_loss;
     Step.posteriorA := {| alpha := 2; beta := 2 |};
     Step.posteriorB := {| alpha := 3; beta := 1 |};
     Step.shouldStop := true |}.

(** ** The other methods of the calculator *)

(** [calculateProbabilityBGreaterThanA(posteriorA, posteriorB)], the
    estimate by numerical integration. *)
Definition calculateProbabilityBGreaterThanA
    (posteriorA posteriorB : BetaParams) : R :=
  let '(mkBetaParams alphaA betaA) := posteriorA in
  let '(mkBetaParams alphaB betaB) := posteriorB in
  let numPoints := 1000%nat in
  let probability :=
    fold_left
      (fun probability i =>
         let x := INR i / INR numPoints in
         let pdfA := betaPDF x alphaA betaA in
         let cdfB := betaCDF x alphaB betaB in
         probability + pdfA * cdfB / INR numPoints)
      (seq 0 numPoints) 0 in
  Math.max 0 (Math.min 1 probability).

(** A point [{x, y}] of a plotted density. *)
Module Point.
Record t : Type := mk { x : R; y : R }.
End Point.

(** [generateDistributionData(posterior, numPoints = 100)], for
    [numPoints >= 1]; at [numPoints = 0] the source divides 0 by 0. *)
Definition generateDistributionData (posterior : BetaParams)
    (numPoints : option nat) : list Point.t :=
  let numPoints := JS.arg_or 100%nat numPoints in
  let '(mkBetaParams alpha beta) := posterior in
  fold_left
    (fun data i =>
       let x := INR i / INR numPoints in
       let y := betaPDF x alpha beta in
       data ++ [ {| Point.x := x; Point.y := y |} ])
    (seq 0 (S numPoints)) [].

(** The object returned by [posteriorPredictive]. *)
Module Predictive.
Record t : Type := mk {
  alpha : R;
  beta : R;
  trials : R;
  expectedSuccesses : R;
  variance : R
}.
End Predictive.

(** [posteriorPredictive(posterior, futureTrials)] *)
Definition posteriorPredictive (posterior : BetaParams) (futureTrials : R)
    : Predictive.t :=
  let '(mkBetaParams alpha beta) := posterior in
  {| Predictive.alpha := alpha;
     Predictive.beta := beta;
     Predictive.trials := futureTrials;
     Predictive.expectedSuccesses := (alpha / (alpha + beta)) * futureTrials;
     Predictive.variance :=
       futureTrials * (alpha * beta * (alpha + beta + futureTrials)) /
       ((alpha + beta) ^ 2 * (alpha + beta + 1)) |}.

(** An element of the array returned by [sensitivityAnalysis]. *)
Module Sensitivity.
Record t : Type := mk {
  prior : BetaParams;
  posterior : BetaParams;
  expectedValue : R;
  credibleInterval : Interval
}.
End Sensitivity.

(** [sensitivityAnalysis(successes, trials, priors)] *)
Definition sensitivityAnalysis (this : BayesianCalculator)
    (successes trials : R) (priors : list BetaParams) : list Sensitivity.t :=
  map
    (fun prior =>
       let posterior :=
         calculatePosterior this successes trials
           (Some (alpha prior)) (Some (beta prior)) in
       {| Sensitivity.prior := prior;
          Sensitivity.posterior := posterior;
          Sensitivity.expectedValue := calculateExpectedValue posterior;
          Sensitivity.credibleInterval :=
            calculateCredibleInterval posterior None |})
    priors.

(** ** The dashboard: callers of the calculator *)

(** Operations of JavaScript on the numbers a division may return. *)
Module Number.

(** [p > t] and [p < t]: false whenever [p] is NaN. *)
Definition gt (p : JS.number) (t : R) : bool :=
  match p with
  | JS.Fin r => if Rgt_dec r t then true else false
  | JS.PosInf => true
  | JS.NaN | JS.NegInf => false
  end.

Definition lt (p : JS.number) (t : R) : bool :=
  match p with
  | JS.Fin r => if Rlt_dec r t then true else false
  | JS.NegInf => true
  | JS.NaN | JS.PosInf => false
  end.

(** [t - p] for a finite [t]. *)
Definition rsub (t : R) (p : JS.number) : JS.number :=
  match p with
  | JS.Fin r => JS.Fin (t - r)
  | JS.NaN => JS.NaN
  | JS.PosInf => JS.NegInf
  | JS.NegInf => JS.PosInf
  end.

(** [Math.max(p, q)] and [Math.min(p, q)]: NaN when an argument is NaN. *)
Definition max (p q : JS.number) : JS.number :=
  match p, q with
  | JS.NaN, _ | _, JS.NaN => JS.NaN
  | JS.PosInf, _ | _, JS.PosInf => JS.PosInf
  | JS.NegInf, x | x, JS.NegInf => x
  | JS.Fin x, JS.Fin y => JS.Fin (Rmax x y)
  end.

Definition min (p q : JS.number) : JS.number :=
  match p, q with
  | JS.NaN, _ | _, JS.NaN => JS.NaN
  | JS.NegInf, _ | _, JS.NegInf => JS.NegInf
  | JS.PosInf, x | x, JS.PosInf => x
  | JS.Fin x, JS.Fin y => JS.Fin (Rmin x y)
  end.

(** [t * p] for a finite [t]. *)
Definition rmul (t : R) (p : JS.number) : JS.number :=
  match p with
  | JS.Fin r => JS.Fin (t * r)
  | JS.NaN => JS.NaN
  | JS.PosInf =>
      if Req_dec_T t 0 then JS.NaN
      else if Rlt_dec 0 t then JS.PosInf else JS.NegInf
  | JS.NegInf =>
      if Req_dec_T t 0 then JS.NaN
      else if Rlt_dec 0 t then JS.NegInf else JS.PosInf
  end.

(** [p <= q]: false whenever an operand is NaN. *)
Definition le (p q : JS.number) : bool :=
  match p, q with
  | JS.NaN, _ | _, JS.NaN => false
  | JS.NegInf, _ | _, JS.PosInf => true
  | JS.PosInf, _ | _, JS.NegInf => false
  | JS.Fin x, JS.Fin y => if Rle_dec x y then true else false
  end.

End Number.

(** The state [sequentialData] of the dashboard. *)
Module SequentialData.
Record t : Type := mk {
  variantA : list Observation;
  variantB : list Observation
}.
End SequentialData.

(** The memoised value [sequentialResults] of the dashboard; [None] is
    [null]. *)
Definition sequentialResults (rng : nat -> R) (fuel : nat)
    (calculator : BayesianCalculator) (sequentialData : SequentialData.t)
    : M (option (list Step.t)) :=
  if ((length (SequentialData.variantA sequentialData) =? 0)%nat
      || (length (SequentialData.variantB sequentialData) =? 0)%nat)%bool
  then ret None
  else
    results <- sequentialTest rng fuel calculator
                 (SequentialData.variantA sequentialData)
                 (SequentialData.variantB sequentialData) (Some 0.95) ;;
    ret (Some results).

(** The object returned by [getRecommendation]. *)
Module Recommendation.
Record t : Type := mk {
  variant : String.string;
  confidence : String.string;
  probability : JS.number;
  expectedLoss : JS.number
}.
End Recommendation.

(** The functions of the dashboard that build texts. *)
Module Dashboard.
Import String.
Local Open Scope string_scope.

(** [getRecommendation()], as a function of the two fields of [results]
    it reads; [None] is [null]. *)
Definition getRecommendation (results : option (JS.number * Loss.t))
    : option Recommendation.t :=
  match results with
  | None => None
  | Some (probBGreater, expectedLoss) =>
      if Number.gt probBGreater 0.8 then
        Some {| Recommendation.variant := "B";
                Recommendation.confidence := "High";
                Recommendation.probability := probBGreater;
                Recommendation.expectedLoss := Loss.lossA expectedLoss |}
      else if Number.lt probBGreater 0.2 then
        Some {| Recommendation.variant := "A";
                Recommendation.confidence := "High";
                Recommendation.probability := Number.rsub 1 probBGreater;
                Recommendation.expectedLoss := Loss.lossB expectedLoss |}
      else
        Some {| Recommendation.variant := "Inconclusive";
                Recommendation.confidence := "Low";
                Recommendation.probability :=
                  Number.max probBGreater (Number.rsub 1 probBGreater);
                Recommendation.expectedLoss :=
                  Number.min (Loss.lossA expectedLoss)
                             (Loss.lossB expectedLoss) |}
  end.

(** The table [priorPresets], by key. *)
Definition priorPresets : list (string * BetaParams) :=
  [ ("uniform", {| alpha := 1; beta := 1 |});
    ("jeffreys", {| alpha := 0.5; beta := 0.5 |});
    ("conservative", {| alpha := 2; beta := 2 |});
    ("optimistic", {| alpha := 2; beta := 8 |});
    ("pessimistic", {| alpha := 1; beta := 9 |}) ].

End Dashboard.

(** The object returned by [calculatePriorImpact] of the prior selection. *)
Module PriorImpact.
Record t : Type := mk {
  mean : R;
  variance : R;
  effectiveSampleSize : R;
  confidence : R
}.
End PriorImpact.

(** [calculatePriorImpact(alpha, beta)] *)
Definition calculatePriorImpact (alpha beta : R) : PriorImpact.t :=
  let mean := alpha / (alpha + beta) in
  let variance :=
    (alpha * beta) / ((alpha + beta) ^ 2 * (alpha + beta + 1)) in
  let effectiveSampleSize := alpha + beta - 2 in
  {| PriorImpact.mean := mean;
     PriorImpact.variance := variance;
     PriorImpact.effectiveSampleSize := Math.max 0 effectiveSampleSize;
     PriorImpact.confidence := Math.min 1 (effectiveSampleSize / 10) |}.

(** ** The input component of the sequential test *)

(** [array.map((x, i) => f(x, i))] and [array.filter((x, i) => f(x, i))],
    from the index [i]. *)
Fixpoint mapi_from {A B : Type} (i : nat) (f : A -> nat -> B) (l : list A)
    : list B :=
  match l with
  | [] => []
  | x :: l' => f x i :: mapi_from (S i) f l'
  end.

Fixpoint filteri_from {A : Type} (i : nat) (f : A -> nat -> bool)
    (l : list A) : list A :=
  match l with
  | [] => []
  | x :: l' =>
      if f x i then x :: filteri_from (S i) f l' else filteri_from (S i) f l'
  end.

Module SequentialTestInput.

(** The keys ['variantA'] and ['variantB'] of the state, and the keys
    ['successes'] and ['trials'] of a data point. *)
Inductive Variant : Type := VariantA | VariantB.
Inductive Field : Type := Successes | Trials.

(** [prev[variant]] and [{ ...prev, [variant]: points }] *)
Definition get (variant : Variant) (prev : SequentialData.t)
    : list Observation :=
  match variant with
  | VariantA => SequentialData.variantA prev
  | VariantB => SequentialData.variantB prev
  end.

Definition set (variant : Variant) (points : list Observation)
    (prev : SequentialData.t) : SequentialData.t :=
  match variant with
  | VariantA =>
      {| SequentialData.variantA := points;
         SequentialData.variantB := SequentialData.variantB prev |}
  | VariantB =>
      {| SequentialData.variantA := SequentialData.variantA prev;
         SequentialData.variantB := points |}
  end.

(** [{ ...point, [field]: v }] *)
Definition set_field (field : Field) (v : R) (point : Observation)
    : Observation :=
  match field with
  | Successes => {| successes := v; trials := trials point |}
  | Trials => {| successes := successes point; trials := v |}
  end.

(** [n || 0] for the result [n] of [parseInt]: an integer, or NaN
    ([None]). *)
Definition or_zero (n : option Z) : R :=
  match n with
  | Some z => IZR z
  | None => 0
  end.

Section Updaters.

(** [parseInt], from the text of an input field to an integer or NaN. *)
Variable parseInt : String.string -> option Z.

(** The state updater of [addDataPoint(variant)]. *)
Definition addDataPoint (variant : Variant) (prev : SequentialData.t)
    : SequentialData.t :=
  let newDataPoint := {| successes := 0; trials := 0 |} in
  set variant (get variant prev ++ [newDataPoint]) prev.

(** The state updater of [updateDataPoint(variant, index, field, value)]. *)
Definition updateDataPoint (variant : Variant) (index : nat) (field : Field)
    (value : String.string) (prev : SequentialData.t) : SequentialData.t :=
  set variant
    (mapi_from 0
       (fun point i =>
          if (i =? index)%nat
          then set_field field (or_zero (parseInt value)) point
          else point)
       (get variant prev))
    prev.

(** The state updater of [removeDataPoint(variant, index)]. *)
Definition removeDataPoint (variant : Variant) (index : nat)
    (prev : SequentialData.t) : SequentialData.t :=
  set variant
    (filteri_from 0 (fun _ i => negb (i =? index)%nat) (get variant prev))
    prev.

End Updaters.

End SequentialTestInput.

(** ** The sample size calculators *)

(** [Math.ceil], [Math.floor] and [Math.pow(x, 2)]. *)
Module MathInt.
Definition ceil (x : R) : R := IZR (Zceil x).
Definition floor (x : R) : R := IZR (Zfloor x).
Definition pow2 (x : R) : R := x ^ 2.
End MathInt.

(** The state of the component [DynamicSampleSizeCalculator].  The input
    handlers store [parseFloat] or [parseInt] of the text of a field, NaN
    for a field that is empty: [maxDuration] is a number or NaN; the other
    fields are numbers in the embedding. *)
Module SampleSizeState.
Record t : Type := mk {
  baselineRate : R;
  expectedLift : R;
  power : R;
  alpha : R;
  dailyTraffic : R;
  maxDuration : JS.number
}.
End SampleSizeState.

(** The object [results] it computes. *)
Module SampleSizeResults.
Record t : Type := mk {
  perVariant : R;
  total : R;
  actualTotal : JS.number;
  expectedDuration : R;
  actualDuration : JS.number;
  baselineRate : R;
  expectedRate : R;
  expectedLift : R;
  power : R;
  alpha : R;
  dailyTraffic : R;
  feasibility : String.string
}.
End SampleSizeResults.

Module DynamicSampleSizeCalculator.
Import String.
Local Open Scope string_scope.

(** The component's own [inverseNormalCDF]: the text of the calculator's
    method, constant for constant. *)
Definition inverseNormalCDF : R -> R := inverseNormalCDF.

(** [calculateSampleSize()], as a function of the state it reads, for
    [p2 <> p1] and [dailyTraffic <> 0]: the quotients are the ones of the
    reals. *)
Definition calculateSampleSize (state : SampleSizeState.t)
    : SampleSizeResults.t :=
  let baselineRate := SampleSizeState.baselineRate state in
  let expectedLift := SampleSizeState.expectedLift state in
  let power := SampleSizeState.power state in
  let alpha := SampleSizeState.alpha state in
  let dailyTraffic := SampleSizeState.dailyTraffic state in
  let maxDuration := SampleSizeState.maxDuration state in
  let zAlpha := inverseNormalCDF (1 - alpha / 2) in
  let zBeta := inverseNormalCDF power in
  let p1 := baselineRate in
  let p2 := baselineRate * (1 + expectedLift) in
  let pPooled := (p1 + p2) / 2 in
  let numerator :=
    MathInt.pow2
      (zAlpha * Math.sqrt (2 * pPooled * (1 - pPooled)) +
       zBeta * Math.sqrt (p1 * (1 - p1) + p2 * (1 - p2))) in
  let denominator := MathInt.pow2 (p2 - p1) in
  let sampleSizePerVariant := MathInt.ceil (numerator / denominator) in
  let totalSampleSize := sampleSizePerVariant * 2 in
  let expectedDuration := MathInt.ceil (totalSampleSize / dailyTraffic) in
  let actualDuration := Number.min (JS.Fin expectedDuration) maxDuration in
  let actualSampleSize :=
    Number.min (JS.Fin totalSampleSize)
      (Number.rmul dailyTraffic actualDuration) in
  {| SampleSizeResults.perVariant := sampleSizePerVariant;
     SampleSizeResults.total := totalSampleSize;
     SampleSizeResults.actualTotal := actualSampleSize;
     SampleSizeResults.expectedDuration := expectedDuration;
     SampleSizeResults.actualDuration := actualDuration;
     SampleSizeResults.baselineRate := p1;
     SampleSizeResults.expectedRate := p2;
     SampleSizeResults.expectedLift := expectedLift;
     SampleSizeResults.power := power;
     SampleSizeResults.alpha := alpha;
     SampleSizeResults.dailyTraffic := dailyTraffic;
     SampleSizeResults.feasibility :=
       if Number.le actualDuration maxDuration
       then "feasible" else "challenging" |}.

End DynamicSampleSizeCalculator.

(** ** The data simulation service *)

(** An element of [this.scenarios]. *)
Module Scenario.
Record t : Type := mk {
  name : String.string;
  description : String.string;
  baselineRate : R;
  expectedLift : R;
  variability : R
}.
End Scenario.

(** How a method that destructures [scenario] ends: with a value, or with
    the TypeError thrown when [scenario] is [undefined]. *)
Inductive completion (A : Type) : Type :=
| Returns (a : A)
| TypeError.

Arguments Returns {A} a.
Arguments TypeError {A}.

(** The objects [{successes, trials, rate}] of [generateTestData]. *)
Module DayVariant.
Record t : Type := mk {
  successes : R;
  trials : R;
  rate : JS.number
}.
End DayVariant.

(** An element of [dailyData]. *)
Module Day.
Record t : Type := mk {
  day : nat;
  variantA : DayVariant.t;
  variantB : DayVariant.t
}.
End Day.

(** The object returned by [generateTestData]. *)
Module TestData.
Record t : Type := mk {
  scenario : Scenario.t;
  dailyData : list Day.t;
  totalA : Observation;
  totalB : Observation
}.
End TestData.

(** The objects [{successes, trials, cumulative}] of
    [generateSequentialData]. *)
Module SequentialVariant.
Record t : Type := mk {
  successes : R;
  trials : R;
  cumulative : Observation
}.
End SequentialVariant.

(** An element of [sequentialData]. *)
Module SequentialDay.
Record t : Type := mk {
  day : nat;
  variantA : SequentialVariant.t;
  variantB : SequentialVariant.t;
  probabilityBGreater : JS.number;
  shouldStop : bool
}.
End SequentialDay.

Module FinalResults.
Record t : Type := mk {
  variantA : Observation;
  variantB : Observation;
  probabilityBGreater : JS.number
}.
End FinalResults.

(** The object returned by [generateSequentialData]. *)
Module SequentialRun.
Record t : Type := mk {
  scenario : Scenario.t;
  sequentialData : list SequentialDay.t;
  finalResults : FinalResults.t
}.
End SequentialRun.

(** The object returned by the service's [calculateSampleSize]. *)
Module SampleSize.
Record t : Type := mk {
  perVariant : R;
  total : R;
  expectedDuration : R;
  baselineRate : R;
  expectedRate : R;
  expectedLift : R
}.
End SampleSize.

(** The elements of [hourly] and [weekly], and the object returned by
    [generateUserBehaviorPatterns]. *)
Module Hourly.
Record t : Type := mk {
  hour : nat;
  traffic : R;
  conversionRate : R
}.
End Hourly.

Module Weekly.
Record t : Type := mk {
  day : String.string;
  traffic : R;
  conversionRate : R
}.
End Weekly.

Module Patterns.
Record t : Type := mk {
  hourly : list Hourly.t;
  weekly : list Weekly.t
}.
End Patterns.

(** [Array.from({ length }, (_, i) => f(i))], from the index [i]. *)
Fixpoint array_from {A : Type} (f : nat -> M A) (length i : nat)
    : M (list A) :=
  match length with
  | O => ret []
  | S length' =>
      x <- f i ;;
      xs <- array_from f length' (S i) ;;
      ret (x :: xs)
  end.

(** The class [DataSimulationService].  Array indices, [days] and
    [maxDays] are natural numbers. *)
Module DataSimulationService.
Import String.
Local Open Scope string_scope.

(** The fields the constructor sets on [this]. *)
Record t : Type := mk {
  calculator : BayesianCalculator;
  scenarios : list Scenario.t
}.

Definition constructor : t :=
  {| calculator := constructor None None;
     scenarios :=
       [ {| Scenario.name := "E-commerce Checkout Button";
            Scenario.description :=
              "Testing different button colors for checkout conversion";
            Scenario.baselineRate := 0.12;
            Scenario.expectedLift := 0.15;
            Scenario.variability := 0.02 |};
         {| Scenario.name := "Email Subject Line";
            Scenario.description :=
              "A/B testing email open rates with different subject lines";
            Scenario.baselineRate := 0.25;
            Scenario.expectedLift := 0.08;
            Scenario.variability := 0.03 |};
         {| Scenario.name := "Landing Page Headline";
            Scenario.description :=
              "Testing different headlines for sign-up conversion";
            Scenario.baselineRate := 0.08;
            Scenario.expectedLift := 0.20;
            Scenario.variability := 0.015 |};
         {| Scenario.name := "Pricing Page Layout";
            Scenario.description :=
              "Testing different pricing page designs for subscription conversion";
            Scenario.baselineRate := 0.15;
            Scenario.expectedLift := 0.12;
            Scenario.variability := 0.025 |};
         {| Scenario.name := "Mobile App Onboarding";
            Scenario.description :=
              "Testing different onboarding flows for user retention";
            Scenario.baselineRate := 0.35;
            Scenario.expectedLift := 0.10;
            Scenario.variability := 0.04 |} ] |}.

(** [this.scenarios[scenarioIndex] || this.scenarios[0]]; [None] is
    [undefined]. *)
Definition scenario_at (this : t) (scenarioIndex : nat)
    : option Scenario.t :=
  match nth_error (scenarios this) scenarioIndex with
  | Some scenario => Some scenario
  | None => nth_error (scenarios this) 0
  end.

(** [p || 0] for [p] a number or [undefined] ([None]): NaN and
    [undefined] give [0]. *)
Definition or_zero (p : option JS.number) : JS.number :=
  match p with
  | None | Some JS.NaN => JS.Fin 0
  | Some p => p
  end.

Section Simulation.

Variable rng : nat -> R.
Variable fuel : nat.

(** The loop [for (let day = 0; day < days; day++)] of
    [generateTestData], with [remaining = days - day]. *)
Fixpoint generateTestData_loop (sampleSize : R) (days : nat)
    (safeARate safeBRate : R) (remaining day : nat)
    (dailyData : list Day.t) : M (list Day.t) :=
  match remaining with
  | O => ret dailyData
  | S remaining' =>
      u <- Math_random rng ;;
      let dayVariation := 0.8 + u * 0.4 in
      let dailySampleSize :=
        MathInt.floor (sampleSize / INR days * dayVariation) in
      ua <- Math_random rng ;;
      let aSuccesses :=
        MathInt.floor (dailySampleSize * safeARate * (0.9 + ua * 0.2)) in
      ub <- Math_random rng ;;
      let bSuccesses :=
        MathInt.floor (dailySampleSize * safeBRate * (0.9 + ub * 0.2)) in
      generateTestData_loop sampleSize days safeARate safeBRate
        remaining' (S day)
        (dailyData ++
         [ {| Day.day := day + 1;
              Day.variantA :=
                {| DayVariant.successes := aSuccesses;
                   DayVariant.trials := dailySampleSize;
                   DayVariant.rate := JS.div aSuccesses dailySampleSize |};
              Day.variantB :=
                {| DayVariant.successes := bSuccesses;
                   DayVariant.trials := dailySampleSize;
                   DayVariant.rate :=
                     JS.div bSuccesses dailySampleSize |} |} ])
  end.

(** [generateTestData(scenarioIndex = 0, sampleSize = 1000, days = 7)] *)
Definition generateTestData (this : t) (scenarioIndex : option nat)
    (sampleSize : option R) (days : option nat)
    : M (completion TestData.t) :=
  let scenarioIndex := JS.arg_or 0%nat scenarioIndex in
  let sampleSize := JS.arg_or 1000 sampleSize in
  let days := JS.arg_or 7%nat days in
  match scenario_at this scenarioIndex with
  | None => ret TypeError
  | Some scenario =>
      let baselineRate := Scenario.baselineRate scenario in
      let expectedLift := Scenario.expectedLift scenario in
      let variability := Scenario.variability scenario in
      u1 <- Math_random rng ;;
      let variantARate := baselineRate + (u1 - 0.5) * variability in
      u2 <- Math_random rng ;;
      let variantBRate :=
        baselineRate * (1 + expectedLift) + (u2 - 0.5) * variability in
      let safeARate := Math.max 0.01 (Math.min 0.99 variantARate) in
      let safeBRate := Math.max 0.01 (Math.min 0.99 variantBRate) in
      dailyData <- generateTestData_loop sampleSize days safeARate
                     safeBRate days 0 [] ;;
      ret (Returns
             {| TestData.scenario := scenario;
                TestData.dailyData := dailyData;
                TestData.totalA :=
                  {| successes :=
                       fold_left
                         (fun sum day =>
                            sum + DayVariant.successes (Day.variantA day))
                         dailyData 0;
                     trials :=
                       fold_left
                         (fun sum day =>
                            sum + DayVariant.trials (Day.variantA day))
                         dailyData 0 |};
                TestData.totalB :=
                  {| successes :=
                       fold_left
                         (fun sum day =>
                            sum + DayVariant.successes (Day.variantB day))
                         dailyData 0;
                     trials :=
                       fold_left
                         (fun sum day =>
                            sum + DayVariant.trials (Day.variantB day))
                         dailyData 0 |} |})
  end.

(** The loop [for (let day = 1; day <= maxDays; day++)] of
    [generateSequentialData], with [remaining = maxDays - day + 1]; it
    yields [sequentialData] and the two cumulative objects. *)
Fixpoint generateSequentialData_loop (this : t) (safeARate safeBRate : R)
    (remaining day : nat) (cumulativeA cumulativeB : Observation)
    (sequentialData : list SequentialDay.t)
    : M (list SequentialDay.t * Observation * Observation) :=
  match remaining with
  | O => ret (sequentialData, cumulativeA, cumulativeB)
  | S remaining' =>
      u <- Math_random rng ;;
      let dailySampleSize := 200 + MathInt.floor (u * 100) in
      ua <- Math_random rng ;;
      let aSuccesses :=
        MathInt.floor (dailySampleSize * safeARate * (0.9 + ua * 0.2)) in
      ub <- Math_random rng ;;
      let bSuccesses :=
        MathInt.floor (dailySampleSize * safeBRate * (0.9 + ub * 0.2)) in
      let cumulativeA :=
        {| successes := successes cumulativeA + aSuccesses;
           trials := trials cumulativeA + dailySampleSize |} in
      let cumulativeB :=
        {| successes := successes cumulativeB + bSuccesses;
           trials := trials cumulativeB + dailySampleSize |} in
      let posteriorA :=
        calculatePosterior (calculator this) (successes cumulativeA)
          (trials cumulativeA) None None in
      let posteriorB :=
        calculatePosterior (calculator this) (successes cumulativeB)
          (trials cumulativeB) None None in
      probBGreater <-
        calculateProbabilityBGreaterThanAMonteCarlo rng fuel
          (calculator this) posteriorA posteriorB ;;
      let sequentialData :=
        (sequentialData ++
        [ {| SequentialDay.day := day;
             SequentialDay.variantA :=
               {| SequentialVariant.successes := aSuccesses;
                  SequentialVariant.trials := dailySampleSize;
                  SequentialVariant.cumulative := cumulativeA |};
             SequentialDay.variantB :=
               {| SequentialVariant.successes := bSuccesses;
                  SequentialVariant.trials := dailySampleSize;
                  SequentialVariant.cumulative := cumulativeB |};
             SequentialDay.probabilityBGreater := probBGreater;
             SequentialDay.shouldStop :=
               JS.ge probBGreater 0.95 || JS.le probBGreater 0.05 |} ])%list
      in
      if JS.ge probBGreater 0.95 || JS.le probBGreater 0.05
      then ret (sequentialData, cumulativeA, cumulativeB)
      else
        generateSequentialData_loop this safeARate safeBRate remaining'
          (S day) cumulativeA cumulativeB sequentialData
  end.

(** [generateSequentialData(scenarioIndex = 0, maxDays = 30)]; the entry
    [sequentialData[sequentialData.length - 1]] is [undefined] for the
    empty array. *)
Definition generateSequentialData (this : t) (scenarioIndex : option nat)
    (maxDays : option nat) : M (completion SequentialRun.t) :=
  let scenarioIndex := JS.arg_or 0%nat scenarioIndex in
  let maxDays := JS.arg_or 30%nat maxDays in
  match scenario_at this scenarioIndex with
  | None => ret TypeError
  | Some scenario =>
      let baselineRate := Scenario.baselineRate scenario in
      let expectedLift := Scenario.expectedLift scenario in
      let variability := Scenario.variability scenario in
      u1 <- Math_random rng ;;
      let variantARate := baselineRate + (u1 - 0.5) * variability in
      u2 <- Math_random rng ;;
      let variantBRate :=
        baselineRate * (1 + expectedLift) + (u2 - 0.5) * variability in
      let safeARate := Math.max 0.01 (Math.min 0.99 variantARate) in
      let safeBRate := Math.max 0.01 (Math.min 0.99 variantBRate) in
      r <- generateSequentialData_loop this safeARate safeBRate maxDays 1
             {| successes := 0; trials := 0 |}
             {| successes := 0; trials := 0 |} [] ;;
      let '(sequentialData, cumulativeA, cumulativeB) := r in
      ret (Returns
             {| SequentialRun.scenario := scenario;
                SequentialRun.sequentialData := sequentialData;
                SequentialRun.finalResults :=
                  {| FinalResults.variantA := cumulativeA;
                     FinalResults.variantB := cumulativeB;
                     FinalResults.probabilityBGreater :=
                       or_zero
                         (option_map SequentialDay.probabilityBGreater
                            (nth_error sequentialData
                               (List.length sequentialData - 1))) |} |})
  end.

(** [calculateSampleSize(baselineRate, expectedLift, power = 0.8,
    alpha = 0.05)], for [p2 <> p1]: the quotient is the one of the
    reals. *)
Definition calculateSampleSize (this : t) (baselineRate expectedLift : R)
    (power alpha : option R) : SampleSize.t :=
  let power := JS.arg_or 0.8 power in
  let alpha := JS.arg_or 0.05 alpha in
  let zAlpha := 1.96 in
  let zBeta := 0.84 in
  let p1 := baselineRate in
  let p2 := baselineRate * (1 + expectedLift) in
  let pPooled := (p1 + p2) / 2 in
  let numerator :=
    MathInt.pow2
      (zAlpha * Math.sqrt (2 * pPooled * (1 - pPooled)) +
       zBeta * Math.sqrt (p1 * (1 - p1) + p2 * (1 - p2))) in
  let denominator := MathInt.pow2 (p2 - p1) in
  let sampleSize := MathInt.ceil (numerator / denominator) in
  {| SampleSize.perVariant := sampleSize;
     SampleSize.total := sampleSize * 2;
     SampleSize.expectedDuration := MathInt.ceil (sampleSize * 2 / 1000);
     SampleSize.baselineRate := p1;
     SampleSize.expectedRate := p2;
     SampleSize.expectedLift := expectedLift |}.

Definition getHourlyTraffic (hour : nat) : M R :=
  if ((9 <=? hour)%nat && (hour <=? 17)%nat)%bool then
    u <- Math_random rng ;; ret (0.8 + u * 0.4)
  else if ((19 <=? hour)%nat && (hour <=? 22)%nat)%bool then
    u <- Math_random rng ;; ret (0.6 + u * 0.3)
  else
    u <- Math_random rng ;; ret (0.2 + u * 0.2).

Definition getHourlyConversionRate (hour : nat) : M R :=
  if ((10 <=? hour)%nat && (hour <=? 14)%nat)%bool then
    u <- Math_random rng ;; ret (0.9 + u * 0.2)
  else if ((20 <=? hour)%nat && (hour <=? 22)%nat)%bool then
    u <- Math_random rng ;; ret (0.8 + u * 0.3)
  else
    u <- Math_random rng ;; ret (0.7 + u * 0.3).

Definition getWeeklyTraffic (day : nat) : M R :=
  if ((day =? 0)%nat || (day =? 6)%nat)%bool then
    u <- Math_random rng ;; ret (0.6 + u * 0.2)
  else
    u <- Math_random rng ;; ret (0.8 + u * 0.3).

Definition getWeeklyConversionRate (day : nat) : M R :=
  if (day =? 1)%nat then
    u <- Math_random rng ;; ret (0.7 + u * 0.2)
  else if (day =? 5)%nat then
    u <- Math_random rng ;; ret (0.9 + u * 0.1)
  else
    u <- Math_random rng ;; ret (0.8 + u * 0.2).

(** [generateUserBehaviorPatterns()] *)
Definition generateUserBehaviorPatterns : M Patterns.t :=
  hourly <-
    array_from
      (fun hour =>
         traffic <- getHourlyTraffic hour ;;
         conversionRate <- getHourlyConversionRate hour ;;
         ret {| Hourly.hour := hour;
                Hourly.traffic := traffic;
                Hourly.conversionRate := conversionRate |})
      24 0 ;;
  weekly <-
    array_from
      (fun day =>
         traffic <- getWeeklyTraffic day ;;
         conversionRate <- getWeeklyConversionRate day ;;
         ret {| Weekly.day :=
                  nth day
                    ["Sunday"; "Monday"; "Tuesday"; "Wednesday";
                     "Thursday"; "Friday"; "Saturday"] EmptyString;
                Weekly.traffic := traffic;
                Weekly.conversionRate := conversionRate |})
      7 0 ;;
  ret {| Patterns.hourly := hourly; Patterns.weekly := weekly |}.

End Simulation.

End DataSimulationService.

(** A scenario whose two rates, with their random offset, stay at or
    below 0.9. *)
Definition moderate (scenario : Scenario.t) : Prop :=
  0 <= Scenario.variability scenario /\
  Scenario.baselineRate scenario + Scenario.variability scenario / 2
    <= 0.9 /\
  Scenario.baselineRate scenario * (1 + Scenario.expectedLift scenario) +
  Scenario.variability scenario / 2 <= 0.9.

(** A source of random numbers in [[0, 1)], as [Math.random()] is. *)
Definition unit_range (rng : nat -> R) : Prop :=
  forall k : nat, 0 <= rng k < 1.

(** The element one iteration of the loop of [generateTestData] pushes,
    for the three numbers [u], [ua], [ub] it draws. *)
Definition test_day (sampleSize : R) (days : nat) (safeARate safeBRate : R)
    (day : nat) (u ua ub : R) : Day.t :=
  let dailySampleSize :=
    MathInt.floor (sampleSize / INR days * (0.8 + u * 0.4)) in
  let aSuccesses :=
    MathInt.floor (dailySampleSize * safeARate * (0.9 + ua * 0.2)) in
  let bSuccesses :=
    MathInt.floor (dailySampleSize * safeBRate * (0.9 + ub * 0.2)) in
  {| Day.day := day + 1;
     Day.variantA :=
       {| DayVariant.successes := aSuccesses;
          DayVariant.trials := dailySampleSize;
          DayVariant.rate := JS.div aSuccesses dailySampleSize |};
     Day.variantB :=
       {| DayVariant.successes := bSuccesses;
          DayVariant.trials := dailySampleSize;
          DayVariant.rate := JS.div bSuccesses dailySampleSize |} |}.

(** The element one iteration of the loop of [generateSequentialData]
    pushes, for the totals [cumulativeA], [cumulativeB] of the days
    before, the three numbers [u], [ua], [ub] it draws and the estimate
    [probBGreater]. *)
Definition sequential_day (safeARate safeBRate : R) (day : nat)
    (cumulativeA cumulativeB : Observation) (u ua ub : R)
    (probBGreater : JS.number) : SequentialDay.t :=
  let dailySampleSize := 200 + MathInt.floor (u * 100) in
  let aSuccesses :=
    MathInt.floor (dailySampleSize * safeARate * (0.9 + ua * 0.2)) in
  let bSuccesses :=
    MathInt.floor (dailySampleSize * safeBRate * (0.9 + ub * 0.2)) in
  {| SequentialDay.day := day;
     SequentialDay.variantA :=
       {| SequentialVariant.successes := aSuccesses;
          SequentialVariant.trials := dailySampleSize;
          SequentialVariant.cumulative :=
            {| successes := successes cumulativeA + aSuccesses;
               trials := trials cumulativeA + dailySampleSize |} |};
     SequentialDay.variantB :=
       {| SequentialVariant.successes := bSuccesses;
          SequentialVariant.trials := dailySampleSize;
          SequentialVariant.cumulative :=
            {| successes := successes cumulativeB + bSuccesses;
               trials := trials cumulativeB + dailySampleSize |} |};
     SequentialDay.probabilityBGreater := probBGreater;
     SequentialDay.shouldStop :=
       JS.ge probBGreater 0.95 || JS.le probBGreater 0.05 |}.

(** The records [l] are those of consecutive days from [day] on: each is
    built from three consecutive draws and from the totals of the day
    before, which are [cumulativeA], [cumulativeB] for the first; a
    record followed by another has [shouldStop = false]. *)
Fixpoint day_chain (rng : nat -> R) (safeARate safeBRate : R) (day : nat)
    (cumulativeA cumulativeB : Observation) (l : list SequentialDay.t)
    : Prop :=
  match l with
  | [] => True
  | d :: l' =>
      (exists (k : nat) (p : JS.number),
         d = sequential_day safeARate safeBRate day cumulativeA
               cumulativeB (rng k) (rng (S k)) (rng (S (S k))) p) /\
      (l' = [] \/ SequentialDay.shouldStop d = false) /\
      day_chain rng safeARate safeBRate (S day)
        (SequentialVariant.cumulative (SequentialDay.variantA d))
        (SequentialVariant.cumulative (SequentialDay.variantB d)) l'
  end.

(** The service with a calculator that draws no sample. *)
Definition zero_sample_service : DataSimulationService.t :=
  {| DataSimulationService.calculator := uniform_calculator 0;
     DataSimulationService.scenarios :=
       DataSimulationService.scenarios DataSimulationService.constructor |}.

(** Both shapes positive: the invariant of a Beta distribution. *)
Definition positive_shapes (p : BetaParams) : Prop :=
  0 < alpha p /\ 0 < beta p.

(** * Properties *)

(** Decimal constants, turned into quotients of integers for [field]. *)
Ltac decimals :=
  cbv [Q2R QArith_base.Qnum QArith_base.Qden Z.pow_pos Pos.iter
       Z.mul Pos.mul Pos.add Pos.succ].

(** ** Posterior layer *)

Lemma calculatePosterior_unfold (this : BayesianCalculator)
    (s t : R) (oa ob : option R) :
  calculatePosterior this s t oa ob =
  {| alpha := JS.arg_or (this_alpha this) oa + s;
     beta := JS.arg_or (this_beta this) ob + (t - s) |}.
Proof. reflexivity. Qed.

(** C2, as stated, fails: the call with 5 successes in 3 trials is an
    InvalidObservation, and the caller receives the parameter pair (6, -1),
    whose beta is not even positive. *)
Lemma calculatePosterior_accepts_invalid :
  InvalidObservation 5 3 /\
  calculatePosterior (constructor None None) 5 3 None None =
  {| alpha := 6; beta := -1 |}.
Proof.
  split.
  - left; lra.
  - rewrite calculatePosterior_unfold; simpl; f_equal; lra.
Qed.

(** C2, amended: the posterior computation validates nothing.  On an
    InvalidObservation it still returns the pair
    (alpha0 + successes, beta0 + trials - successes); with
    trials < successes the returned beta lies below the prior's, and with
    negative successes the returned alpha lies below the prior's. *)
Theorem calculatePosterior_no_validation
    (this : BayesianCalculator) (s t : R) (oa ob : option R) :
  InvalidObservation s t ->
  let alpha0 := JS.arg_or (this_alpha this) oa in
  let beta0 := JS.arg_or (this_beta this) ob in
  exists p : BetaParams,
    calculatePosterior this s t oa ob = p /\
    alpha p = alpha0 + s /\
    beta p = beta0 + t - s /\
    (t < s -> beta p < beta0) /\
    (s < 0 -> alpha p < alpha0).
Proof.
  intros _ alpha0 beta0.
  exists (calculatePosterior this s t oa ob).
  rewrite calculatePosterior_unfold; cbn [alpha beta].
  fold alpha0 beta0.
  repeat split; intros; lra.
Qed.

Lemma calculatePosterior_no_validation_witness :
  exists p : BetaParams,
    calculatePosterior (constructor None None) 5 3 None None = p /\
    alpha p = 1 + 5 /\ beta p = 1 + 3 - 5 /\
    (3 < 5 -> beta p < 1) /\ (5 < 0 -> alpha p < 1).
Proof.
  apply (calculatePosterior_no_validation (constructor None None) 5 3
           None None).
  left; lra.
Defined.

(** C3: on a valid observation and a positive prior, whether the prior is
    the calculator's own or passed as arguments, [calculatePosterior]
    returns exactly (alpha0 + successes, beta0 + trials - successes), and
    both returned parameters are positive. *)
Theorem calculatePosterior_conjugate_update
    (this : BayesianCalculator) (s t : R) (oa ob : option R) :
  0 <= s -> s <= t ->
  0 < JS.arg_or (this_alpha this) oa ->
  0 < JS.arg_or (this_beta this) ob ->
  let alpha0 := JS.arg_or (this_alpha this) oa in
  let beta0 := JS.arg_or (this_beta this) ob in
  calculatePosterior this s t oa ob =
    {| alpha := alpha0 + s; beta := beta0 + t - s |} /\
  0 < alpha (calculatePosterior this s t oa ob) /\
  0 < beta (calculatePosterior this s t oa ob).
Proof.
  intros Hs Hst Ha Hb alpha0 beta0.
  rewrite calculatePosterior_unfold; cbn [alpha beta].
  fold alpha0 beta0 in Ha, Hb |- *.
  repeat split; try lra.
  f_equal; lra.
Qed.

(** The two scenarios of the specification, prior (1,1): the observation
    (150, 1000) gives (151, 851), and (180, 1000) gives (181, 821). *)
Lemma calculatePosterior_conjugate_update_witness :
  calculatePosterior (constructor None None) 150 1000 None None =
    {| alpha := 151; beta := 851 |} /\
  calculatePosterior (constructor None None) 180 1000 None None =
    {| alpha := 181; beta := 821 |}.
Proof.
  split.
  - destruct (calculatePosterior_conjugate_update
                (constructor None None) 150 1000 None None) as [E _];
      [lra | lra | simpl; lra | simpl; lra | ].
    rewrite E; simpl; f_equal; lra.
  - destruct (calculatePosterior_conjugate_update
                (constructor None None) 180 1000 None None) as [E _];
      [lra | lra | simpl; lra | simpl; lra | ].
    rewrite E; simpl; f_equal; lra.
Defined.

(** ** Special-function layer *)

(** C9: for positive shapes, [betaPDF] is 0 at every [x] outside the open
    interval (0,1), the end points included, and [betaCDF] is 0 at every
    [x <= 0] and 1 at every [x >= 1]. *)
Theorem beta_boundary_values (x a b : R) :
  0 < a -> 0 < b ->
  x <= 0 \/ x >= 1 ->
  betaPDF x a b = 0 /\
  (x <= 0 -> betaCDF x a b = 0) /\
  (x >= 1 -> betaCDF x a b = 1).
Proof.
  intros _ _ Hx.
  unfold betaPDF, betaCDF.
  destruct (Rle_dec x 0) as [H0 | H0].
  - repeat split; auto; intros; lra.
  - destruct (Rge_dec x 1) as [H1 | H1].
    + repeat split; auto; intros; lra.
    + exfalso; destruct Hx; lra.
Qed.

Lemma beta_boundary_values_witness :
  (betaPDF 0 2 3 = 0 /\ betaCDF 0 2 3 = 0) /\
  (betaPDF 1 2 3 = 0 /\ betaCDF 1 2 3 = 1).
Proof.
  split.
  - destruct (beta_boundary_values 0 2 3) as (P & C0 & _);
      [lra | lra | left; lra | ].
    split; [exact P | apply C0; lra].
  - destruct (beta_boundary_values 1 2 3) as (P & _ & C1);
      [lra | lra | right; lra | ].
    split; [exact P | apply C1; lra].
Defined.

(** ** Interval layer *)

Lemma bernstein5_pos (c0 c1 c2 c3 c4 c5 h r : R) :
  0 < c0 -> 0 <= c1 -> 0 <= c2 -> 0 <= c3 -> 0 <= c4 -> 0 <= c5 ->
  0 <= r < h ->
  0 < bernstein5 c0 c1 c2 c3 c4 c5 h r.
Proof.
  intros H0 H1 H2 H3 H4 H5 [Hr Hh].
  assert (Hd : 0 < h - r) by lra.
  assert (T : forall c i j, 0 <= c -> 0 <= c * (r ^ i * (h - r) ^ j)).
  { intros c i j Hc.
    apply Rmult_le_pos; [exact Hc |].
    apply Rmult_le_pos; apply pow_le; lra. }
  assert (T0 : 0 < c0 * (r ^ 0 * (h - r) ^ 5)).
  { apply Rmult_lt_0_compat; [exact H0 |].
    rewrite pow_O, Rmult_1_l. apply pow_lt; exact Hd. }
  unfold bernstein5.
  pose proof (T c1 1%nat 4%nat H1).
  pose proof (T c2 2%nat 3%nat H2).
  pose proof (T c3 3%nat 2%nat H3).
  pose proof (T c4 4%nat 1%nat H4).
  pose proof (T c5 5%nat 0%nat H5).
  lra.
Qed.

Lemma central_num_bernstein (r : R) :
  InvNorm.central_num r =
  bernstein5
    (7833213367060121875 / 1858797733522432)
    (17470722203501493675 / 1858797733522432)
    (1714077890250021229 / 232349716690304)
    (28995723468334797038531 / 11617485834515200000)
    (1049381296463819737171761 / 2904371458628800000000)
    (820658745049279637224703683 / 45380804041075000000000000)
    0.2264 r.
Proof.
  unfold InvNorm.central_num, InvNorm.a, bernstein5; cbn [nth].
  decimals; field.
Qed.

Lemma central_den_bernstein (r : R) :
  InvNorm.central_den r =
  bernstein5
    (3051757812500000 / 1815232161643)
    (1557229450333338275 / 464699433380608)
    (54572146761057271377 / 23234971669030400)
    (4148418824624764968779 / 5808742917257600000)
    (1367203919106065536599689 / 14521857293144000000000)
    (395603922831896700882344721 / 90761608082150000000000000)
    0.2264 r.
Proof.
  unfold InvNorm.central_den, InvNorm.b, bernstein5; cbn [nth].
  decimals; field.
Qed.

Lemma central_num_pos (r : R) :
  0 <= r < 0.2264 -> 0 < InvNorm.central_num r.
Proof.
  intros Hr. rewrite central_num_bernstein.
  apply bernstein5_pos; try exact Hr; lra.
Qed.

Lemma central_den_pos (r : R) :
  0 <= r < 0.2264 -> 0 < InvNorm.central_den r.
Proof.
  intros Hr. rewrite central_den_bernstein.
  apply bernstein5_pos; try exact Hr; lra.
Qed.

Lemma tail_num_neg (q : R) : 1.5 <= q -> InvNorm.tail_num q < 0.
Proof.
  intros Hq.
  unfold InvNorm.tail_num, InvNorm.c; cbn [nth].
  set (h1 := -7.784894002430293e-3 * q + -3.223964580411365e-1).
  assert (B1 : h1 <= -0.33) by (unfold h1; lra).
  set (h2 := h1 * q + -2.400758277161838).
  assert (B2 : h2 <= -2.89) by (unfold h2; nra).
  set (h3 := h2 * q + -2.549732539343734).
  assert (B3 : h3 <= -6.88) by (unfold h3; nra).
  set (h4 := h3 * q + 4.374664141464968).
  assert (B4 : h4 <= -5.94) by (unfold h4; nra).
  nra.
Qed.

Lemma tail_den_pos (q : R) : 0 <= q -> 0 < InvNorm.tail_den q.
Proof.
  intros Hq.
  unfold InvNorm.tail_den, InvNorm.d; cbn [nth].
  set (h1 := 7.784695709041462e-3 * q + 3.224671290700398e-1).
  assert (B1 : 0 <= h1) by (unfold h1; nra).
  set (h2 := h1 * q + 2.445134137142996).
  assert (B2 : 0 <= h2) by (unfold h2; nra).
  set (h3 := h2 * q + 3.754408661907416).
  assert (B3 : 0 <= h3) by (unfold h3; nra).
  nra.
Qed.

(** In the upper tail, the argument [q] of the rational function is at
    least 1.5. *)
Lemma upper_tail_argument (p : R) :
  InvNorm.p_high < p < 1 ->
  1.5 <= Math.sqrt (-2 * Math.log (1 - p)).
Proof.
  unfold InvNorm.p_high, InvNorm.p_low, Math.sqrt, Math.log.
  intros [Hlo Hhi].
  assert (E2 : exp 2 <= 9).
  { replace 2 with (1 + 1) by lra. rewrite exp_plus.
    pose proof exp_le_3. pose proof (exp_pos 1). nra. }
  assert (L : ln (1 - p) < Ropp 2).
  { rewrite <- (ln_exp (Ropp 2)).
    apply ln_increasing; [lra |].
    rewrite exp_Ropp.
    pose proof (exp_pos 2) as P2.
    assert (/ 9 <= / exp 2) by (apply Rinv_le_contravar; lra).
    lra. }
  replace 1.5 with (sqrt (1.5 * 1.5)) by (apply sqrt_square; lra).
  apply sqrt_le_1_alt. lra.
Qed.

(** The quantile returned for a probability above one half is not
    negative. *)
Lemma inverseNormalCDF_upper_half (p : R) :
  0.5 < p < 1 -> 0 <= inverseNormalCDF p.
Proof.
  intros [Hlo Hhi].
  unfold inverseNormalCDF.
  destruct (Rlt_dec p InvNorm.p_low) as [Hl | _].
  { unfold InvNorm.p_low in Hl; lra. }
  destruct (Rle_dec p InvNorm.p_high) as [Hc | Ht].
  - unfold InvNorm.p_high, InvNorm.p_low in Hc.
    set (q := p - 0.5).
    assert (Hq : 0 < q <= 0.47575) by (unfold q; lra).
    assert (Hr : 0 <= q * q < 0.2264) by nra.
    pose proof (central_num_pos _ Hr) as HN.
    pose proof (central_den_pos _ Hr) as HD.
    apply Rmult_le_pos.
    + apply Rmult_le_pos; lra.
    + left; apply Rinv_0_lt_compat; exact HD.
  - assert (Hp : InvNorm.p_high < p < 1) by lra.
    pose proof (upper_tail_argument p Hp) as Hq.
    set (q := Math.sqrt (-2 * Math.log (1 - p))) in *.
    pose proof (tail_num_neg q Hq) as HN.
    assert (HD : 0 < InvNorm.tail_den q) by (apply tail_den_pos; lra).
    apply Rmult_le_pos.
    + lra.
    + left; apply Rinv_0_lt_compat; exact HD.
Qed.

(** C6: for positive shapes and a confidence [c] in (0,1), the interval
    returned is exactly [max(0, mean - z sd), min(1, mean + z sd)], with
    [mean] the posterior mean, [sd] the square root of the posterior
    variance and [z = inverseNormalCDF(1 - (1 - c)/2)]; and the interval
    contains the mean. *)
Theorem calculateCredibleInterval_normal_approximation
    (posterior : BetaParams) (c : R) :
  0 < alpha posterior -> 0 < beta posterior -> 0 < c < 1 ->
  let mean := calculateExpectedValue posterior in
  let sd := Math.sqrt (calculateVariance posterior) in
  let z := inverseNormalCDF (1 - (1 - c) / 2) in
  let ci := calculateCredibleInterval posterior (Some c) in
  ci = {| lower := Math.max 0 (mean - z * sd);
          upper := Math.min 1 (mean + z * sd) |} /\
  mean = alpha posterior / (alpha posterior + beta posterior) /\
  calculateVariance posterior =
    alpha posterior * beta posterior /
    ((alpha posterior + beta posterior) ^ 2 *
     (alpha posterior + beta posterior + 1)) /\
  lower ci <= mean <= upper ci.
Proof.
  intros Ha Hb Hc mean sd z ci.
  destruct posterior as [a b]; cbn [alpha beta] in *.
  assert (Eci : ci = {| lower := Math.max 0 (mean - z * sd);
                        upper := Math.min 1 (mean + z * sd) |})
    by reflexivity.
  split; [exact Eci |].
  split; [reflexivity |].
  split; [reflexivity |].
  rewrite Eci; cbn [lower upper].
  assert (Hz : 0 <= z) by (apply inverseNormalCDF_upper_half; lra).
  assert (Hsd : 0 <= sd) by apply sqrt_pos.
  assert (Hm : 0 <= z * sd) by (apply Rmult_le_pos; assumption).
  assert (Hmean : 0 < mean < 1).
  { unfold mean, calculateExpectedValue.
    assert (0 < a + b) by lra.
    split.
    - apply Rdiv_lt_0_compat; lra.
    - apply Rmult_lt_reg_r with (a + b); [lra |].
      unfold Rdiv; rewrite Rmult_assoc, Rinv_l; lra. }
  unfold Math.max, Math.min.
  split.
  - apply Rmax_lub; lra.
  - apply Rmin_glb; lra.
Qed.

Lemma calculateCredibleInterval_normal_approximation_witness :
  let posterior := {| alpha := 151; beta := 851 |} in
  let ci := calculateCredibleInterval posterior (Some 0.95) in
  lower ci <= calculateExpectedValue posterior <= upper ci.
Proof.
  intros posterior ci.
  apply (calculateCredibleInterval_normal_approximation posterior 0.95);
    simpl; lra.
Defined.

(** ** Sampling layer *)

Lemma bind_unfold {A B : Type} (m : M A) (f : A -> M B) (k : nat) :
  bind m f k = match m k with Some (a, k') => f a k' | None => None end.
Proof. reflexivity. Qed.

Lemma while_true_S {A : Type} (fuel : nat) (body : M (option A)) (k : nat) :
  while_true (S fuel) body k =
  match body k with
  | Some (Some v, k') => Some (v, k')
  | Some (None, k') => while_true fuel body k'
  | None => None
  end.
Proof.
  cbn [while_true]; rewrite bind_unfold.
  destruct (body k) as [[[v |] k'] |]; reflexivity.
Qed.

Lemma rejection_body_draws (rng : nat -> R) (alpha beta : R) (k : nat) :
  exists r, rejection_body rng alpha beta k = Some (r, S (S k)).
Proof.
  unfold rejection_body, Math_random, bind, ret.
  destruct (Rle_dec _ 1); eexists; reflexivity.
Qed.

Lemma cheng_body_draws (rng : nat -> R) (alpha a b gamma : R)
    (lambda : JS.number) (k : nat) :
  exists r, cheng_body rng alpha a b gamma lambda k = Some (r, S (S k)).
Proof.
  unfold cheng_body, Math_random, bind, ret.
  destruct lambda as [l | | |]; try (eexists; reflexivity).
  destruct (Rlt_dec 0 l); [| eexists; reflexivity].
  cbv zeta. destruct (Rge_dec _ _); eexists; reflexivity.
Qed.

Lemma sampleBeta_body_attempt (rng : nat -> R) (alpha beta : R) (k : nat) :
  sampleBeta_body rng alpha beta k = Some (attempt rng alpha beta k, S (S k)).
Proof.
  unfold attempt.
  assert (H : exists r, sampleBeta_body rng alpha beta k = Some (r, S (S k))).
  { unfold sampleBeta_body.
    destruct (Rle_dec alpha 1); [destruct (Rle_dec beta 1) |];
      auto using rejection_body_draws, cheng_body_draws. }
  destruct H as [r H]; rewrite H; reflexivity.
Qed.

(** The loop of [while_true] over a body that draws two numbers per
    iteration and decides by [att]. *)
Lemma while_true_first {A : Type} (body : M (option A))
    (att : nat -> option A) :
  (forall k, body k = Some (att k, S (S k))) ->
  forall (j : nat) (v : A) (fuel k : nat),
    (forall i, (i < j)%nat -> att (k + 2 * i)%nat = None) ->
    att (k + 2 * j)%nat = Some v ->
    (j < fuel)%nat ->
    while_true fuel body k = Some (v, (k + 2 * j + 2)%nat).
Proof.
  intros Hbody j; induction j as [| j IH]; intros v fuel k Hrej Hacc Hfuel.
  - destruct fuel as [| fuel]; [lia |].
    rewrite while_true_S, Hbody.
    replace (k + 2 * 0)%nat with k in Hacc by lia.
    rewrite Hacc. f_equal; f_equal; lia.
  - destruct fuel as [| fuel]; [lia |].
    rewrite while_true_S, Hbody.
    assert (H0 : att k = None).
    { specialize (Hrej 0%nat). replace (k + 2 * 0)%nat with k in Hrej by lia.
      apply Hrej; lia. }
    rewrite H0.
    rewrite (IH v fuel (S (S k))).
    + f_equal; f_equal; lia.
    + intros i Hi. replace (S (S k) + 2 * i)%nat with (k + 2 * S i)%nat by lia.
      apply Hrej; lia.
    + replace (S (S k) + 2 * j)%nat with (k + 2 * S j)%nat by lia.
      exact Hacc.
    + lia.
Qed.

Lemma while_true_never {A : Type} (body : M (option A))
    (att : nat -> option A) :
  (forall k, body k = Some (att k, S (S k))) ->
  forall (fuel k : nat),
    (forall i, att (k + 2 * i)%nat = None) ->
    while_true fuel body k = None.
Proof.
  intros Hbody fuel; induction fuel as [| fuel IH]; intros k Hrej.
  - reflexivity.
  - rewrite while_true_S, Hbody.
    assert (H0 : att k = None).
    { specialize (Hrej 0%nat). replace (k + 2 * 0)%nat with k in Hrej by lia.
      exact Hrej. }
    rewrite H0. apply IH.
    intros i. replace (S (S k) + 2 * i)%nat with (k + 2 * S i)%nat by lia.
    apply Hrej.
Qed.

Lemma while_true_returns {A : Type} (body : M (option A))
    (att : nat -> option A) :
  (forall k, body k = Some (att k, S (S k))) ->
  forall (fuel k : nat) (v : A) (k' : nat),
    while_true fuel body k = Some (v, k') ->
    exists j, (j < fuel)%nat /\
      (forall i, (i < j)%nat -> att (k + 2 * i)%nat = None) /\
      att (k + 2 * j)%nat = Some v /\
      k' = (k + 2 * j + 2)%nat.
Proof.
  intros Hbody fuel; induction fuel as [| fuel IH]; intros k v k' Hrun.
  - discriminate.
  - rewrite while_true_S, Hbody in Hrun.
    destruct (att k) as [v0 |] eqn:Hk.
    + inversion Hrun; subst. exists 0%nat.
      replace (k + 2 * 0)%nat with k by lia.
      repeat split; [lia | intros; lia | exact Hk | lia].
    + destruct (IH _ _ _ Hrun) as (j & Hj & Hrej & Hacc & Hk').
      exists (S j).
      replace (k + 2 * S j)%nat with (S (S k) + 2 * j)%nat by lia.
      repeat split; [lia | | exact Hacc | lia].
      intros i Hi. destruct i as [| i].
      * replace (k + 2 * 0)%nat with k by lia. exact Hk.
      * replace (k + 2 * S i)%nat with (S (S k) + 2 * i)%nat by lia.
        apply Hrej; lia.
Qed.

(** [sampleBeta] is the loop over its body. *)
Lemma sampleBeta_loop (rng : nat -> R) (fuel : nat) (alpha beta : R) :
  sampleBeta rng fuel alpha beta =
  while_true fuel (sampleBeta_body rng alpha beta).
Proof.
  unfold sampleBeta, sampleBeta_body, sampleBetaRejection, sampleBetaCheng.
  destruct (Rle_dec alpha 1); [destruct (Rle_dec beta 1) |]; reflexivity.
Qed.

(** The call returns at the first accepted pair of draws. *)
Lemma sampleBeta_first (rng : nat -> R) (fuel : nat) (alpha beta : R)
    (k j : nat) (v : R) :
  (forall i, (i < j)%nat -> attempt rng alpha beta (k + 2 * i) = None) ->
  attempt rng alpha beta (k + 2 * j) = Some v ->
  (j < fuel)%nat ->
  sampleBeta rng fuel alpha beta k = Some (v, (k + 2 * j + 2)%nat).
Proof.
  intros Hrej Hacc Hfuel.
  rewrite sampleBeta_loop.
  apply (while_true_first _ _ (sampleBeta_body_attempt rng alpha beta)
           j v fuel k Hrej Hacc Hfuel).
Qed.

(** The case used most: the first pair is accepted. *)
Lemma sampleBeta_accept (rng : nat -> R) (fuel : nat) (alpha beta : R)
    (k : nat) (v : R) :
  attempt rng alpha beta k = Some v ->
  sampleBeta rng (S fuel) alpha beta k = Some (v, S (S k)).
Proof.
  intros Hacc.
  rewrite (sampleBeta_first rng (S fuel) alpha beta k 0 v).
  - f_equal; f_equal; lia.
  - intros i Hi; lia.
  - replace (k + 2 * 0)%nat with k by lia; exact Hacc.
  - lia.
Qed.

Lemma while_true_short {A : Type} (body : M (option A))
    (att : nat -> option A) :
  (forall k, body k = Some (att k, S (S k))) ->
  forall (fuel k : nat),
    (forall i, (i < fuel)%nat -> att (k + 2 * i)%nat = None) ->
    while_true fuel body k = None.
Proof.
  intros Hbody fuel; induction fuel as [| fuel IH]; intros k Hrej.
  - reflexivity.
  - rewrite while_true_S, Hbody.
    assert (H0 : att k = None).
    { specialize (Hrej 0%nat). replace (k + 2 * 0)%nat with k in Hrej by lia.
      apply Hrej; lia. }
    rewrite H0. apply IH.
    intros i Hi. replace (S (S k) + 2 * i)%nat with (k + 2 * S i)%nat by lia.
    apply Hrej; lia.
Qed.

Lemma attempt_rejection (rng : nat -> R) (alpha beta : R) (k : nat) :
  alpha <= 1 -> beta <= 1 ->
  attempt rng alpha beta k =
  let x := Math.pow (rng k) (1 / alpha) in
  let y := Math.pow (rng (S k)) (1 / beta) in
  if Rle_dec (x + y) 1 then Some (x / (x + y)) else None.
Proof.
  intros Ha Hb.
  unfold attempt, sampleBeta_body, rejection_body, Math_random, bind, ret.
  destruct (Rle_dec alpha 1) as [_ | N]; [| contradiction].
  destruct (Rle_dec beta 1) as [_ | N]; [| contradiction].
  cbv zeta. destruct (Rle_dec _ 1); reflexivity.
Qed.

(** Where [lambda] is a positive number, the iteration of Cheng's sampler
    computes with real numbers. *)
Lemma attempt_cheng (rng : nat -> R) (alpha beta : R) (k : nat) :
  ~ (alpha <= 1 /\ beta <= 1) ->
  cheng_regular alpha beta ->
  attempt rng alpha beta k =
  let u1 := rng k in
  let u2 := rng (S k) in
  let a := Math.min alpha beta in
  let b := Math.max alpha beta in
  let gamma := a + b in
  let lambda := Math.sqrt ((gamma - 2) / (2 * a * b - gamma)) in
  let mu := a + 1 / lambda in
  let v := lambda * Math.log (u1 / (1 - u1)) in
  let w := a * Math.exp v in
  if Rge_dec (gamma * Math.log (gamma / (b + w)) + mu * v - 1.3862944)
             (Math.log (u1 * u1 * u2))
  then Some (if Req_dec_T alpha a then w / (b + w) else b / (b + w))
  else None.
Proof.
  intros H [Hden Hq]. cbv zeta in Hden, Hq.
  assert (E : sampleBeta_body rng alpha beta =
              cheng_body rng alpha (Math.min alpha beta)
                (Math.max alpha beta)
                (Math.min alpha beta + Math.max alpha beta)
                (JS.Fin (Math.sqrt
                           ((Math.min alpha beta + Math.max alpha beta - 2) /
                            (2 * Math.min alpha beta * Math.max alpha beta -
                             (Math.min alpha beta + Math.max alpha beta)))))).
  { unfold sampleBeta_body. cbv zeta. unfold JS.div.
    destruct (Req_dec_T _ 0) as [E0 | _]; [contradiction |].
    unfold JS.sqrt. destruct (Rlt_dec _ 0) as [N | _]; [lra |].
    destruct (Rle_dec alpha 1) as [Ha | Ha]; [| reflexivity].
    destruct (Rle_dec beta 1) as [Hb | Hb]; [tauto | reflexivity]. }
  unfold attempt. rewrite E.
  unfold cheng_body, Math_random, bind, ret. cbv zeta.
  destruct (Rlt_dec 0 _) as [_ | N].
  - destruct (Rge_dec _ _); reflexivity.
  - exfalso. apply N. unfold Math.sqrt. apply sqrt_lt_R0. exact Hq.
Qed.

(** Where it is not, no pair of draws is accepted. *)
Lemma attempt_cheng_irregular (rng : nat -> R) (alpha beta : R) (k : nat) :
  ~ (alpha <= 1 /\ beta <= 1) ->
  ~ cheng_regular alpha beta ->
  attempt rng alpha beta k = None.
Proof.
  intros H Hirr. unfold cheng_regular in Hirr. cbv zeta in Hirr.
  assert (E : exists lambda,
            sampleBeta_body rng alpha beta =
              cheng_body rng alpha (Math.min alpha beta)
                (Math.max alpha beta)
                (Math.min alpha beta + Math.max alpha beta) lambda /\
            match lambda with
            | JS.Fin l => l <= 0
            | _ => True
            end).
  { set (den := 2 * Math.min alpha beta * Math.max alpha beta -
                (Math.min alpha beta + Math.max alpha beta)) in *.
    set (num := Math.min alpha beta + Math.max alpha beta - 2) in *.
    exists (JS.sqrt (JS.div num den)). split.
    - unfold sampleBeta_body. cbv zeta.
      destruct (Rle_dec alpha 1) as [Ha | Ha]; [| reflexivity].
      destruct (Rle_dec beta 1) as [Hb | Hb]; [tauto | reflexivity].
    - unfold JS.div.
      destruct (Req_dec_T den 0) as [E0 | N0].
      + destruct (Req_dec_T num 0); [exact I |].
        destruct (Rlt_dec 0 num); exact I.
      + unfold JS.sqrt. destruct (Rlt_dec (num / den) 0) as [Hn | Hn];
          [exact I |].
        assert (E0 : num / den = 0).
        { destruct (Rtotal_order (num / den) 0) as [L | [E0 | G]];
            [lra | exact E0 | exfalso; apply Hirr; split; assumption]. }
        rewrite E0, sqrt_0. lra. }
  destruct E as (lambda & E & Hl).
  unfold attempt. rewrite E.
  unfold cheng_body, Math_random, bind, ret.
  destruct lambda as [l | | |]; try reflexivity.
  destruct (Rlt_dec 0 l); [lra | reflexivity].
Qed.

Lemma cheng_regular_dec (alpha beta : R) :
  cheng_regular alpha beta \/ ~ cheng_regular alpha beta.
Proof.
  unfold cheng_regular. cbv zeta.
  destruct (Req_dec_T
              (2 * Math.min alpha beta * Math.max alpha beta -
               (Math.min alpha beta + Math.max alpha beta)) 0) as [E | N];
    [right; tauto |].
  destruct (Rlt_dec 0
              ((Math.min alpha beta + Math.max alpha beta - 2) /
               (2 * Math.min alpha beta * Math.max alpha beta -
                (Math.min alpha beta + Math.max alpha beta)))) as [L | L];
    [left; split; assumption | right; tauto].
Qed.

(** The shapes (2,2) and (3,1) of the runs evaluated below. *)
Lemma cheng_regular_2_2 : cheng_regular 2 2.
Proof.
  unfold cheng_regular, Math.min, Math.max. cbv zeta.
  rewrite Rmin_left, Rmax_left by lra. split; [lra |].
  replace ((2 + 2 - 2) / (2 * 2 * 2 - (2 + 2))) with (1 / 2) by field. lra.
Qed.

Lemma cheng_regular_3_1 : cheng_regular 3 1.
Proof.
  unfold cheng_regular, Math.min, Math.max. cbv zeta.
  rewrite Rmin_right, Rmax_left by lra. split; [lra |].
  replace ((1 + 3 - 2) / (2 * 1 * 3 - (1 + 3))) with 1 by field. lra.
Qed.

(** Under the uniform shapes (1,1) the rejection sampler accepts a pair of
    positive draws exactly when their sum is at most 1. *)
Lemma attempt_uniform (rng : nat -> R) (k : nat) :
  0 < rng k -> 0 < rng (S k) ->
  attempt rng 1 1 k =
  if Rle_dec (rng k + rng (S k)) 1
  then Some (rng k / (rng k + rng (S k))) else None.
Proof.
  intros H1 H2.
  rewrite attempt_rejection by lra. cbv zeta.
  assert (P : forall u, 0 < u -> Math.pow u (1 / 1) = u).
  { intros u Hu. unfold Math.pow.
    destruct (Req_dec_T u 0) as [E | _]; [lra |].
    replace (1 / 1) with 1 by lra. apply Rpower_1; exact Hu. }
  rewrite (P _ H1), (P _ H2). reflexivity.
Qed.

(** [exp n <= 3 ^ n], and the bound on logarithms it gives. *)
Lemma exp_INR_le (n : nat) : exp (INR n) <= 3 ^ n.
Proof.
  induction n as [| n IH].
  - simpl. rewrite exp_0. lra.
  - rewrite S_INR, exp_plus. cbn [pow].
    pose proof exp_le_3. pose proof (exp_pos 1). pose proof (exp_pos (INR n)).
    nra.
Qed.

Lemma ln_le_opp_INR (n : nat) (u : R) :
  0 < u -> u * 3 ^ n <= 1 -> ln u <= - INR n.
Proof.
  intros Hu Hle.
  pose proof (exp_INR_le n) as He.
  pose proof (exp_pos (INR n)) as Hp.
  assert (Hu' : u <= exp (- INR n)).
  { rewrite exp_Ropp.
    apply Rmult_le_reg_r with (exp (INR n)); [exact Hp |].
    rewrite Rinv_l by lra. nra. }
  destruct (Rle_lt_dec (ln u) (- INR n)) as [H | H]; [exact H |].
  exfalso.
  apply exp_increasing in H. rewrite exp_ln in H by exact Hu. lra.
Qed.

(** Cheng's sampler at [u1 = 1/2]: it has [v = 0] and [w = a], accepts every
    [u2] up to 4/9, and returns the mean [alpha / (alpha + beta)]. *)
Lemma attempt_cheng_half (rng : nat -> R) (alpha beta : R) (k : nat) :
  0 < alpha -> 0 < beta -> ~ (alpha <= 1 /\ beta <= 1) ->
  cheng_regular alpha beta ->
  rng k = 1 / 2 -> 0 < rng (S k) <= 4 / 9 ->
  attempt rng alpha beta k = Some (alpha / (alpha + beta)).
Proof.
  intros Ha Hb Hc Hreg Hu1 Hu2.
  rewrite attempt_cheng by assumption. cbv zeta.
  unfold Math.log, Math.exp, Math.min, Math.max.
  rewrite Hu1.
  set (a := Rmin alpha beta). set (b := Rmax alpha beta).
  assert (Hab : 0 < a /\ 0 < b).
  { unfold a, b. split; [apply Rmin_case | apply Rmax_case]; assumption. }
  replace (1 / 2 / (1 - 1 / 2)) with 1 by field.
  rewrite ln_1, Rmult_0_r, exp_0, Rmult_1_r.
  replace ((a + b) / (b + a)) with 1 by (field; lra).
  rewrite ln_1.
  destruct (Rge_dec _ _) as [_ | N].
  - f_equal.
    destruct (Req_dec_T alpha a) as [E | E].
    + assert (Eb : b = beta).
      { unfold b. apply Rmax_right. rewrite E. apply Rmin_r. }
      rewrite Eb, <- E. field; lra.
    + assert (Hlt : beta < alpha).
      { destruct (Rle_lt_dec alpha beta) as [H | H]; [| exact H].
        exfalso; apply E. unfold a. symmetry; apply Rmin_left; exact H. }
      assert (Ea : a = beta) by (unfold a; apply Rmin_right; lra).
      assert (Eb : b = alpha) by (unfold b; apply Rmax_left; lra).
      rewrite Ea, Eb. reflexivity.
  - exfalso; apply N.
    pose proof (ln_le_opp_INR 2 (1 / 2 * (1 / 2) * rng (S k))) as L.
    simpl in L. lra.
Qed.

(** Cheng's sampler on the shapes (3,1) at [u1 = 9/10]: [lambda = 1],
    [w = 9], the left side of the test is [-1.3862944], and the value
    returned on acceptance is [b / (b + w) = 1/4]. *)
Lemma attempt_cheng_3_1_test (rng : nat -> R) (k : nat) :
  rng k = 9 / 10 ->
  attempt rng 3 1 k =
  if Rge_dec (-1.3862944) (ln (9 / 10 * (9 / 10) * rng (S k)))
  then Some (1 / 4) else None.
Proof.
  intros Hu1.
  rewrite attempt_cheng by (lra || exact cheng_regular_3_1). cbv zeta.
  unfold Math.log, Math.exp, Math.min, Math.max, Math.sqrt.
  rewrite Hu1.
  rewrite (Rmin_right 3 1) by lra.
  rewrite (Rmax_left 3 1) by lra.
  replace ((1 + 3 - 2) / (2 * 1 * 3 - (1 + 3))) with 1 by field.
  rewrite sqrt_1.
  replace (9 / 10 / (1 - 9 / 10)) with 9 by field.
  rewrite Rmult_1_l, Rmult_1_l.
  rewrite exp_ln by lra.
  replace ((1 + 3) / (3 + 9)) with (/ 3) by field.
  rewrite ln_Rinv by lra.
  assert (E9 : ln 9 = ln 3 + ln 3).
  { replace 9 with (3 * 3) by lra. apply ln_mult; lra. }
  rewrite E9.
  replace ((1 + 3) * - ln 3 + (1 + 1 / 1) * (ln 3 + ln 3) - 1.3862944)
    with (-1.3862944) by lra.
  destruct (Rge_dec _ _) as [_ | _]; [| reflexivity].
  f_equal.
  destruct (Req_dec_T 3 1) as [E | _]; [lra |].
  field.
Qed.

Lemma attempt_cheng_3_1 (rng : nat -> R) (k : nat) :
  rng k = 9 / 10 -> 0 < rng (S k) <= 1 / 100 ->
  attempt rng 3 1 k = Some (1 / 4).
Proof.
  intros Hu1 Hu2.
  rewrite attempt_cheng_3_1_test by exact Hu1.
  destruct (Rge_dec _ _) as [_ | N]; [reflexivity |].
  exfalso; apply N.
  assert (L : ln (9 / 10 * (9 / 10) * rng (S k)) <= - INR 2)
    by (apply ln_le_opp_INR; simpl; lra).
  simpl in L. lra.
Qed.

(** The same pair with [u2 = 9/10] is rejected. *)
Lemma attempt_cheng_3_1_rejected (rng : nat -> R) (k : nat) :
  rng k = 9 / 10 -> rng (S k) = 9 / 10 ->
  attempt rng 3 1 k = None.
Proof.
  intros Hu1 Hu2.
  rewrite attempt_cheng_3_1_test by exact Hu1.
  destruct (Rge_dec _ _) as [G | _]; [| reflexivity].
  exfalso. rewrite Hu2 in G.
  assert (E : 1 + 1.3862944 < exp 1.3862944) by (apply exp_ineq1; lra).
  assert (L : ln (exp (Ropp 1.3862944))
              < ln (9 / 10 * (9 / 10) * (9 / 10))).
  { apply ln_increasing; [apply exp_pos |].
    rewrite exp_Ropp.
    apply Rmult_lt_reg_r with (exp 1.3862944); [apply exp_pos |].
    rewrite Rinv_l by (pose proof (exp_pos 1.3862944); lra).
    lra. }
  rewrite ln_exp in L. lra.
Qed.

(** ** Monte Carlo layer *)

Lemma monteCarloSample_loop_S (rng : nat -> R) (fuel : nat)
    (alpha beta : R) (n : nat) (acc : list R) (k : nat) :
  monteCarloSample_loop rng fuel alpha beta (S n) acc k =
  match sampleBeta rng fuel alpha beta k with
  | Some (s, k') => monteCarloSample_loop rng fuel alpha beta n (acc ++ [s]) k'
  | None => None
  end.
Proof. reflexivity. Qed.

(** The array returned holds the values pushed: [n] new ones. *)
Lemma monteCarloSample_loop_length (rng : nat -> R) (fuel : nat)
    (alpha beta : R) (n : nat) :
  forall (acc : list R) (k : nat) (l : list R) (k' : nat),
    monteCarloSample_loop rng fuel alpha beta n acc k = Some (l, k') ->
    length l = (length acc + n)%nat.
Proof.
  induction n as [| n IH]; intros acc k l k' H.
  - inversion H; subst. lia.
  - rewrite monteCarloSample_loop_S in H.
    destruct (sampleBeta rng fuel alpha beta k) as [[s k1] |];
      [| discriminate].
    apply IH in H. rewrite length_app in H. simpl in H. lia.
Qed.

Lemma monteCarloSample_length (rng : nat -> R) (fuel : nat)
    (this : BayesianCalculator) (posterior : BetaParams) (n : nat)
    (k : nat) (l : list R) (k' : nat) :
  monteCarloSample rng fuel this posterior (Some n) k = Some (l, k') ->
  length l = n.
Proof.
  destruct posterior as [a b]; unfold monteCarloSample; cbn.
  intros H. apply monteCarloSample_loop_length in H. exact H.
Qed.

Lemma count_wins_fold (sA sB : list R) (l : list nat) (c : nat) :
  fold_left
    (fun count i =>
       if Rgt_dec (nth i sB 0) (nth i sA 0) then S count else count) l c =
  (c + length (filter (b_wins sA sB) l))%nat.
Proof.
  revert c; induction l as [| i l IH]; intros c; cbn [fold_left filter].
  - simpl; lia.
  - rewrite IH. unfold b_wins. destruct (Rgt_dec _ _); simpl; lia.
Qed.

Lemma count_wins_spec (sA sB : list R) (n : nat) :
  count_wins sA sB n = length (wins sA sB n).
Proof. unfold count_wins, wins. rewrite count_wins_fold. reflexivity. Qed.

Lemma count_wins_le (sA sB : list R) (n : nat) :
  (count_wins sA sB n <= n)%nat.
Proof.
  rewrite count_wins_spec. unfold wins.
  etransitivity; [apply filter_length_le |].
  rewrite length_seq. lia.
Qed.

Lemma JS_div_pos (x : R) (n : nat) :
  (0 < n)%nat -> JS.div x (INR n) = JS.Fin (x / INR n).
Proof.
  intros Hn. unfold JS.div.
  destruct (Req_dec_T (INR n) 0) as [E | _]; [| reflexivity].
  exfalso. apply (not_0_INR n); [lia | exact E].
Qed.

Lemma JS_div_0_0 : JS.div 0 0 = JS.NaN.
Proof.
  unfold JS.div.
  destruct (Req_dec_T 0 0) as [_ | N]; [reflexivity | contradiction].
Qed.

(** The estimate, once both sample arrays are drawn. *)
Lemma calculateProbability_run (rng : nat -> R) (fuel : nat)
    (this : BayesianCalculator) (pA pB : BetaParams)
    (k k1 k2 : nat) (sA sB : list R) :
  let n := monteCarloSamples this in
  monteCarloSample rng fuel this pA (Some n) k = Some (sA, k1) ->
  monteCarloSample rng fuel this pB (Some n) k1 = Some (sB, k2) ->
  calculateProbabilityBGreaterThanAMonteCarlo rng fuel this pA pB k =
  Some (JS.div (INR (count_wins sA sB n)) (INR n), k2).
Proof.
  intros n HA HB.
  unfold calculateProbabilityBGreaterThanAMonteCarlo.
  rewrite bind_unfold. fold n. rewrite HA.
  rewrite bind_unfold. rewrite HB.
  reflexivity.
Qed.

(** The losses and the estimate, once the four sample arrays are drawn:
    [sA1], [sB1] inside [calculateProbabilityBGreaterThanAMonteCarlo], then
    [sA2], [sB2] by [calculateExpectedLoss] itself. *)
Lemma calculateExpectedLoss_run (rng : nat -> R) (fuel : nat)
    (this : BayesianCalculator) (pA pB : BetaParams)
    (k k1 k2 k3 k4 : nat) (sA1 sB1 sA2 sB2 : list R) :
  let n := monteCarloSamples this in
  monteCarloSample rng fuel this pA (Some n) k = Some (sA1, k1) ->
  monteCarloSample rng fuel this pB (Some n) k1 = Some (sB1, k2) ->
  monteCarloSample rng fuel this pA (Some n) k2 = Some (sA2, k3) ->
  monteCarloSample rng fuel this pB (Some n) k3 = Some (sB2, k4) ->
  calculateExpectedLoss rng fuel this pA pB k =
  Some ({| Loss.lossA := JS.div (sum_loss sA2 sB2 n) (INR n);
           Loss.lossB := JS.div (sum_loss sB2 sA2 n) (INR n);
           Loss.probBGreater :=
             JS.div (INR (count_wins sA1 sB1 n)) (INR n) |}, k4).
Proof.
  intros n H1 H2 H3 H4.
  unfold calculateExpectedLoss.
  rewrite bind_unfold.
  rewrite (calculateProbability_run rng fuel this pA pB k k1 k2 sA1 sB1 H1 H2).
  rewrite bind_unfold. fold n. rewrite H3.
  rewrite bind_unfold. rewrite H4.
  reflexivity.
Qed.

(** The summing loop adds [max(0, ys[i] - xs[i])] over the indices below
    [n]. *)
Lemma sum_loss_fold (xs ys : list R) (l : list nat) (acc : R) :
  fold_left (fun loss i => loss + Math.max 0 (nth i ys 0 - nth i xs 0)) l acc
  = acc + fold_right Rplus 0
            (map (fun i => Rmax 0 (nth i ys 0 - nth i xs 0)) l).
Proof.
  revert acc; induction l as [| i l IH]; intros acc; cbn.
  - lra.
  - rewrite IH. unfold Math.max. lra.
Qed.

Lemma sum_loss_spec (xs ys : list R) (n : nat) :
  sum_loss xs ys n =
  fold_right Rplus 0
    (map (fun i => Rmax 0 (nth i ys 0 - nth i xs 0)) (seq 0 n)).
Proof. unfold sum_loss. rewrite sum_loss_fold. lra. Qed.

Lemma monteCarlo_run_fraction (rng : nat -> R) (fuel : nat)
    (this : BayesianCalculator) (pA pB : BetaParams)
    (k k1 k2 : nat) (sA sB : list R) :
  let n := monteCarloSamples this in
  (0 < n)%nat ->
  monteCarloSample rng fuel this pA (Some n) k = Some (sA, k1) ->
  monteCarloSample rng fuel this pB (Some n) k1 = Some (sB, k2) ->
  calculateProbabilityBGreaterThanAMonteCarlo rng fuel this pA pB k =
    Some (JS.Fin (INR (length (wins sA sB n)) / INR n), k2).
Proof.
  intros n Hn HA HB.
  rewrite (calculateProbability_run rng fuel this pA pB k k1 k2 sA sB HA HB).
  fold n. rewrite count_wins_spec, JS_div_pos by exact Hn. reflexivity.
Qed.

(** C10: for a positive sample count [n], once the two arrays of [n]
    samples are drawn, the estimate returned is [count / n], where [count]
    is the number of indices [i < n] whose B sample is strictly greater
    than the A sample; [count <= n], so the estimate lies in [0,1]. *)
Theorem monteCarlo_estimate_is_fraction (rng : nat -> R) (fuel : nat)
    (this : BayesianCalculator) (pA pB : BetaParams)
    (k k1 k2 : nat) (sA sB : list R) :
  let n := monteCarloSamples this in
  let count := length (wins sA sB n) in
  (0 < n)%nat ->
  monteCarloSample rng fuel this pA (Some n) k = Some (sA, k1) ->
  monteCarloSample rng fuel this pB (Some n) k1 = Some (sB, k2) ->
  calculateProbabilityBGreaterThanAMonteCarlo rng fuel this pA pB k =
    Some (JS.Fin (INR count / INR n), k2) /\
  length sA = n /\ length sB = n /\
  (count <= n)%nat /\
  0 <= INR count / INR n <= 1.
Proof.
  intros n count Hn HA HB.
  assert (Hc : (count <= n)%nat).
  { unfold count. rewrite <- count_wins_spec. apply count_wins_le. }
  assert (Hn' : 0 < INR n) by (apply lt_0_INR; exact Hn).
  split.
  { apply (monteCarlo_run_fraction rng fuel this pA pB k k1 k2 sA sB
             Hn HA HB). }
  split; [exact (monteCarloSample_length _ _ _ _ _ _ _ _ HA) |].
  split; [exact (monteCarloSample_length _ _ _ _ _ _ _ _ HB) |].
  split; [exact Hc |].
  split.
  - apply Rmult_le_pos; [apply pos_INR | left; apply Rinv_0_lt_compat; lra].
  - apply Rmult_le_reg_r with (INR n); [exact Hn' |].
    unfold Rdiv. rewrite Rmult_assoc, Rinv_l by lra.
    rewrite Rmult_1_r, Rmult_1_l. apply le_INR; exact Hc.
Qed.

(** C7, as stated, fails: with the sample count set to 0 the call draws
    nothing, divides 0 by 0 and returns the quotient, NaN, as an ordinary
    result. *)
Lemma monteCarlo_zero_samples_returns_NaN :
  calculateProbabilityBGreaterThanAMonteCarlo (fun _ => 1 / 2) 1
    {| this_alpha := 1; this_beta := 1; monteCarloSamples := 0%nat |}
    {| alpha := 151; beta := 851 |} {| alpha := 181; beta := 821 |} 0%nat =
  Some (JS.div 0 0, 0%nat) /\
  JS.div 0 0 = JS.NaN.
Proof. split; [reflexivity | apply JS_div_0_0]. Qed.

(** C7, amended: with the sample count set to 0, the computation does not
    fail: whatever the posteriors and the random source, it draws no
    number, performs the division of 0 by 0 and returns NaN. *)
Theorem monteCarlo_zero_samples (rng : nat -> R) (fuel : nat)
    (alpha0 beta0 : R) (pA pB : BetaParams) (k : nat) :
  calculateProbabilityBGreaterThanAMonteCarlo rng fuel
    {| this_alpha := alpha0; this_beta := beta0;
       monteCarloSamples := 0%nat |}
    pA pB k =
  Some (JS.NaN, k).
Proof.
  destruct pA as [aA bA], pB as [aB bB].
  rewrite <- JS_div_0_0. reflexivity.
Qed.

(** *** A run of the estimators on the uniform posterior *)

Lemma sampleBeta_uniform_low (rng : nat -> R) (fuel k : nat) :
  rng k = 1 / 10 -> rng (S k) = 4 / 10 ->
  sampleBeta rng (S fuel) 1 1 k = Some (1 / 5, S (S k)).
Proof.
  intros H1 H2. apply sampleBeta_accept.
  rewrite attempt_uniform by lra. rewrite H1, H2.
  destruct (Rle_dec _ 1) as [_ | N]; [f_equal; field | lra].
Qed.

Lemma sampleBeta_uniform_high (rng : nat -> R) (fuel k : nat) :
  rng k = 4 / 10 -> rng (S k) = 1 / 10 ->
  sampleBeta rng (S fuel) 1 1 k = Some (4 / 5, S (S k)).
Proof.
  intros H1 H2. apply sampleBeta_accept.
  rewrite attempt_uniform by lra. rewrite H1, H2.
  destruct (Rle_dec _ 1) as [_ | N]; [f_equal; field | lra].
Qed.

Lemma monteCarloSample_one (rng : nat -> R) (fuel : nat)
    (this : BayesianCalculator) (a b : R) (k k' : nat) (v : R) :
  sampleBeta rng fuel a b k = Some (v, k') ->
  monteCarloSample rng fuel this {| alpha := a; beta := b |} (Some 1%nat) k =
  Some ([v], k').
Proof.
  intros H. unfold monteCarloSample; cbn [JS.arg_or].
  rewrite monteCarloSample_loop_S, H. reflexivity.
Qed.

Lemma count_wins_one (a b : R) :
  count_wins [a] [b] 1 = if Rgt_dec b a then 1%nat else 0%nat.
Proof. unfold count_wins; cbn. destruct (Rgt_dec b a); reflexivity. Qed.

Lemma sum_loss_one (x y : R) : sum_loss [x] [y] 1 = Rmax 0 (y - x).
Proof. unfold sum_loss, Math.max; cbn. lra. Qed.

(** The run: the probability comes from the samples (1/5, 4/5), the losses
    from the samples (4/5, 1/5) drawn after them. *)
Lemma calculateExpectedLoss_uniform_run :
  calculateExpectedLoss rng_loss 1 (uniform_calculator 1)
    uniform_posterior uniform_posterior 0%nat =
  Some ({| Loss.lossA := JS.Fin 0;
           Loss.lossB := JS.Fin (3 / 5);
           Loss.probBGreater := JS.Fin 1 |}, 8%nat).
Proof.
  rewrite (calculateExpectedLoss_run rng_loss 1 (uniform_calculator 1)
             uniform_posterior uniform_posterior 0 2 4 6 8
             [1 / 5] [4 / 5] [4 / 5] [1 / 5]).
  - cbn [uniform_calculator monteCarloSamples].
    rewrite !sum_loss_one, count_wins_one.
    rewrite !JS_div_pos by lia.
    destruct (Rgt_dec (4 / 5) (1 / 5)) as [_ | N]; [| lra].
    rewrite (Rmax_left 0 (1 / 5 - 4 / 5)) by lra.
    rewrite (Rmax_right 0 (4 / 5 - 1 / 5)) by lra.
    simpl INR.
    replace (0 / 1) with 0 by field.
    replace ((4 / 5 - 1 / 5) / 1) with (3 / 5) by field.
    replace (1 / 1) with 1 by field.
    reflexivity.
  - apply monteCarloSample_one, sampleBeta_uniform_low; reflexivity.
  - apply monteCarloSample_one, sampleBeta_uniform_high; reflexivity.
  - apply monteCarloSample_one, sampleBeta_uniform_high; reflexivity.
  - apply monteCarloSample_one, sampleBeta_uniform_low; reflexivity.
Qed.

Lemma JS_Fin_inj (x y : R) : JS.Fin x = JS.Fin y -> x = y.
Proof. intros H; inversion H; reflexivity. Qed.

(** C5, as stated, fails: on this run the result has loss 0 for A and
    probability 1 that B is greater, and no single set of paired samples
    yields both (a zero loss for A puts the B sample at or below the A
    sample, which gives probability 0). *)
Lemma expectedLoss_probability_from_other_samples :
  exists r : Loss.t,
    calculateExpectedLoss rng_loss 1 (uniform_calculator 1)
      uniform_posterior uniform_posterior 0%nat = Some (r, 8%nat) /\
    ~ from_one_sample_set 1 r.
Proof.
  eexists; split; [apply calculateExpectedLoss_uniform_run |].
  intros (sA & sB & HlA & HlB & HA & _ & HP).
  cbn [Loss.lossA Loss.probBGreater] in HA, HP.
  destruct sA as [| a [| ? ?]]; try discriminate.
  destruct sB as [| b [| ? ?]]; try discriminate.
  rewrite sum_loss_one, JS_div_pos in HA by lia.
  rewrite count_wins_one, JS_div_pos in HP by lia.
  apply JS_Fin_inj in HA, HP. simpl INR in HA.
  destruct (Rgt_dec b a) as [Hgt | Hle].
  - assert (Rmax 0 (b - a) = b - a) by (apply Rmax_right; lra). lra.
  - simpl in HP. lra.
Qed.

(** C5, amended: [calculateExpectedLoss] uses two sets of [n] paired
    samples.  The superiority probability is computed first, by
    [calculateProbabilityBGreaterThanAMonteCarlo], from its own set; then
    [lossA], the average of max(0, sampleB - sampleA), and [lossB], the
    average of max(0, sampleA - sampleB), are computed from a second set
    drawn afterwards; the three are returned together. *)
Theorem calculateExpectedLoss_two_sample_sets (rng : nat -> R) (fuel : nat)
    (this : BayesianCalculator) (pA pB : BetaParams)
    (k k1 k2 k3 k4 : nat) (sA1 sB1 sA2 sB2 : list R) :
  let n := monteCarloSamples this in
  let average (xs ys : list R) :=
    fold_right Rplus 0
      (map (fun i => Rmax 0 (nth i ys 0 - nth i xs 0)) (seq 0 n)) / INR n in
  (0 < n)%nat ->
  monteCarloSample rng fuel this pA (Some n) k = Some (sA1, k1) ->
  monteCarloSample rng fuel this pB (Some n) k1 = Some (sB1, k2) ->
  monteCarloSample rng fuel this pA (Some n) k2 = Some (sA2, k3) ->
  monteCarloSample rng fuel this pB (Some n) k3 = Some (sB2, k4) ->
  calculateProbabilityBGreaterThanAMonteCarlo rng fuel this pA pB k =
    Some (JS.Fin (INR (length (wins sA1 sB1 n)) / INR n), k2) /\
  calculateExpectedLoss rng fuel this pA pB k =
    Some ({| Loss.lossA := JS.Fin (average sA2 sB2);
             Loss.lossB := JS.Fin (average sB2 sA2);
             Loss.probBGreater :=
               JS.Fin (INR (length (wins sA1 sB1 n)) / INR n) |}, k4).
Proof.
  intros n average Hn H1 H2 H3 H4.
  split.
  - apply (monteCarlo_run_fraction rng fuel this pA pB k k1 k2 sA1 sB1
             Hn H1 H2).
  - rewrite (calculateExpectedLoss_run rng fuel this pA pB k k1 k2 k3 k4
               sA1 sB1 sA2 sB2 H1 H2 H3 H4).
    fold n. rewrite !JS_div_pos by exact Hn.
    rewrite !sum_loss_spec, count_wins_spec. reflexivity.
Qed.

Lemma monteCarlo_estimate_is_fraction_witness :
  calculateProbabilityBGreaterThanAMonteCarlo rng_loss 1
    (uniform_calculator 1) uniform_posterior uniform_posterior 0%nat =
    Some (JS.Fin (INR (length (wins [1 / 5] [4 / 5] 1)) / INR 1), 4%nat) /\
  0 <= INR (length (wins [1 / 5] [4 / 5] 1)) / INR 1 <= 1.
Proof.
  destruct (monteCarlo_estimate_is_fraction rng_loss 1 (uniform_calculator 1)
              uniform_posterior uniform_posterior 0 2 4 [1 / 5] [4 / 5])
    as (E & _ & _ & _ & B).
  - simpl; lia.
  - apply monteCarloSample_one, sampleBeta_uniform_low; reflexivity.
  - apply monteCarloSample_one, sampleBeta_uniform_high; reflexivity.
  - split; [exact E | exact B].
Defined.

Lemma calculateExpectedLoss_two_sample_sets_witness :
  exists r : Loss.t,
    calculateExpectedLoss rng_loss 1 (uniform_calculator 1)
      uniform_posterior uniform_posterior 0%nat = Some (r, 8%nat) /\
    Loss.probBGreater r =
      JS.Fin (INR (length (wins [1 / 5] [4 / 5] 1)) / INR 1).
Proof.
  destruct (calculateExpectedLoss_two_sample_sets rng_loss 1
              (uniform_calculator 1) uniform_posterior uniform_posterior
              0 2 4 6 8 [1 / 5] [4 / 5] [4 / 5] [1 / 5])
    as [_ E].
  - simpl; lia.
  - apply monteCarloSample_one, sampleBeta_uniform_low; reflexivity.
  - apply monteCarloSample_one, sampleBeta_uniform_high; reflexivity.
  - apply monteCarloSample_one, sampleBeta_uniform_high; reflexivity.
  - apply monteCarloSample_one, sampleBeta_uniform_low; reflexivity.
  - eexists; split; [exact E | reflexivity].
Defined.

(** *** Retries of the sampling loops *)

(** C8, as stated, fails: on the source that keeps returning 9/10 the
    rejection loop at the shapes (1,1) and Cheng's loop at the shapes
    (3,1) reject every pair, and no number of iterations makes
    [sampleBeta] return: the loops have no retry ceiling and signal no
    failure. *)
Lemma sampleBeta_loops_unbounded :
  (~ exists (fuel : nat) (v : R) (k' : nat),
       sampleBeta rng_stuck fuel 1 1 0%nat = Some (v, k')) /\
  (~ exists (fuel : nat) (v : R) (k' : nat),
       sampleBeta rng_stuck fuel 3 1 0%nat = Some (v, k')).
Proof.
  split; intros (fuel & v & k' & H); rewrite sampleBeta_loop in H.
  - rewrite (while_true_never _ _ (sampleBeta_body_attempt rng_stuck 1 1)) in H;
      [discriminate |].
    intros i. rewrite attempt_uniform by (unfold rng_stuck; lra).
    unfold rng_stuck. destruct (Rle_dec _ 1); [lra | reflexivity].
  - rewrite (while_true_never _ _ (sampleBeta_body_attempt rng_stuck 3 1)) in H;
      [discriminate |].
    intros i. apply attempt_cheng_3_1_rejected; reflexivity.
Qed.

(** C8, amended: neither sampling loop has a retry ceiling or signals a
    sampling failure.  [sampleBeta] redraws until a pair is accepted: when
    the first [j] pairs are rejected and the next is accepted it returns
    that pair's value after [j + 1] iterations, however large [j] is, and
    not before; when every pair is rejected it never returns; and a value
    it returns is the value of the first accepted pair. *)
Theorem sampleBeta_retries_until_accepted (rng : nat -> R)
    (alpha beta : R) (k : nat) :
  (forall (j : nat) (v : R),
     (forall i, (i < j)%nat -> attempt rng alpha beta (k + 2 * i) = None) ->
     attempt rng alpha beta (k + 2 * j) = Some v ->
     forall fuel : nat,
       sampleBeta rng fuel alpha beta k =
       if (j <? fuel)%nat then Some (v, (k + 2 * j + 2)%nat) else None) /\
  ((forall i, attempt rng alpha beta (k + 2 * i) = None) ->
   forall fuel : nat, sampleBeta rng fuel alpha beta k = None) /\
  (forall (fuel : nat) (v : R) (k' : nat),
     sampleBeta rng fuel alpha beta k = Some (v, k') ->
     exists j : nat,
       (j < fuel)%nat /\
       (forall i, (i < j)%nat -> attempt rng alpha beta (k + 2 * i) = None) /\
       attempt rng alpha beta (k + 2 * j) = Some v /\
       k' = (k + 2 * j + 2)%nat).
Proof.
  split; [| split].
  - intros j v Hrej Hacc fuel.
    destruct (Nat.ltb_spec j fuel) as [Hlt | Hge].
    + apply sampleBeta_first; assumption.
    + rewrite sampleBeta_loop.
      apply (while_true_short _ _ (sampleBeta_body_attempt rng alpha beta)).
      intros i Hi. apply Hrej; lia.
  - intros Hrej fuel. rewrite sampleBeta_loop.
    apply (while_true_never _ _ (sampleBeta_body_attempt rng alpha beta)).
    exact Hrej.
  - intros fuel v k' Hrun. rewrite sampleBeta_loop in Hrun.
    apply (while_true_returns _ _ (sampleBeta_body_attempt rng alpha beta)
             fuel k v k' Hrun).
Qed.

Lemma sampleBeta_retries_until_accepted_witness :
  sampleBeta rng_retry 1 1 1 0%nat = None /\
  sampleBeta rng_retry 2 1 1 0%nat = Some (1 / 2, 4%nat).
Proof.
  assert (R0 : attempt rng_retry 1 1 0 = None).
  { rewrite attempt_uniform by (unfold rng_retry; simpl; lra).
    unfold rng_retry; simpl. destruct (Rle_dec _ 1); [lra | reflexivity]. }
  assert (A2 : attempt rng_retry 1 1 2 = Some (1 / 2)).
  { rewrite attempt_uniform by (unfold rng_retry; simpl; lra).
    unfold rng_retry; simpl.
    destruct (Rle_dec _ 1); [f_equal; field | lra]. }
  destruct (sampleBeta_retries_until_accepted rng_retry 1 1 0) as [F _].
  assert (Hrej : forall i, (i < 1)%nat ->
                   attempt rng_retry 1 1 (0 + 2 * i) = None).
  { intros i Hi. replace i with 0%nat by lia. exact R0. }
  split.
  - exact (F 1%nat (1 / 2) Hrej A2 1%nat).
  - exact (F 1%nat (1 / 2) Hrej A2 2%nat).
Defined.

(** ** Sequential testing layer *)

Lemma sequentialTest_loop_S (rng : nat -> R) (fuel : nat)
    (this : BayesianCalculator) (dataA dataB : list Observation)
    (threshold : R) (steps i : nat) (results : list Step.t) (k : nat) :
  sequentialTest_loop rng fuel this dataA dataB threshold (S steps) i results k
  =
  let obsA := nth i dataA (mkObservation 0 0) in
  let obsB := nth i dataB (mkObservation 0 0) in
  let pA := calculatePosterior this (successes obsA) (trials obsA) None None in
  let pB := calculatePosterior this (successes obsB) (trials obsB) None None in
  match calculateProbabilityBGreaterThanAMonteCarlo rng fuel this pA pB k with
  | Some (p, k1) =>
      match calculateExpectedLoss rng fuel this pA pB k1 with
      | Some (l, k2) =>
          let results' :=
            results ++ [step_record this dataA dataB threshold i p l] in
          if stop_condition p threshold then Some (results', k2)
          else sequentialTest_loop rng fuel this dataA dataB threshold
                 steps (S i) results' k2
      | None => None
      end
  | None => None
  end.
Proof.
  cbn [sequentialTest_loop]. cbv zeta. rewrite bind_unfold.
  destruct (calculateProbabilityBGreaterThanAMonteCarlo _ _ _ _ _ k)
    as [[p k1] |]; [| reflexivity].
  rewrite bind_unfold.
  destruct (calculateExpectedLoss _ _ _ _ _ k1) as [[l k2] |];
    [| reflexivity].
  unfold step_record, ret.
  destruct (stop_condition p threshold); reflexivity.
Qed.

(** What the loop appends to [results]: at most [steps] records, the one
    at offset [j] built from the observations at index [i + j]; none but
    the last has [shouldStop] set; and the last has it set whenever fewer
    than [steps] records were appended. *)
Lemma sequentialTest_loop_spec (rng : nat -> R) (fuel : nat)
    (this : BayesianCalculator) (dataA dataB : list Observation)
    (threshold : R) (steps : nat) :
  forall (i : nat) (acc : list Step.t) (k : nat)
         (res : list Step.t) (k' : nat),
    sequentialTest_loop rng fuel this dataA dataB threshold steps i acc k
      = Some (res, k') ->
    exists new : list Step.t,
      res = acc ++ new /\
      (length new <= steps)%nat /\
      (forall j r, nth_error new j = Some r ->
         exists p l, r = step_record this dataA dataB threshold (i + j) p l) /\
      (forall j r, nth_error new j = Some r -> (S j < length new)%nat ->
         Step.shouldStop r = false) /\
      ((length new < steps)%nat ->
         exists last, nth_error new (length new - 1) = Some last /\
                      Step.shouldStop last = true).
Proof.
  induction steps as [| steps IH]; intros i acc k res k' Hrun.
  - inversion Hrun; subst. exists []. rewrite app_nil_r.
    repeat split; simpl; try lia; intros [| j] r H; discriminate.
  - rewrite sequentialTest_loop_S in Hrun. cbv zeta in Hrun.
    destruct (calculateProbabilityBGreaterThanAMonteCarlo _ _ _ _ _ k)
      as [[p k1] |]; [| discriminate].
    destruct (calculateExpectedLoss _ _ _ _ _ k1) as [[l k2] |];
      [| discriminate].
    set (rec := step_record this dataA dataB threshold i p l) in *.
    destruct (stop_condition p threshold) eqn:Hstop.
    + inversion Hrun; subst. exists [rec].
      split; [reflexivity |].
      split; [simpl; lia |].
      split.
      { intros [| [| j]] r H; try discriminate.
        inversion H; subst. exists p, l. rewrite Nat.add_0_r. reflexivity. }
      split.
      { intros j r _ Hj. simpl in Hj. lia. }
      intros _. exists rec. split; [reflexivity | exact Hstop].
    + destruct (IH _ _ _ _ _ Hrun) as (new & E & Hlen & Hrec & Hmid & Hlast).
      exists (rec :: new).
      split; [rewrite E, <- app_assoc; reflexivity |].
      split; [simpl; lia |].
      split.
      { intros [| j] r H.
        - inversion H; subst. exists p, l. rewrite Nat.add_0_r. reflexivity.
        - destruct (Hrec j r H) as (p' & l' & Er).
          exists p', l'. rewrite Er. f_equal. lia. }
      split.
      { intros [| j] r H Hj.
        - inversion H; subst. exact Hstop.
        - apply (Hmid j r H). simpl in Hj. lia. }
      intros Hlt. simpl in Hlt.
      destruct Hlast as (last & Hn & Hs); [lia |].
      exists last. split; [| exact Hs].
      destruct new as [| r0 new']; [simpl in Hn; discriminate |].
      simpl in Hn |- *. rewrite Nat.sub_0_r in *. exact Hn.
Qed.

(** *** A run of the sequential test over two steps *)

Lemma monteCarloSample_two (rng : nat -> R) (fuel : nat)
    (this : BayesianCalculator) (a b : R) (k k1 k2 : nat) (v1 v2 : R) :
  sampleBeta rng fuel a b k = Some (v1, k1) ->
  sampleBeta rng fuel a b k1 = Some (v2, k2) ->
  monteCarloSample rng fuel this {| alpha := a; beta := b |} (Some 2%nat) k =
  Some ([v1; v2], k2).
Proof.
  intros H1 H2. unfold monteCarloSample; cbn [JS.arg_or].
  rewrite monteCarloSample_loop_S, H1.
  rewrite monteCarloSample_loop_S, H2. reflexivity.
Qed.

Lemma sampleBeta_2_2_half (rng : nat -> R) (fuel k : nat) :
  rng k = 1 / 2 -> rng (S k) = 1 / 100 ->
  sampleBeta rng (S fuel) 2 2 k = Some (1 / 2, S (S k)).
Proof.
  intros H1 H2. apply sampleBeta_accept.
  rewrite (attempt_cheng_half rng 2 2 k)
    by (exact cheng_regular_2_2 || (try rewrite H2; lra)).
  f_equal; field.
Qed.

Lemma sampleBeta_3_1_half (rng : nat -> R) (fuel k : nat) :
  rng k = 1 / 2 -> rng (S k) = 1 / 100 ->
  sampleBeta rng (S fuel) 3 1 k = Some (3 / 4, S (S k)).
Proof.
  intros H1 H2. apply sampleBeta_accept.
  rewrite (attempt_cheng_half rng 3 1 k)
    by (exact cheng_regular_3_1 || (try rewrite H2; lra)).
  f_equal; field.
Qed.

Lemma sampleBeta_3_1_high (rng : nat -> R) (fuel k : nat) :
  rng k = 9 / 10 -> rng (S k) = 1 / 100 ->
  sampleBeta rng (S fuel) 3 1 k = Some (1 / 4, S (S k)).
Proof.
  intros H1 H2. apply sampleBeta_accept.
  apply attempt_cheng_3_1; [exact H1 | rewrite H2; lra].
Qed.

Lemma count_wins_two (a1 a2 b1 b2 : R) :
  count_wins [a1; a2] [b1; b2] 2 =
  ((if Rgt_dec b1 a1 then 1 else 0) + (if Rgt_dec b2 a2 then 1 else 0))%nat.
Proof.
  unfold count_wins; cbn.
  destruct (Rgt_dec b1 a1), (Rgt_dec b2 a2); reflexivity.
Qed.

Lemma sum_loss_two (x1 x2 y1 y2 : R) :
  sum_loss [x1; x2] [y1; y2] 2 = Rmax 0 (y1 - x1) + Rmax 0 (y2 - x2).
Proof. unfold sum_loss, Math.max; cbn. lra. Qed.

Section Period.

Variable rng : nat -> R.
Variable fuel : nat.

Lemma period_samples (k : nat) :
  period_at rng k ->
  monteCarloSample rng (S fuel) (uniform_calculator 2)
    {| alpha := 2; beta := 2 |} (Some 2%nat) k =
    Some ([1 / 2; 1 / 2], (4 + k)%nat) /\
  monteCarloSample rng (S fuel) (uniform_calculator 2)
    {| alpha := 3; beta := 1 |} (Some 2%nat) (4 + k)%nat =
    Some ([3 / 4; 1 / 4], (8 + k)%nat).
Proof.
  intros (H0 & H1 & H2 & H3 & H4 & H5 & H6 & H7).
  split.
  - apply (monteCarloSample_two rng (S fuel) _ 2 2 k (2 + k) (4 + k)).
    + apply sampleBeta_2_2_half; assumption.
    + apply (sampleBeta_2_2_half rng fuel (2 + k)); assumption.
  - apply (monteCarloSample_two rng (S fuel) _ 3 1 (4 + k) (6 + k) (8 + k)).
    + apply (sampleBeta_3_1_half rng fuel (4 + k)); assumption.
    + apply (sampleBeta_3_1_high rng fuel (6 + k)); assumption.
Qed.

(** One period gives the estimate 1/2: the first B sample, 3/4, is above
    the A sample 1/2, the second, 1/4, is not. *)
Lemma period_probability (k : nat) :
  period_at rng k ->
  calculateProbabilityBGreaterThanAMonteCarlo rng (S fuel)
    (uniform_calculator 2)
    {| alpha := 2; beta := 2 |} {| alpha := 3; beta := 1 |} k =
  Some (JS.Fin (1 / 2), (8 + k)%nat).
Proof.
  intros H. destruct (period_samples k H) as [HA HB].
  rewrite (calculateProbability_run rng (S fuel) (uniform_calculator 2)
             {| alpha := 2; beta := 2 |} {| alpha := 3; beta := 1 |}
             k (4 + k) (8 + k) _ _ HA HB).
  cbn [uniform_calculator monteCarloSamples].
  rewrite count_wins_two.
  destruct (Rgt_dec (3 / 4) (1 / 2)) as [_ | N]; [| lra].
  destruct (Rgt_dec (1 / 4) (1 / 2)) as [N | _]; [lra |].
  rewrite JS_div_pos by lia. simpl INR.
  replace (1 / (1 + 1)) with (1 / 2) by field. reflexivity.
Qed.

(** Two periods give the result of [calculateExpectedLoss]. *)
Lemma period_expectedLoss (k : nat) :
  period_at rng k -> period_at rng (8 + k) ->
  calculateExpectedLoss rng (S fuel) (uniform_calculator 2)
    {| alpha := 2; beta := 2 |} {| alpha := 3; beta := 1 |} k =
  Some ({| Loss.lossA := JS.Fin (1 / 8);
           Loss.lossB := JS.Fin (1 / 8);
           Loss.probBGreater := JS.Fin (1 / 2) |}, (16 + k)%nat).
Proof.
  intros H H'.
  destruct (period_samples k H) as [HA1 HB1].
  destruct (period_samples (8 + k) H') as [HA2 HB2].
  rewrite (calculateExpectedLoss_run rng (S fuel) (uniform_calculator 2)
             {| alpha := 2; beta := 2 |} {| alpha := 3; beta := 1 |}
             k (4 + k) (8 + k) (12 + k) (16 + k) _ _ _ _
             HA1 HB1 HA2 HB2).
  cbn [uniform_calculator monteCarloSamples].
  rewrite count_wins_two, !sum_loss_two.
  destruct (Rgt_dec (3 / 4) (1 / 2)) as [_ | N]; [| lra].
  destruct (Rgt_dec (1 / 4) (1 / 2)) as [N | _]; [lra |].
  rewrite (Rmax_right 0 (3 / 4 - 1 / 2)) by lra.
  rewrite (Rmax_left 0 (1 / 4 - 1 / 2)) by lra.
  rewrite (Rmax_left 0 (1 / 2 - 3 / 4)) by lra.
  rewrite (Rmax_right 0 (1 / 2 - 1 / 4)) by lra.
  rewrite !JS_div_pos by lia. simpl INR.
  replace ((3 / 4 - 1 / 2 + 0) / (1 + 1)) with (1 / 8) by field.
  replace ((0 + (1 / 2 - 1 / 4)) / (1 + 1)) with (1 / 8) by field.
  replace (1 / (1 + 1)) with (1 / 2) by field.
  reflexivity.
Qed.

End Period.

Lemma stop_condition_half : stop_condition (JS.Fin (1 / 2)) 0.95 = false.
Proof.
  unfold stop_condition, JS.ge, JS.le.
  destruct (Rge_dec (1 / 2) 0.95) as [H | _]; [lra |].
  destruct (Rle_dec (1 / 2) (1 - 0.95)) as [H | _]; [lra |].
  reflexivity.
Qed.

Lemma rng_seq_period (m : nat) :
  (m < 6)%nat -> period_at rng_seq (8 * m).
Proof.
  intros Hm.
  do 6 (destruct m as [| m]; [repeat split; reflexivity |]).
  lia.
Qed.

Lemma seq_step_record (i : nat) :
  (i < 2)%nat ->
  step_record (uniform_calculator 2) seq_dataA seq_dataB 0.95 i
    (JS.Fin (1 / 2)) seq_loss = seq_record i.
Proof.
  intros Hi.
  assert (PA : calculatePosterior (uniform_calculator 2) 1 2 None None =
               {| alpha := 2; beta := 2 |})
    by (rewrite calculatePosterior_unfold; cbn; f_equal; lra).
  assert (PB : calculatePosterior (uniform_calculator 2) 2 2 None None =
               {| alpha := 3; beta := 1 |})
    by (rewrite calculatePosterior_unfold; cbn; f_equal; lra).
  unfold step_record, seq_record.
  rewrite stop_condition_half.
  destruct i as [| [| i]]; [| | lia];
    cbn [nth seq_dataA seq_dataB successes trials];
    rewrite PA, PB; reflexivity.
Qed.

Lemma sequentialTest_two_step_run :
  sequentialTest rng_seq 1 (uniform_calculator 2) seq_dataA seq_dataB None
    0%nat =
  Some ([seq_record 0; seq_record 1], 48%nat).
Proof.
  assert (PA : calculatePosterior (uniform_calculator 2) 1 2 None None =
               {| alpha := 2; beta := 2 |})
    by (rewrite calculatePosterior_unfold; cbn; f_equal; lra).
  assert (PB : calculatePosterior (uniform_calculator 2) 2 2 None None =
               {| alpha := 3; beta := 1 |})
    by (rewrite calculatePosterior_unfold; cbn; f_equal; lra).
  unfold sequentialTest.
  cbn [JS.arg_or length seq_dataA seq_dataB Nat.min].
  rewrite sequentialTest_loop_S; cbv zeta.
  cbn [nth seq_dataA seq_dataB successes trials].
  rewrite PA, PB.
  rewrite (period_probability rng_seq 0 0 (rng_seq_period 0 ltac:(lia))).
  cbn [Nat.add].
  rewrite (period_expectedLoss rng_seq 0 8
             (rng_seq_period 1 ltac:(lia)) (rng_seq_period 2 ltac:(lia))).
  fold seq_loss. cbn [Nat.add].
  rewrite stop_condition_half, seq_step_record by lia.
  rewrite sequentialTest_loop_S; cbv zeta.
  cbn [nth seq_dataA seq_dataB successes trials].
  rewrite PA, PB.
  rewrite (period_probability rng_seq 0 24 (rng_seq_period 3 ltac:(lia))).
  cbn [Nat.add].
  rewrite (period_expectedLoss rng_seq 0 32
             (rng_seq_period 4 ltac:(lia)) (rng_seq_period 5 ltac:(lia))).
  fold seq_loss. cbn [Nat.add].
  rewrite stop_condition_half, seq_step_record by lia.
  reflexivity.
Qed.

(** The same lists with the threshold 0.5: the estimate 1/2 of the first
    step reaches it, and the run ends with the first record. *)
Lemma sequentialTest_stopping_run :
  sequentialTest rng_seq 1 (uniform_calculator 2) seq_dataA seq_dataB
    (Some 0.5) 0%nat =
  Some ([seq_record_stop], 24%nat).
Proof.
  assert (PA : calculatePosterior (uniform_calculator 2) 1 2 None None =
               {| alpha := 2; beta := 2 |})
    by (rewrite calculatePosterior_unfold; cbn; f_equal; lra).
  assert (PB : calculatePosterior (uniform_calculator 2) 2 2 None None =
               {| alpha := 3; beta := 1 |})
    by (rewrite calculatePosterior_unfold; cbn; f_equal; lra).
  assert (Hstop : stop_condition (JS.Fin (1 / 2)) 0.5 = true).
  { unfold stop_condition, JS.ge.
    destruct (Rge_dec (1 / 2) 0.5) as [_ | N]; [reflexivity | lra]. }
  unfold sequentialTest.
  cbn [JS.arg_or length seq_dataA seq_dataB Nat.min].
  rewrite sequentialTest_loop_S; cbv zeta.
  cbn [nth seq_dataA seq_dataB successes trials].
  rewrite PA, PB.
  rewrite (period_probability rng_seq 0 0 (rng_seq_period 0 ltac:(lia))).
  cbn [Nat.add].
  rewrite (period_expectedLoss rng_seq 0 8
             (rng_seq_period 1 ltac:(lia)) (rng_seq_period 2 ltac:(lia))).
  fold seq_loss. cbn [Nat.add].
  rewrite Hstop.
  unfold step_record, seq_record_stop.
  cbn [nth seq_dataA seq_dataB successes trials app].
  rewrite PA, PB, Hstop. reflexivity.
Qed.

(** C1, as stated, fails: on the two-step run, where arm A converts 1 of 2
    at each step, the second record has the posterior (2,2) of the second
    observation alone, not the posterior (3,3) of the cumulative totals
    (2 of 4). *)
Lemma sequentialTest_keeps_no_totals :
  exists (results : list Step.t) (k' : nat),
    sequentialTest rng_seq 1 (uniform_calculator 2) seq_dataA seq_dataB None
      0%nat = Some (results, k') /\
    ~ posteriors_from_cumulative_totals (uniform_calculator 2)
        seq_dataA seq_dataB results.
Proof.
  exists [seq_record 0; seq_record 1], 48%nat.
  split; [apply sequentialTest_two_step_run |].
  intros H.
  destruct (H 1%nat (seq_record 1) eq_refl) as [HA _].
  rewrite calculatePosterior_unfold in HA.
  cbn in HA. inversion HA. lra.
Qed.

(** C1, amended: the sequential test keeps no cumulative totals.  At every
    processed step [i] both posteriors are computed from the observation
    at index [i] of each list alone, by [calculatePosterior] with the
    calculator's prior; the emitted posteriors follow the entries of the
    lists, whatever their order of magnitude. *)
Theorem sequentialTest_posteriors_per_step (rng : nat -> R) (fuel : nat)
    (this : BayesianCalculator) (dataA dataB : list Observation)
    (threshold : option R) (k : nat) (results : list Step.t) (k' : nat) :
  sequentialTest rng fuel this dataA dataB threshold k = Some (results, k') ->
  forall (j : nat) (r : Step.t),
    nth_error results j = Some r ->
    let obsA := nth j dataA (mkObservation 0 0) in
    let obsB := nth j dataB (mkObservation 0 0) in
    (j < Nat.min (length dataA) (length dataB))%nat /\
    Step.posteriorA r =
      {| alpha := this_alpha this + successes obsA;
         beta := this_beta this + (trials obsA - successes obsA) |} /\
    Step.posteriorB r =
      {| alpha := this_alpha this + successes obsB;
         beta := this_beta this + (trials obsB - successes obsB) |}.
Proof.
  intros Hrun j r Hr obsA obsB.
  unfold sequentialTest in Hrun.
  apply sequentialTest_loop_spec in Hrun.
  destruct Hrun as (new & E & Hlen & Hrec & _ & _).
  simpl in E; subst new.
  split.
  - assert (j < length results)%nat by (apply nth_error_Some; congruence).
    lia.
  - destruct (Hrec j r Hr) as (p & l & Er).
    rewrite Er. simpl. split; reflexivity.
Qed.

Lemma sequentialTest_posteriors_per_step_witness :
  Step.posteriorA (seq_record 1) =
    {| alpha := 1 + 1; beta := 1 + (2 - 1) |} /\
  Step.posteriorB (seq_record 1) =
    {| alpha := 1 + 2; beta := 1 + (2 - 2) |}.
Proof.
  apply (sequentialTest_posteriors_per_step rng_seq 1 (uniform_calculator 2)
           seq_dataA seq_dataB None 0 [seq_record 0; seq_record 1] 48
           sequentialTest_two_step_run 1 (seq_record 1) eq_refl).
Defined.

(** *** Runs in which no sampling loop returns, and runs in which all do *)

Lemma sampleBeta_never (rng : nat -> R) (fuel : nat) (a b : R) (k : nat) :
  (forall i, attempt rng a b (k + 2 * i) = None) ->
  sampleBeta rng fuel a b k = None.
Proof.
  intros Hrej. rewrite sampleBeta_loop.
  apply (while_true_never _ _ (sampleBeta_body_attempt rng a b)). exact Hrej.
Qed.











(** * Further properties of the calculator *)

(** ** Posterior and moments *)

(** X1: conjugate updates compose.  Updating with a first observation and
    then, with the result as prior, with a second one gives the posterior of
    the summed observation; and the empty observation (0 of 0) returns the
    prior. *)
Theorem calculatePosterior_composes (this : BayesianCalculator)
    (s1 t1 s2 t2 : R) (oa ob : option R) :
  let p1 := calculatePosterior this s1 t1 oa ob in
  calculatePosterior this s2 t2 (Some (alpha p1)) (Some (beta p1)) =
    calculatePosterior this (s1 + s2) (t1 + t2) oa ob /\
  calculatePosterior this 0 0 oa ob =
    {| alpha := JS.arg_or (this_alpha this) oa;
       beta := JS.arg_or (this_beta this) ob |}.
Proof.
  intros p1. unfold p1.
  rewrite !calculatePosterior_unfold; cbn [alpha beta JS.arg_or].
  split; f_equal; lra.
Qed.

Lemma posterior_mean_formula (this : BayesianCalculator)
    (s t : R) (oa ob : option R) :
  let alpha0 := JS.arg_or (this_alpha this) oa in
  let beta0 := JS.arg_or (this_beta this) ob in
  calculateExpectedValue (calculatePosterior this s t oa ob) =
  (alpha0 + s) / (alpha0 + beta0 + t).
Proof.
  intros alpha0 beta0.
  rewrite calculatePosterior_unfold. unfold calculateExpectedValue.
  fold alpha0 beta0. f_equal. lra.
Qed.

(** X2: for a fixed number of trials and a prior with
    [alpha0 + beta0 + trials > 0], the posterior mean is
    [(alpha0 + successes) / (alpha0 + beta0 + trials)], and it grows with
    the number of successes. *)
Theorem posterior_mean_monotone (this : BayesianCalculator)
    (s1 s2 t : R) (oa ob : option R) :
  let alpha0 := JS.arg_or (this_alpha this) oa in
  let beta0 := JS.arg_or (this_beta this) ob in
  0 < alpha0 + beta0 + t ->
  s1 <= s2 ->
  calculateExpectedValue (calculatePosterior this s1 t oa ob) <=
  calculateExpectedValue (calculatePosterior this s2 t oa ob) /\
  (s1 < s2 ->
   calculateExpectedValue (calculatePosterior this s1 t oa ob) <
   calculateExpectedValue (calculatePosterior this s2 t oa ob)).
Proof.
  intros alpha0 beta0 Hpos Hs.
  rewrite !posterior_mean_formula. fold alpha0 beta0.
  assert (Hinv : 0 < / (alpha0 + beta0 + t)) by (apply Rinv_0_lt_compat; lra).
  unfold Rdiv. split.
  - apply Rmult_le_compat_r; lra.
  - intros Hlt. apply Rmult_lt_compat_r; lra.
Qed.

Lemma posterior_mean_monotone_witness :
  calculateExpectedValue
    (calculatePosterior (constructor None None) 150 1000 None None) <
  calculateExpectedValue
    (calculatePosterior (constructor None None) 180 1000 None None).
Proof.
  apply (posterior_mean_monotone (constructor None None) 150 180 1000
           None None); simpl; lra.
Defined.

Lemma mean_bounds (a b : R) : 0 < a -> 0 < b -> 0 < a / (a + b) < 1.
Proof.
  intros Ha Hb. assert (0 < a + b) by lra.
  split.
  - apply Rdiv_lt_0_compat; lra.
  - apply Rmult_lt_reg_r with (a + b); [lra |].
    unfold Rdiv; rewrite Rmult_assoc, Rinv_l; lra.
Qed.

(** X3: for positive shapes the mean lies strictly between 0 and 1, and the
    variance equals [mean (1 - mean) / (alpha + beta + 1)]; so it is
    positive, below [mean (1 - mean)] and below 1/4. *)
Theorem moments_bounds (posterior : BetaParams) :
  0 < alpha posterior -> 0 < beta posterior ->
  let mean := calculateExpectedValue posterior in
  let variance := calculateVariance posterior in
  0 < mean < 1 /\
  variance = mean * (1 - mean) / (alpha posterior + beta posterior + 1) /\
  0 < variance < mean * (1 - mean) /\
  variance < 1 / 4.
Proof.
  intros Ha Hb mean variance.
  destruct posterior as [a b]; cbn [alpha beta] in *.
  assert (Hm : 0 < mean < 1) by (apply mean_bounds; assumption).
  assert (Hab : 0 < a + b) by lra.
  assert (Ev : variance = mean * (1 - mean) / (a + b + 1)).
  { unfold variance, mean, calculateVariance, calculateExpectedValue.
    field. lra. }
  split; [exact Hm |].
  split; [exact Ev |].
  assert (Hq : 0 < mean * (1 - mean)) by (apply Rmult_lt_0_compat; lra).
  assert (Hi : 0 < / (a + b + 1) < 1).
  { split; [apply Rinv_0_lt_compat; lra |].
    rewrite <- Rinv_1. apply Rinv_lt_contravar; lra. }
  assert (Hv : 0 < variance < mean * (1 - mean)).
  { rewrite Ev. unfold Rdiv.
    set (q := mean * (1 - mean)) in *. set (w := / (a + b + 1)) in *.
    split; [apply Rmult_lt_0_compat; [exact Hq | apply Hi] |].
    rewrite <- (Rmult_1_r q) at 2.
    apply Rmult_lt_compat_l; [exact Hq | apply Hi]. }
  split; [exact Hv |].
  assert (Hquarter : mean * (1 - mean) <= 1 / 4).
  { clearbody mean. clear - Hm.
    pose proof (Rle_0_sqr (mean - 1 / 2)) as Hsq. unfold Rsqr in Hsq. nra. }
  lra.
Qed.

Lemma moments_bounds_witness :
  0 < calculateVariance {| alpha := 151; beta := 851 |} < 1 / 4.
Proof.
  destruct (moments_bounds {| alpha := 151; beta := 851 |})
    as (_ & _ & [Hpos _] & Hq); [simpl; lra | simpl; lra |].
  split; [exact Hpos | exact Hq].
Defined.

(** ** Interval layer, continued *)

Lemma inverseNormalCDF_half : inverseNormalCDF 0.5 = 0.
Proof.
  unfold inverseNormalCDF, InvNorm.p_high, InvNorm.p_low.
  destruct (Rlt_dec 0.5 0.02425); [lra |].
  destruct (Rle_dec 0.5 (1 - 0.02425)); [| lra].
  replace (0.5 - 0.5) with 0 by lra. unfold Rdiv. ring.
Qed.

(** X4: the quantile approximation is odd about 1/2:
    [inverseNormalCDF(1 - p) = - inverseNormalCDF(p)] for every [p], on the
    three branches alike; hence it returns 0 at 1/2. *)
Theorem inverseNormalCDF_odd (p : R) :
  inverseNormalCDF (1 - p) = - inverseNormalCDF p /\
  inverseNormalCDF 0.5 = 0.
Proof.
  assert (Odd : forall x, inverseNormalCDF (1 - x) = - inverseNormalCDF x).
  { intros x. unfold inverseNormalCDF, InvNorm.p_high, InvNorm.p_low.
    destruct (Rlt_dec x 0.02425) as [Hl | Hl];
      destruct (Rlt_dec (1 - x) 0.02425) as [Hl' | Hl']; try lra.
    - destruct (Rle_dec (1 - x) (1 - 0.02425)) as [Hc' | _]; [lra |].
      replace (1 - (1 - x)) with x by lra.
      unfold Rdiv. ring.
    - destruct (Rle_dec x (1 - 0.02425)) as [Hc | _]; [lra |].
      unfold Rdiv. ring.
    - destruct (Rle_dec x (1 - 0.02425)) as [Hc | Hc];
        destruct (Rle_dec (1 - x) (1 - 0.02425)) as [Hc' | Hc']; try lra.
      set (q := x - 0.5).
      replace (1 - x - 0.5) with (- q) by (unfold q; lra).
      replace (- q * - q) with (q * q) by ring.
      unfold Rdiv. ring. }
  split; [apply Odd | apply inverseNormalCDF_half].
Qed.

Lemma inverseNormalCDF_upper_half_closed (p : R) :
  0.5 <= p < 1 -> 0 <= inverseNormalCDF p.
Proof.
  intros [Hlo Hhi].
  destruct (Req_dec_T p 0.5) as [E | N].
  - rewrite E, inverseNormalCDF_half. lra.
  - apply inverseNormalCDF_upper_half. lra.
Qed.

(** The interval, with the default confidence or a given one in [0,1). *)
Lemma credible_interval_around_mean (posterior : BetaParams)
    (confidence : option R) :
  0 < alpha posterior -> 0 < beta posterior ->
  0 <= JS.arg_or 0.95 confidence < 1 ->
  let ci := calculateCredibleInterval posterior confidence in
  let mean := calculateExpectedValue posterior in
  0 <= lower ci <= mean /\ mean <= upper ci <= 1.
Proof.
  intros Ha Hb Hc ci mean.
  destruct posterior as [a b]; cbn [alpha beta] in *.
  assert (Hmean : 0 < mean < 1) by (apply mean_bounds; assumption).
  set (c := JS.arg_or 0.95 confidence) in *.
  set (sd := Math.sqrt (a * b / ((a + b) ^ 2 * (a + b + 1)))).
  set (z := inverseNormalCDF (1 - (1 - c) / 2)).
  assert (Eci : ci = {| lower := Rmax 0 (mean - z * sd);
                        upper := Rmin 1 (mean + z * sd) |}) by reflexivity.
  assert (Hsd : 0 <= sd) by apply sqrt_pos.
  assert (Hz : 0 <= z) by (apply inverseNormalCDF_upper_half_closed; lra).
  assert (Hm : 0 <= z * sd) by (apply Rmult_le_pos; assumption).
  rewrite Eci; cbn [lower upper].
  split; [split; [apply Rmax_l | apply Rmax_lub; lra] |].
  split; [apply Rmin_glb; lra | apply Rmin_l].
Qed.

(** X5: for positive shapes and a confidence in [0,1), the interval lies
    within [0,1] around the mean; at confidence 0 it is the single point
    of the mean. *)
Theorem calculateCredibleInterval_within_unit (posterior : BetaParams)
    (c : R) :
  0 < alpha posterior -> 0 < beta posterior -> 0 <= c < 1 ->
  let ci := calculateCredibleInterval posterior (Some c) in
  let mean := calculateExpectedValue posterior in
  0 <= lower ci <= mean /\ mean <= upper ci <= 1 /\
  (c = 0 -> lower ci = mean /\ upper ci = mean).
Proof.
  intros Ha Hb Hc ci mean.
  destruct (credible_interval_around_mean posterior (Some c) Ha Hb Hc)
    as [Hl Hu].
  split; [exact Hl |]. split; [exact Hu |].
  intros E.
  destruct posterior as [a b]; cbn [alpha beta] in *.
  assert (Hmean : 0 < mean < 1) by (apply mean_bounds; assumption).
  unfold ci, calculateCredibleInterval; cbn [JS.arg_or lower upper].
  rewrite E. replace (1 - (1 - 0) / 2) with 0.5 by lra.
  rewrite inverseNormalCDF_half, Rmult_0_l, Rminus_0_r, Rplus_0_r.
  fold mean. unfold Math.max, Math.min.
  split; [apply Rmax_right | apply Rmin_right]; lra.
Qed.

Lemma calculateCredibleInterval_within_unit_witness :
  let posterior := {| alpha := 181; beta := 821 |} in
  lower (calculateCredibleInterval posterior (Some 0)) =
    calculateExpectedValue posterior /\
  upper (calculateCredibleInterval posterior (Some 0)) =
    calculateExpectedValue posterior.
Proof.
  intros posterior.
  destruct (calculateCredibleInterval_within_unit posterior 0)
    as (_ & _ & H); [simpl; lra | simpl; lra | lra |].
  apply H; reflexivity.
Defined.

(** ** Special-function layer, continued *)

Lemma fold_left_nonneg {A : Type} (f : A -> R) (l : list A) (acc : R) :
  (forall a, In a l -> 0 <= f a) -> 0 <= acc ->
  0 <= fold_left (fun s a => s + f a) l acc.
Proof.
  revert acc; induction l as [| a l IH]; intros acc Hf Hacc; cbn.
  - exact Hacc.
  - apply IH.
    + intros a' Ha'. apply Hf. right; exact Ha'.
    + pose proof (Hf a (or_introl eq_refl)). lra.
Qed.

Lemma betaPDF_nonneg (x a b : R) : 0 <= betaPDF x a b.
Proof.
  unfold betaPDF.
  destruct (Rle_dec x 0); [lra |].
  destruct (Rge_dec x 1); [lra |].
  left; apply exp_pos.
Qed.

Lemma betaCDF_nonneg (x a b : R) : 0 <= betaCDF x a b.
Proof.
  unfold betaCDF.
  destruct (Rle_dec x 0) as [| Hx]; [lra |].
  destruct (Rge_dec x 1); [lra |].
  cbv zeta.
  apply (fold_left_nonneg
           (fun i => betaPDF (INR i / INR 1000 * x) a b * x / INR 1000));
    [| lra].
  intros i _.
  assert (H1000 : 0 < INR 1000) by (apply lt_0_INR; lia).
  apply Rmult_le_pos; [| left; apply Rinv_0_lt_compat; exact H1000].
  apply Rmult_le_pos; [apply betaPDF_nonneg | lra].
Qed.

(** X6: for positive shapes the density is never negative and is 0 outside
    the open interval (0,1), so that it can be positive only inside it; the
    quadrature of [betaCDF] is never negative either. *)
Theorem betaPDF_support (x a b : R) :
  0 < a -> 0 < b ->
  0 <= betaPDF x a b /\
  (0 < betaPDF x a b -> 0 < x < 1) /\
  0 <= betaCDF x a b.
Proof.
  intros _ _.
  split; [apply betaPDF_nonneg |].
  split; [| apply betaCDF_nonneg].
  unfold betaPDF.
  destruct (Rle_dec x 0) as [H0 | H0]; [intros; lra |].
  destruct (Rge_dec x 1) as [H1 | H1]; [intros; lra |].
  intros _; lra.
Qed.

Lemma betaPDF_support_witness :
  0 <= betaPDF (1 / 2) 151 851 /\ 0 <= betaCDF (1 / 2) 151 851.
Proof.
  destruct (betaPDF_support (1 / 2) 151 851) as (Hpdf & _ & Hcdf);
    [lra | lra |].
  split; [exact Hpdf | exact Hcdf].
Defined.

Lemma fold_left_sum {A : Type} (f : A -> R) (l : list A) (acc : R) :
  fold_left (fun s a => s + f a) l acc =
  acc + fold_right Rplus 0 (map f l).
Proof.
  revert acc; induction l as [| a l IH]; intros acc; cbn.
  - lra.
  - rewrite IH. lra.
Qed.

(** X7: for posteriors with positive shapes, the estimate by numerical
    integration is the sum over the 1000 grid points [i/1000] of density
    of A times distribution value of B, divided by 1000, capped at 1; the
    sum is never negative, so the result lies in [0,1]. *)
Theorem calculateProbabilityBGreaterThanA_clamped
    (posteriorA posteriorB : BetaParams) :
  let term (i : nat) :=
    betaPDF (INR i / 1000) (alpha posteriorA) (beta posteriorA) *
    betaCDF (INR i / 1000) (alpha posteriorB) (beta posteriorB) / 1000 in
  let sum := fold_right Rplus 0 (map term (seq 0 1000)) in
  positive_shapes posteriorA -> positive_shapes posteriorB ->
  calculateProbabilityBGreaterThanA posteriorA posteriorB = Rmin 1 sum /\
  0 <= sum /\
  0 <= calculateProbabilityBGreaterThanA posteriorA posteriorB <= 1.
Proof.
  intros term sum _ _.
  assert (E1000 : INR 1000 = 1000).
  { rewrite INR_IZR_INZ. reflexivity. }
  assert (Hterm : forall i, 0 <= term i).
  { intros i. unfold term.
    apply Rmult_le_pos; [| lra].
    apply Rmult_le_pos; [apply betaPDF_nonneg | apply betaCDF_nonneg]. }
  assert (Hsum : 0 <= sum).
  { unfold sum. generalize (seq 0 1000). intros l.
    induction l as [| i l IH]; cbn; [lra |].
    pose proof (Hterm i). lra. }
  assert (E : calculateProbabilityBGreaterThanA posteriorA posteriorB =
              Rmin 1 sum).
  { destruct posteriorA as [aA bA], posteriorB as [aB bB].
    unfold calculateProbabilityBGreaterThanA; cbv zeta.
    rewrite E1000.
    rewrite (fold_left_sum
               (fun i => betaPDF (INR i / 1000) aA bA *
                         betaCDF (INR i / 1000) aB bB / 1000)).
    rewrite Rplus_0_l. fold term. fold sum.
    unfold Math.max, Math.min.
    apply Rmax_right. apply Rmin_glb; lra. }
  split; [exact E |].
  split; [exact Hsum |].
  rewrite E. split; [apply Rmin_glb; lra | apply Rmin_l].
Qed.

Lemma calculateProbabilityBGreaterThanA_clamped_witness :
  0 <= calculateProbabilityBGreaterThanA {| alpha := 151; beta := 851 |}
         {| alpha := 181; beta := 821 |} <= 1.
Proof.
  apply (calculateProbabilityBGreaterThanA_clamped
           {| alpha := 151; beta := 851 |} {| alpha := 181; beta := 821 |});
    unfold positive_shapes; cbn [alpha beta]; lra.
Defined.

Lemma fold_left_push {A B : Type} (g : A -> B) (l : list A) (acc : list B) :
  fold_left (fun data i => data ++ [g i]) l acc = acc ++ map g l.
Proof.
  revert acc; induction l as [| a l IH]; intros acc; cbn.
  - rewrite app_nil_r. reflexivity.
  - rewrite IH, <- app_assoc. reflexivity.
Qed.

(** X8: for [numPoints >= 1] the plotted data are [numPoints + 1] points
    whose abscissas are [x = i / numPoints], [i = 0 .. numPoints], in this
    order, all within [0,1]; the first point is (0, 0) and the last is
    (1, 0), whatever the shapes; and for positive shapes the ordinate of
    each point is [y = betaPDF(x)], never negative. *)
Theorem generateDistributionData_grid (posterior : BetaParams)
    (numPoints : option nat) :
  let n := JS.arg_or 100%nat numPoints in
  let data := generateDistributionData posterior numPoints in
  (1 <= n)%nat ->
  length data = S n /\
  map Point.x data = map (fun i => INR i / INR n) (seq 0 (S n)) /\
  (forall pt, In pt data -> 0 <= Point.x pt <= 1) /\
  nth_error data 0 = Some {| Point.x := 0; Point.y := 0 |} /\
  nth_error data n = Some {| Point.x := 1; Point.y := 0 |} /\
  (positive_shapes posterior ->
   (forall i, (i <= n)%nat ->
      nth_error data i =
      Some {| Point.x := INR i / INR n;
              Point.y := betaPDF (INR i / INR n)
                           (alpha posterior) (beta posterior) |}) /\
   (forall pt, In pt data -> 0 <= Point.y pt)).
Proof.
  intros n data Hn.
  destruct posterior as [a b]; cbn [alpha beta].
  set (g := fun i : nat =>
              {| Point.x := INR i / INR n;
                 Point.y := betaPDF (INR i / INR n) a b |}).
  assert (E : data = map g (seq 0 (S n))).
  { unfold data, generateDistributionData. fold n. cbv zeta.
    rewrite (fold_left_push g). reflexivity. }
  assert (Hpos : 0 < INR n) by (apply lt_0_INR; lia).
  assert (Hnth : forall i, (i <= n)%nat -> nth_error data i = Some (g i)).
  { intros i Hi. rewrite E, nth_error_map, nth_error_seq.
    destruct (Nat.ltb_spec i (S n)); [reflexivity | lia]. }
  split; [rewrite E, length_map, length_seq; reflexivity |].
  split; [rewrite E, map_map; reflexivity |].
  split.
  { intros pt Hin. rewrite E in Hin. apply in_map_iff in Hin.
    destruct Hin as (i & Ei & Hi). apply in_seq in Hi. subst pt.
    cbn [g Point.x].
    assert (0 <= INR i <= INR n).
    { split; [apply pos_INR | apply le_INR; lia]. }
    split.
    - apply Rmult_le_pos; [lra | left; apply Rinv_0_lt_compat; lra].
    - apply Rmult_le_reg_r with (INR n); [exact Hpos |].
      unfold Rdiv. rewrite Rmult_assoc, Rinv_l by lra. lra. }
  split.
  { rewrite (Hnth 0%nat) by lia. unfold g. cbn [INR].
    replace (0 / INR n) with 0 by (unfold Rdiv; ring).
    f_equal. f_equal.
    unfold betaPDF. destruct (Rle_dec 0 0); [reflexivity | lra]. }
  split.
  { rewrite (Hnth n) by lia. unfold g.
    replace (INR n / INR n) with 1 by (field; lra).
    f_equal. f_equal.
    unfold betaPDF. destruct (Rle_dec 1 0); [lra |].
    destruct (Rge_dec 1 1); [reflexivity | lra]. }
  intros _. split; [exact Hnth |].
  intros pt Hin. rewrite E in Hin. apply in_map_iff in Hin.
  destruct Hin as (i & Ei & Hi). subst pt.
  cbn [g Point.y]. apply betaPDF_nonneg.
Qed.

Lemma generateDistributionData_grid_witness :
  length (generateDistributionData {| alpha := 151; beta := 851 |}
            (Some 200%nat)) = 201%nat /\
  length (generateDistributionData {| alpha := 151; beta := 851 |} None)
    = 101%nat.
Proof.
  split.
  - apply (generateDistributionData_grid {| alpha := 151; beta := 851 |}
             (Some 200%nat)). simpl; lia.
  - apply (generateDistributionData_grid {| alpha := 151; beta := 851 |}
             None). simpl; lia.
Defined.

(** ** Predictive layer *)

(** X9: for positive shapes and [futureTrials >= 0], the expected number of
    successes is [mean * futureTrials], between 0 and [futureTrials]; the
    variance is the binomial variance [futureTrials * mean * (1 - mean)]
    times [(alpha + beta + futureTrials) / (alpha + beta + 1)], hence not
    below the binomial variance from one trial on, and 0 for no trial.
    The shapes and the number of trials are returned unchanged. *)
Theorem posteriorPredictive_moments (posterior : BetaParams) (n : R) :
  0 < alpha posterior -> 0 < beta posterior -> 0 <= n ->
  let a := alpha posterior in
  let b := beta posterior in
  let mean := calculateExpectedValue posterior in
  let pp := posteriorPredictive posterior n in
  (Predictive.alpha pp = a /\ Predictive.beta pp = b /\
   Predictive.trials pp = n) /\
  Predictive.expectedSuccesses pp = mean * n /\
  0 <= Predictive.expectedSuccesses pp <= n /\
  Predictive.variance pp =
    n * mean * (1 - mean) * ((a + b + n) / (a + b + 1)) /\
  0 <= Predictive.variance pp /\
  (1 <= n -> n * mean * (1 - mean) <= Predictive.variance pp) /\
  (n = 0 -> Predictive.expectedSuccesses pp = 0 /\
            Predictive.variance pp = 0).
Proof.
  intros Ha Hb Hn a b mean pp.
  destruct posterior as [a' b']; cbn [alpha beta] in *.
  subst a b. rename a' into a, b' into b.
  assert (Hm : 0 < mean < 1) by (apply mean_bounds; assumption).
  assert (Hab : 0 < a + b) by lra.
  assert (EE : Predictive.expectedSuccesses pp = mean * n) by reflexivity.
  assert (EV : Predictive.variance pp =
               n * mean * (1 - mean) * ((a + b + n) / (a + b + 1))).
  { unfold pp, posteriorPredictive, mean, calculateExpectedValue.
    cbn [Predictive.variance]. field. lra. }
  assert (Hq : 0 < mean * (1 - mean)) by (apply Rmult_lt_0_compat; lra).
  assert (Hr : 0 < (a + b + n) / (a + b + 1)).
  { apply Rdiv_lt_0_compat; lra. }
  assert (Hnq : 0 <= n * mean * (1 - mean)).
  { rewrite Rmult_assoc. apply Rmult_le_pos; lra. }
  split; [repeat split |].
  split; [exact EE |].
  split.
  { rewrite EE. split; [apply Rmult_le_pos; lra |].
    rewrite <- (Rmult_1_l n) at 2. apply Rmult_le_compat_r; lra. }
  split; [exact EV |].
  split.
  { rewrite EV. apply Rmult_le_pos; lra. }
  split.
  { intros H1. rewrite EV.
    rewrite <- (Rmult_1_r (n * mean * (1 - mean))) at 1.
    apply Rmult_le_compat_l; [exact Hnq |].
    apply Rmult_le_reg_r with (a + b + 1); [lra |].
    unfold Rdiv. rewrite Rmult_assoc, Rinv_l by lra. lra. }
  intros E0. rewrite EE, EV, E0. split; ring.
Qed.

Lemma posteriorPredictive_moments_witness :
  let pp := posteriorPredictive {| alpha := 151; beta := 851 |} 1000 in
  0 <= Predictive.expectedSuccesses pp <= 1000.
Proof.
  intros pp.
  apply (posteriorPredictive_moments {| alpha := 151; beta := 851 |} 1000);
    simpl; lra.
Defined.

(** X11: the sensitivity analysis returns one entry per listed prior, in
    the order of the list; the entry's posterior is
    (prior.alpha + successes, prior.beta + trials - successes), with no
    part played by the calculator's own prior; and for a prior with
    positive shapes and a valid observation the reported expected value
    lies in (0,1), inside the reported 95% interval. *)
Theorem sensitivityAnalysis_per_prior (this : BayesianCalculator)
    (s t : R) (priors : list BetaParams) :
  let results := sensitivityAnalysis this s t priors in
  length results = length priors /\
  (forall this', sensitivityAnalysis this' s t priors = results) /\
  (forall i prior, nth_error priors i = Some prior ->
     exists e : Sensitivity.t,
       nth_error results i = Some e /\
       Sensitivity.prior e = prior /\
       Sensitivity.posterior e =
         {| alpha := alpha prior + s; beta := beta prior + (t - s) |} /\
       Sensitivity.expectedValue e =
         (alpha prior + s) / (alpha prior + beta prior + t) /\
       (positive_shapes prior -> 0 <= s <= t ->
          0 < Sensitivity.expectedValue e < 1 /\
          lower (Sensitivity.credibleInterval e)
            <= Sensitivity.expectedValue e
            <= upper (Sensitivity.credibleInterval e))).
Proof.
  intros results.
  split; [apply length_map |].
  split; [reflexivity |].
  intros i prior Hi.
  unfold results, sensitivityAnalysis.
  rewrite nth_error_map, Hi. cbn [option_map].
  eexists; split; [reflexivity |].
  cbn [Sensitivity.prior Sensitivity.posterior Sensitivity.expectedValue
       Sensitivity.credibleInterval].
  split; [reflexivity |].
  split; [apply calculatePosterior_unfold |].
  split.
  { rewrite calculatePosterior_unfold. unfold calculateExpectedValue.
    cbn [JS.arg_or]. f_equal. lra. }
  intros [Ha Hb] Hst.
  rewrite calculatePosterior_unfold; cbn [JS.arg_or].
  set (post := {| alpha := alpha prior + s; beta := beta prior + (t - s) |}).
  assert (Hpa : 0 < alpha post) by (cbn; lra).
  assert (Hpb : 0 < beta post) by (cbn; lra).
  split.
  - unfold calculateExpectedValue, post. apply mean_bounds; lra.
  - destruct (credible_interval_around_mean post None Hpa Hpb) as [Hl Hu];
      [cbn; lra |].
    lra.
Qed.

Lemma sensitivityAnalysis_per_prior_witness :
  exists e : Sensitivity.t,
    nth_error
      (sensitivityAnalysis (constructor None None) 150 1000
         [ {| alpha := 1; beta := 1 |}; {| alpha := 0.5; beta := 0.5 |} ])
      1 = Some e /\
    Sensitivity.posterior e =
      {| alpha := 0.5 + 150; beta := 0.5 + (1000 - 150) |} /\
    lower (Sensitivity.credibleInterval e) <= Sensitivity.expectedValue e.
Proof.
  destruct (sensitivityAnalysis_per_prior (constructor None None) 150 1000
              [ {| alpha := 1; beta := 1 |}; {| alpha := 0.5; beta := 0.5 |} ])
    as (_ & _ & H).
  destruct (H 1%nat {| alpha := 0.5; beta := 0.5 |} eq_refl)
    as (e & He & _ & Hp & _ & Hci).
  exists e. split; [exact He |]. split; [exact Hp |].
  apply Hci; [unfold positive_shapes; simpl; lra | lra].
Defined.

(** ** Sampling layer, continued *)

(** The value of an accepted pair of draws lies strictly between 0 and 1. *)
Lemma attempt_value_range (rng : nat -> R) (a b : R) (k : nat) (v : R) :
  0 < a -> 0 < b -> 0 < rng k < 1 -> 0 < rng (S k) < 1 ->
  attempt rng a b k = Some v -> 0 < v < 1.
Proof.
  intros Ha Hb Hu1 Hu2 Hatt.
  assert (Frac : forall x y, 0 < x -> 0 < y -> 0 < x / (x + y) < 1)
    by (intros; apply mean_bounds; assumption).
  destruct (Rle_dec a 1) as [Ha1 | Ha1];
    [destruct (Rle_dec b 1) as [Hb1 | Hb1] |].
  - rewrite attempt_rejection in Hatt by assumption. cbv zeta in Hatt.
    destruct (Rle_dec _ 1); [| discriminate].
    inversion Hatt; subst v.
    apply Frac; unfold Math.pow.
    + destruct (Req_dec_T (rng k) 0); [lra | apply exp_pos].
    + destruct (Req_dec_T (rng (S k)) 0); [lra | apply exp_pos].
  - destruct (cheng_regular_dec a b) as [Hreg | Hirr];
      [| rewrite attempt_cheng_irregular in Hatt by tauto; discriminate].
    rewrite attempt_cheng in Hatt by tauto. cbv zeta in Hatt.
    destruct (Rge_dec _ _); [| discriminate].
    inversion Hatt; subst v. unfold Math.min, Math.max, Math.exp.
    set (w := Rmin a b * exp _).
    assert (Hw : 0 < w).
    { apply Rmult_lt_0_compat; [apply Rmin_case; assumption | apply exp_pos]. }
    assert (Hm : 0 < Rmax a b) by (apply Rmax_case; assumption).
    destruct (Req_dec_T a (Rmin a b)).
    + rewrite (Rplus_comm (Rmax a b) w). apply Frac; assumption.
    + apply Frac; assumption.
  - destruct (cheng_regular_dec a b) as [Hreg | Hirr];
      [| rewrite attempt_cheng_irregular in Hatt by tauto; discriminate].
    rewrite attempt_cheng in Hatt by tauto. cbv zeta in Hatt.
    destruct (Rge_dec _ _); [| discriminate].
    inversion Hatt; subst v. unfold Math.min, Math.max, Math.exp.
    set (w := Rmin a b * exp _).
    assert (Hw : 0 < w).
    { apply Rmult_lt_0_compat; [apply Rmin_case; assumption | apply exp_pos]. }
    assert (Hm : 0 < Rmax a b) by (apply Rmax_case; assumption).
    destruct (Req_dec_T a (Rmin a b)).
    + rewrite (Rplus_comm (Rmax a b) w). apply Frac; assumption.
    + apply Frac; assumption.
Qed.

(** A value returned by [sampleBeta]: its range and the draws it took. *)
Lemma sampleBeta_returns (rng : nat -> R) (fuel : nat) (a b : R)
    (k k' : nat) (v : R) :
  sampleBeta rng fuel a b k = Some (v, k') ->
  exists j, (j < fuel)%nat /\ k' = (k + 2 * j + 2)%nat /\
            attempt rng a b (k + 2 * j) = Some v.
Proof.
  intros Hrun. rewrite sampleBeta_loop in Hrun.
  destruct (while_true_returns _ _ (sampleBeta_body_attempt rng a b)
              fuel k v k' Hrun) as (j & Hj & _ & Hacc & Hk).
  exists j. auto.
Qed.

(** X12: for positive shapes and a random source with values in the open
    interval (0,1), every value [sampleBeta] returns lies strictly between
    0 and 1, under both samplers; the call takes an even number of draws,
    two per iteration, and at most [2 * fuel]. *)
Theorem sampleBeta_in_unit_interval (rng : nat -> R) (fuel : nat)
    (a b : R) (k k' : nat) (v : R) :
  0 < a -> 0 < b ->
  (forall i, 0 < rng i < 1) ->
  sampleBeta rng fuel a b k = Some (v, k') ->
  0 < v < 1 /\
  exists iterations : nat,
    (1 <= iterations <= fuel)%nat /\ k' = (k + 2 * iterations)%nat.
Proof.
  intros Ha Hb Hrng Hrun.
  destruct (sampleBeta_returns rng fuel a b k k' v Hrun)
    as (j & Hj & Hk & Hacc).
  split.
  - apply (attempt_value_range rng a b (k + 2 * j) v); auto.
  - exists (S j). split; lia.
Qed.

Lemma rng_seq_range (i : nat) : 0 < rng_seq i < 1.
Proof.
  unfold rng_seq.
  destruct (Nat.odd i); [lra |].
  destruct (i mod 8 =? 6)%nat; lra.
Qed.

Lemma sampleBeta_in_unit_interval_witness : 0 < 1 / 4 < 1.
Proof.
  apply (sampleBeta_in_unit_interval rng_seq 1 3 1 6 8 (1 / 4));
    [lra | lra | apply rng_seq_range |].
  apply sampleBeta_3_1_high; reflexivity.
Defined.

(** The values pushed by the loop of [monteCarloSample] and its draws. *)
Lemma monteCarloSample_loop_returns (rng : nat -> R) (fuel : nat)
    (a b : R) (n : nat) :
  0 < a -> 0 < b -> (forall i, 0 < rng i < 1) ->
  forall (acc : list R) (k : nat) (l : list R) (k' : nat),
    monteCarloSample_loop rng fuel a b n acc k = Some (l, k') ->
    exists new : list R,
      l = acc ++ new /\ length new = n /\
      Forall (fun v => 0 < v < 1) new /\
      (k + 2 * n <= k' <= k + 2 * (n * fuel))%nat.
Proof.
  intros Ha Hb Hrng.
  induction n as [| n IH]; intros acc k l k' H.
  - inversion H; subst. exists []. rewrite app_nil_r.
    repeat split; auto; lia.
  - rewrite monteCarloSample_loop_S in H.
    destruct (sampleBeta rng fuel a b k) as [[s k1] |] eqn:Hs;
      [| discriminate].
    destruct (sampleBeta_returns rng fuel a b k k1 s Hs)
      as (j & Hj & Hk1 & Hacc).
    assert (Hv : 0 < s < 1)
      by (apply (attempt_value_range rng a b (k + 2 * j) s); auto).
    destruct (IH _ _ _ _ H) as (new & E & Hlen & Hall & Hk).
    exists (s :: new).
    split; [rewrite E, <- app_assoc; reflexivity |].
    split; [simpl; lia |].
    split; [constructor; assumption |].
    nia.
Qed.

(** X13: for positive shapes and a random source with values in (0,1), an
    array returned by [monteCarloSample] holds exactly the requested
    number [n] of samples, each strictly between 0 and 1, and the call has
    drawn at least [2 n] and at most [2 n fuel] random numbers; with
    [n = 0] it returns the empty array and draws nothing. *)
Theorem monteCarloSample_samples (rng : nat -> R) (fuel : nat)
    (this : BayesianCalculator) (posterior : BetaParams)
    (samples : option nat) (k : nat) (l : list R) (k' : nat) :
  let n := JS.arg_or (monteCarloSamples this) samples in
  positive_shapes posterior ->
  (forall i, 0 < rng i < 1) ->
  monteCarloSample rng fuel this posterior samples k = Some (l, k') ->
  length l = n /\
  Forall (fun v => 0 < v < 1) l /\
  (k + 2 * n <= k' <= k + 2 * (n * fuel))%nat /\
  (n = 0%nat -> l = [] /\ k' = k).
Proof.
  intros n [Ha Hb] Hrng Hrun.
  destruct posterior as [a b]; cbn [alpha beta] in *.
  unfold monteCarloSample in Hrun. fold n in Hrun.
  destruct (monteCarloSample_loop_returns rng fuel a b n Ha Hb Hrng
              _ _ _ _ Hrun) as (new & E & Hlen & Hall & Hk).
  simpl in E; subst new.
  split; [exact Hlen |].
  split; [exact Hall |].
  split; [exact Hk |].
  intros E0. rewrite E0 in *.
  split; [apply length_zero_iff_nil; exact Hlen | lia].
Qed.

Lemma monteCarloSample_samples_witness :
  Forall (fun v => 0 < v < 1) [3 / 4; 1 / 4].
Proof.
  destruct (period_samples rng_seq 0 0 (rng_seq_period 0 ltac:(lia)))
    as [_ HB].
  apply (monteCarloSample_samples rng_seq 1 (uniform_calculator 2)
           {| alpha := 3; beta := 1 |} (Some 2%nat) 4 [3 / 4; 1 / 4] 8);
    [unfold positive_shapes; simpl; lra | apply rng_seq_range | exact HB].
Defined.

(** ** Monte Carlo layer, continued *)

Lemma calculateProbability_inv (rng : nat -> R) (fuel : nat)
    (this : BayesianCalculator) (pA pB : BetaParams)
    (k k2 : nat) (p : JS.number) :
  let n := monteCarloSamples this in
  calculateProbabilityBGreaterThanAMonteCarlo rng fuel this pA pB k =
    Some (p, k2) ->
  exists sA k1 sB,
    monteCarloSample rng fuel this pA (Some n) k = Some (sA, k1) /\
    monteCarloSample rng fuel this pB (Some n) k1 = Some (sB, k2) /\
    p = JS.div (INR (count_wins sA sB n)) (INR n).
Proof.
  intros n H.
  unfold calculateProbabilityBGreaterThanAMonteCarlo in H.
  rewrite bind_unfold in H. fold n in H.
  destruct (monteCarloSample rng fuel this pA (Some n) k) as [[sA k1] |]
    eqn:HA; [| discriminate].
  rewrite bind_unfold in H.
  destruct (monteCarloSample rng fuel this pB (Some n) k1) as [[sB k2'] |]
    eqn:HB; [| discriminate].
  inversion H; subst. exists sA, k1, sB.
  repeat split; assumption.
Qed.

Lemma calculateExpectedLoss_inv (rng : nat -> R) (fuel : nat)
    (this : BayesianCalculator) (pA pB : BetaParams)
    (k k4 : nat) (r : Loss.t) :
  let n := monteCarloSamples this in
  calculateExpectedLoss rng fuel this pA pB k = Some (r, k4) ->
  exists p k2 sA k3 sB,
    calculateProbabilityBGreaterThanAMonteCarlo rng fuel this pA pB k =
      Some (p, k2) /\
    monteCarloSample rng fuel this pA (Some n) k2 = Some (sA, k3) /\
    monteCarloSample rng fuel this pB (Some n) k3 = Some (sB, k4) /\
    r = {| Loss.lossA := JS.div (sum_loss sA sB n) (INR n);
           Loss.lossB := JS.div (sum_loss sB sA n) (INR n);
           Loss.probBGreater := p |}.
Proof.
  intros n H.
  unfold calculateExpectedLoss in H.
  rewrite bind_unfold in H.
  destruct (calculateProbabilityBGreaterThanAMonteCarlo rng fuel this pA pB k)
    as [[p k2] |] eqn:HP; [| discriminate].
  rewrite bind_unfold in H. fold n in H.
  destruct (monteCarloSample rng fuel this pA (Some n) k2) as [[sA k3] |]
    eqn:HA; [| discriminate].
  rewrite bind_unfold in H.
  destruct (monteCarloSample rng fuel this pB (Some n) k3) as [[sB k4'] |]
    eqn:HB; [| discriminate].
  inversion H; subst. exists p, k2, sA, k3, sB.
  repeat split; assumption.
Qed.






(** The posterior under the Jeffreys prior of an arm that converted none,
    or all, of [t >= 1] trials: the quotient under the root of Cheng's
    constant is [(t - 1) / (-0.5)]. *)
Lemma jeffreys_irregular (a b t : R) :
  1 <= t -> (a = 0.5 /\ b = 0.5 + t \/ a = 0.5 + t /\ b = 0.5) ->
  ~ (a <= 1 /\ b <= 1) /\ ~ cheng_regular a b.
Proof.
  intros Ht Hab.
  assert (Hmin : Rmin a b = 0.5).
  { destruct Hab as [[-> ->] | [-> ->]];
      [apply Rmin_left | apply Rmin_right]; lra. }
  assert (Hmax : Rmax a b = 0.5 + t).
  { destruct Hab as [[-> ->] | [-> ->]];
      [apply Rmax_right | apply Rmax_left]; lra. }
  split; [destruct Hab as [[-> ->] | [-> ->]]; lra |].
  unfold cheng_regular, Math.min, Math.max. cbv zeta.
  rewrite Hmin, Hmax. intros [_ Hq].
  assert (Hinv : / (2 * 0.5 * (0.5 + t) - (0.5 + (0.5 + t))) < 0)
    by (apply Rinv_lt_0_compat; lra).
  unfold Rdiv in Hq. nra.
Qed.

Lemma monteCarloSample_blocked (rng : nat -> R) (fuel : nat)
    (this : BayesianCalculator) (posterior : BetaParams) (n k : nat) :
  (0 < n)%nat ->
  sampleBeta rng fuel (alpha posterior) (beta posterior) k = None ->
  monteCarloSample rng fuel this posterior (Some n) k = None.
Proof.
  intros Hn Hstuck. destruct posterior as [a b]. cbn [alpha beta] in Hstuck.
  unfold monteCarloSample. cbn [JS.arg_or].
  destruct n as [| n]; [lia |].
  rewrite monteCarloSample_loop_S, Hstuck. reflexivity.
Qed.

(** X30: under the Jeffreys prior (0.5, 0.5), for an arm that converted
    none or all of [t >= 1] trials, Cheng's constant [lambda] is not a
    positive number (the quotient under its root is (t - 1) / (-0.5)), no
    pair of draws passes the test, and [sampleBeta] never returns,
    whatever the random numbers; so neither does [monteCarloSample] for a
    positive number of samples. *)
Theorem sampleBeta_hangs_under_jeffreys (rng : nat -> R) (fuel k n : nat)
    (t : R) :
  let none := calculatePosterior jeffreys_calculator 0 t None None in
  let all := calculatePosterior jeffreys_calculator t t None None in
  1 <= t -> (0 < n)%nat ->
  sampleBeta rng fuel (alpha none) (beta none) k = None /\
  sampleBeta rng fuel (alpha all) (beta all) k = None /\
  monteCarloSample rng fuel jeffreys_calculator none (Some n) k = None /\
  monteCarloSample rng fuel jeffreys_calculator all (Some n) k = None.
Proof.
  intros none all Ht Hn.
  assert (Hnone : sampleBeta rng fuel (alpha none) (beta none) k = None).
  { unfold none, jeffreys_calculator. rewrite calculatePosterior_unfold.
    cbn [alpha beta JS.arg_or this_alpha this_beta constructor].
    destruct (jeffreys_irregular (0.5 + 0) (0.5 + (t - 0)) t Ht) as [H1 H2];
      [left; split; lra |].
    apply sampleBeta_never. intros i.
    apply attempt_cheng_irregular; assumption. }
  assert (Hall : sampleBeta rng fuel (alpha all) (beta all) k = None).
  { unfold all, jeffreys_calculator. rewrite calculatePosterior_unfold.
    cbn [alpha beta JS.arg_or this_alpha this_beta constructor].
    destruct (jeffreys_irregular (0.5 + t) (0.5 + (t - t)) t Ht) as [H1 H2];
      [right; split; lra |].
    apply sampleBeta_never. intros i.
    apply attempt_cheng_irregular; assumption. }
  split; [exact Hnone |]. split; [exact Hall |].
  split; apply monteCarloSample_blocked; assumption.
Qed.

Lemma sampleBeta_hangs_under_jeffreys_witness :
  sampleBeta rng_seq 1000 (0.5 + 0) (0.5 + (5 - 0)) 0%nat = None.
Proof.
  apply (sampleBeta_hangs_under_jeffreys rng_seq 1000 0 1 5); [lra | lia].
Defined.

(** ** Sequential testing layer, continued *)

(** The loop reads the two lists only at the indices it visits. *)
Lemma sequentialTest_loop_data (rng : nat -> R) (fuel : nat)
    (this : BayesianCalculator) (dataA dataB dataA' dataB' : list Observation)
    (threshold : R) (steps : nat) :
  forall (i : nat) (acc : list Step.t) (k : nat),
    (forall j, (i <= j < i + steps)%nat ->
       nth j dataA (mkObservation 0 0) = nth j dataA' (mkObservation 0 0) /\
       nth j dataB (mkObservation 0 0) = nth j dataB' (mkObservation 0 0)) ->
    sequentialTest_loop rng fuel this dataA dataB threshold steps i acc k =
    sequentialTest_loop rng fuel this dataA' dataB' threshold steps i acc k.
Proof.
  induction steps as [| steps IH]; intros i acc k Hagree; [reflexivity |].
  rewrite !sequentialTest_loop_S. cbv zeta.
  destruct (Hagree i ltac:(lia)) as [EA EB].
  unfold step_record. rewrite EA, EB.
  destruct (calculateProbabilityBGreaterThanAMonteCarlo _ _ _ _ _ k)
    as [[p k1] |]; [| reflexivity].
  destruct (calculateExpectedLoss _ _ _ _ _ k1) as [[l k2] |];
    [| reflexivity].
  destruct (stop_condition p threshold); [reflexivity |].
  apply IH. intros j Hj. apply Hagree. lia.
Qed.

(** The random numbers each call draws: two per iteration of a sampling
    loop. *)
Lemma monteCarloSample_draws (rng : nat -> R) (fuel : nat)
    (this : BayesianCalculator) (posterior : BetaParams) (n : nat)
    (k : nat) (l : list R) (k' : nat) :
  monteCarloSample rng fuel this posterior (Some n) k = Some (l, k') ->
  (k + 2 * n <= k' <= k + 2 * (n * fuel))%nat.
Proof.
  destruct posterior as [a b]. unfold monteCarloSample; cbn [JS.arg_or].
  generalize (@nil R) as acc. revert k.
  induction n as [| n IH]; intros k acc H.
  - inversion H; subst. lia.
  - rewrite monteCarloSample_loop_S in H.
    destruct (sampleBeta rng fuel a b k) as [[s k1] |] eqn:Hs;
      [| discriminate].
    destruct (sampleBeta_returns rng fuel a b k k1 s Hs) as (j & Hj & Hk1 & _).
    apply IH in H. nia.
Qed.

Lemma calculateProbability_draws (rng : nat -> R) (fuel : nat)
    (this : BayesianCalculator) (pA pB : BetaParams)
    (k k' : nat) (p : JS.number) :
  let n := monteCarloSamples this in
  calculateProbabilityBGreaterThanAMonteCarlo rng fuel this pA pB k =
    Some (p, k') ->
  (k + 4 * n <= k' <= k + 4 * (n * fuel))%nat.
Proof.
  intros n H.
  destruct (calculateProbability_inv rng fuel this pA pB k k' p H)
    as (sA & k1 & sB & HA & HB & _).
  apply monteCarloSample_draws in HA, HB. fold n in HA, HB. lia.
Qed.

Lemma calculateExpectedLoss_draws (rng : nat -> R) (fuel : nat)
    (this : BayesianCalculator) (pA pB : BetaParams)
    (k k' : nat) (r : Loss.t) :
  let n := monteCarloSamples this in
  calculateExpectedLoss rng fuel this pA pB k = Some (r, k') ->
  (k + 8 * n <= k' <= k + 8 * (n * fuel))%nat.
Proof.
  intros n H.
  destruct (calculateExpectedLoss_inv rng fuel this pA pB k k' r H)
    as (p & k2 & sA & k3 & sB & HP & HA & HB & _).
  apply calculateProbability_draws in HP.
  apply monteCarloSample_draws in HA, HB. fold n in HP, HA, HB. lia.
Qed.

Lemma sequentialTest_loop_draws (rng : nat -> R) (fuel : nat)
    (this : BayesianCalculator) (dataA dataB : list Observation)
    (threshold : R) (steps : nat) :
  let n := monteCarloSamples this in
  forall (i : nat) (acc : list Step.t) (k : nat)
         (res : list Step.t) (k' : nat),
    sequentialTest_loop rng fuel this dataA dataB threshold steps i acc k
      = Some (res, k') ->
    (length acc <= length res)%nat /\
    (k + 12 * n * (length res - length acc) <= k'
     <= k + 12 * (n * fuel) * (length res - length acc))%nat.
Proof.
  intros n.
  induction steps as [| steps IH]; intros i acc k res k' Hrun.
  - inversion Hrun; subst. rewrite Nat.sub_diag. lia.
  - rewrite sequentialTest_loop_S in Hrun. cbv zeta in Hrun.
    destruct (calculateProbabilityBGreaterThanAMonteCarlo _ _ _ _ _ k)
      as [[p k1] |] eqn:HP; [| discriminate].
    destruct (calculateExpectedLoss _ _ _ _ _ k1) as [[l k2] |] eqn:HL;
      [| discriminate].
    apply calculateProbability_draws in HP.
    apply calculateExpectedLoss_draws in HL. fold n in HP, HL.
    destruct (stop_condition p threshold).
    + inversion Hrun; subst. rewrite length_app. cbn [length].
      replace (length acc + 1 - length acc)%nat with 1%nat by lia. lia.
    + apply IH in Hrun. rewrite length_app in Hrun. cbn [length] in Hrun.
      destruct Hrun as [Hlen Hk].
      split; [lia |].
      replace (length res - length acc)%nat
        with (S (length res - (length acc + 1)))%nat by lia.
      nia.
Qed.

(** Fewer iterations give the records of the first iterations. *)
Lemma sequentialTest_loop_truncate (rng : nat -> R) (fuel : nat)
    (this : BayesianCalculator) (dataA dataB : list Observation)
    (threshold : R) (steps : nat) :
  forall (i : nat) (acc : list Step.t) (k : nat)
         (res : list Step.t) (k' : nat),
    sequentialTest_loop rng fuel this dataA dataB threshold steps i acc k
      = Some (res, k') ->
    forall m, (m <= steps)%nat ->
      exists k'' : nat,
        sequentialTest_loop rng fuel this dataA dataB threshold m i acc k
          = Some (firstn (length acc + m) res, k'') /\ (k'' <= k')%nat.
Proof.
  induction steps as [| steps IH]; intros i acc k res k' Hrun m Hm.
  - replace m with 0%nat by lia. inversion Hrun; subst.
    exists k'. rewrite Nat.add_0_r, firstn_all. split; [reflexivity | lia].
  - destruct m as [| m].
    + destruct (sequentialTest_loop_spec _ _ _ _ _ _ _ _ _ _ _ _ Hrun)
        as (new & E & _).
      destruct (sequentialTest_loop_draws _ _ _ _ _ _ _ _ _ _ _ _ Hrun)
        as [_ Hk].
      exists k. cbn [sequentialTest_loop ret].
      rewrite Nat.add_0_r, E, firstn_app, Nat.sub_diag, firstn_all.
      cbn [firstn]. rewrite app_nil_r.
      split; [reflexivity |].
      destruct Hk as [Hk _].
      apply Nat.le_trans with (2 := Hk). apply Nat.le_add_r.
    + rewrite sequentialTest_loop_S in Hrun |- *. cbv zeta in Hrun |- *.
      destruct (calculateProbabilityBGreaterThanAMonteCarlo _ _ _ _ _ k)
        as [[p k1] |]; [| discriminate].
      destruct (calculateExpectedLoss _ _ _ _ _ k1) as [[l k2] |];
        [| discriminate].
      destruct (stop_condition p threshold).
      * inversion Hrun; subst. exists k'.
        rewrite firstn_all2 by (rewrite length_app; simpl; lia).
        split; [reflexivity | lia].
      * destruct (IH _ _ _ _ _ Hrun m ltac:(lia)) as (k'' & E & Hk).
        exists k''. rewrite E, length_app. cbn [length].
        replace (length acc + 1 + m)%nat with (length acc + S m)%nat by lia.
        split; [reflexivity | exact Hk].
Qed.

Lemma sequentialTest_nonempty (rng : nat -> R) (fuel : nat)
    (this : BayesianCalculator) (dataA dataB : list Observation)
    (threshold : option R) (k : nat) (results : list Step.t) (k' : nat) :
  dataA <> [] -> dataB <> [] ->
  sequentialTest rng fuel this dataA dataB threshold k = Some (results, k') ->
  results <> [] /\
  (length results <= Nat.min (length dataA) (length dataB))%nat.
Proof.
  intros HA HB Hrun. unfold sequentialTest in Hrun.
  apply sequentialTest_loop_spec in Hrun.
  destruct Hrun as (new & E & Hlen & _ & _ & Hlast).
  simpl in E; subst new.
  split; [| exact Hlen].
  intros Enil. subst results.
  destruct dataA as [| a dataA]; [congruence |].
  destruct dataB as [| b dataB]; [congruence |].
  destruct Hlast as (last & Hn & _); [simpl; lia |].
  simpl in Hn. discriminate.
Qed.

(** X15: the dashboard's sequential results are [null] exactly when one
    arm's series is empty (the test itself would return the empty list
    without drawing a random number); otherwise a returning test gives a
    list that is not empty and not longer than the shorter series. *)
Theorem sequentialResults_null_or_nonempty (rng : nat -> R) (fuel : nat)
    (calculator : BayesianCalculator) (sequentialData : SequentialData.t)
    (k : nat) :
  let dataA := SequentialData.variantA sequentialData in
  let dataB := SequentialData.variantB sequentialData in
  (dataA = [] \/ dataB = [] ->
   sequentialResults rng fuel calculator sequentialData k = Some (None, k) /\
   sequentialTest rng fuel calculator dataA dataB (Some 0.95) k
     = Some ([], k)) /\
  (dataA <> [] -> dataB <> [] ->
   forall out k',
     sequentialResults rng fuel calculator sequentialData k = Some (out, k') ->
     exists results,
       out = Some results /\ results <> [] /\
       (length results <= Nat.min (length dataA) (length dataB))%nat /\
       sequentialTest rng fuel calculator dataA dataB (Some 0.95) k
         = Some (results, k')).
Proof.
  intros dataA dataB. unfold sequentialResults. fold dataA dataB.
  split.
  - intros Hempty.
    assert (Hmin : Nat.min (length dataA) (length dataB) = 0%nat).
    { destruct Hempty as [E | E]; rewrite E; simpl; lia. }
    split.
    + destruct Hempty as [E | E]; rewrite E; simpl;
        [| rewrite orb_true_r]; reflexivity.
    + unfold sequentialTest. rewrite Hmin. reflexivity.
  - intros HA HB out k' Hrun.
    destruct dataA as [| a dataA'] eqn:EA; [congruence |].
    destruct dataB as [| b dataB'] eqn:EB; [congruence |].
    cbn [length Nat.eqb orb] in Hrun.
    rewrite bind_unfold in Hrun.
    destruct (sequentialTest rng fuel calculator (a :: dataA') (b :: dataB')
                (Some 0.95) k) as [[results k1] |] eqn:Ht; [| discriminate].
    inversion Hrun; subst.
    destruct (sequentialTest_nonempty _ _ _ _ _ _ _ _ _ HA HB Ht)
      as [Hne Hlen].
    exists results. repeat split; assumption.
Qed.

Lemma sequentialResults_null_or_nonempty_witness :
  sequentialResults rng_seq 1 (uniform_calculator 2)
    {| SequentialData.variantA := seq_dataA;
       SequentialData.variantB := [] |} 0%nat = Some (None, 0%nat).
Proof.
  apply (sequentialResults_null_or_nonempty rng_seq 1 (uniform_calculator 2)
           {| SequentialData.variantA := seq_dataA;
              SequentialData.variantB := [] |} 0).
  right; reflexivity.
Defined.

(** X16: each record costs six arrays of [n] samples: a returning test
    that emits [r] records has drawn at least [12 n r] random numbers and
    at most [12 n r fuel]. *)
Theorem sequentialTest_draws (rng : nat -> R) (fuel : nat)
    (this : BayesianCalculator) (dataA dataB : list Observation)
    (threshold : option R) (k : nat) (results : list Step.t) (k' : nat) :
  let n := monteCarloSamples this in
  sequentialTest rng fuel this dataA dataB threshold k = Some (results, k') ->
  (k + 12 * n * length results <= k'
   <= k + 12 * (n * fuel) * length results)%nat.
Proof.
  intros n Hrun. unfold sequentialTest in Hrun.
  apply sequentialTest_loop_draws in Hrun.
  cbn [length] in Hrun. rewrite Nat.sub_0_r in Hrun. apply Hrun.
Qed.

Lemma sequentialTest_draws_witness :
  (0 + 12 * 2 * length [seq_record 0; seq_record 1] <= 48
   <= 0 + 12 * (2 * 1) * length [seq_record 0; seq_record 1])%nat.
Proof.
  apply (sequentialTest_draws rng_seq 1 (uniform_calculator 2)
           seq_dataA seq_dataB None 0 _ 48 sequentialTest_two_step_run).
Defined.

(** X17: observations beyond the length of the shorter list play no part:
    appending entries to the list that is not the shorter one leaves the
    result unchanged. *)
Theorem sequentialTest_ignores_surplus (rng : nat -> R) (fuel : nat)
    (this : BayesianCalculator) (dataA dataB surplus : list Observation)
    (threshold : option R) (k : nat) :
  ((length dataB <= length dataA)%nat ->
   sequentialTest rng fuel this (dataA ++ surplus) dataB threshold k =
   sequentialTest rng fuel this dataA dataB threshold k) /\
  ((length dataA <= length dataB)%nat ->
   sequentialTest rng fuel this dataA (dataB ++ surplus) threshold k =
   sequentialTest rng fuel this dataA dataB threshold k).
Proof.
  split; intros Hlen; unfold sequentialTest; rewrite length_app.
  - replace (Nat.min (length dataA + length surplus) (length dataB))
      with (Nat.min (length dataA) (length dataB)) by lia.
    apply sequentialTest_loop_data. intros j Hj.
    split; [apply app_nth1; lia | reflexivity].
  - replace (Nat.min (length dataA) (length dataB + length surplus))
      with (Nat.min (length dataA) (length dataB)) by lia.
    apply sequentialTest_loop_data. intros j Hj.
    split; [reflexivity | apply app_nth1; lia].
Qed.

Lemma sequentialTest_ignores_surplus_witness :
  sequentialTest rng_seq 1 (uniform_calculator 2)
    (seq_dataA ++ [mkObservation 7 9]) seq_dataB None 0%nat =
  Some ([seq_record 0; seq_record 1], 48%nat).
Proof.
  rewrite <- sequentialTest_two_step_run.
  apply (sequentialTest_ignores_surplus rng_seq 1 (uniform_calculator 2)
           seq_dataA seq_dataB [mkObservation 7 9] None 0).
  simpl; lia.
Defined.

(** X18: the test is a one-pass scan: run on the first [m] entries of both
    lists, it returns the first [m] records of the run on the whole lists
    (all of them when that run stopped earlier), having drawn no more
    random numbers. *)
Theorem sequentialTest_prefix (rng : nat -> R) (fuel : nat)
    (this : BayesianCalculator) (dataA dataB : list Observation)
    (threshold : option R) (k : nat) (results : list Step.t) (k' : nat)
    (m : nat) :
  sequentialTest rng fuel this dataA dataB threshold k = Some (results, k') ->
  exists k'' : nat,
    sequentialTest rng fuel this (firstn m dataA) (firstn m dataB) threshold k
      = Some (firstn m results, k'') /\
    (k'' <= k')%nat.
Proof.
  intros Hrun. unfold sequentialTest in Hrun |- *.
  set (thr := JS.arg_or 0.95 threshold) in *.
  set (steps := Nat.min (length dataA) (length dataB)) in *.
  rewrite !length_firstn.
  set (m' := Nat.min (Nat.min m (length dataA)) (Nat.min m (length dataB))).
  assert (Hm' : m' = Nat.min m steps) by (unfold m', steps; lia).
  destruct (sequentialTest_loop_truncate _ _ _ _ _ _ _ _ _ _ _ _ Hrun m')
    as (k'' & E & Hk); [lia |].
  exists k''. split; [| exact Hk].
  rewrite (sequentialTest_loop_data rng fuel this
             (firstn m dataA) (firstn m dataB) dataA dataB).
  - rewrite E. cbn [length Nat.add]. f_equal. f_equal.
    destruct (sequentialTest_loop_spec _ _ _ _ _ _ _ _ _ _ _ _ Hrun)
      as (new & En & Hlen & _).
    simpl in En; subst new.
    destruct (Nat.le_gt_cases m steps).
    + f_equal. lia.
    + rewrite !firstn_all2 by lia. reflexivity.
  - intros j Hj.
    assert (Hnth : forall l : list Observation, (j < length l)%nat ->
              nth j (firstn m l) (mkObservation 0 0) =
              nth j l (mkObservation 0 0)).
    { intros l Hl.
      transitivity (nth j (firstn m l ++ skipn m l) (mkObservation 0 0)).
      - symmetry. apply app_nth1. rewrite length_firstn. lia.
      - rewrite firstn_skipn. reflexivity. }
    split; apply Hnth; lia.
Qed.

Lemma sequentialTest_prefix_witness :
  exists k'' : nat,
    sequentialTest rng_seq 1 (uniform_calculator 2)
      (firstn 1 seq_dataA) (firstn 1 seq_dataB) None 0%nat
      = Some ([seq_record 0], k'') /\
    (k'' <= 48)%nat.
Proof.
  apply (sequentialTest_prefix rng_seq 1 (uniform_calculator 2)
           seq_dataA seq_dataB None 0 [seq_record 0; seq_record 1] 48 1
           sequentialTest_two_step_run).
Defined.

Lemma sequentialTest_loop_zero_samples (rng : nat -> R) (fuel : nat)
    (alpha0 beta0 : R) (dataA dataB : list Observation) (threshold : R)
    (steps : nat) :
  let this := {| this_alpha := alpha0; this_beta := beta0;
                 monteCarloSamples := 0%nat |} in
  let nan_loss := {| Loss.lossA := JS.NaN; Loss.lossB := JS.NaN;
                     Loss.probBGreater := JS.NaN |} in
  forall (i : nat) (acc : list Step.t) (k : nat),
    sequentialTest_loop rng fuel this dataA dataB threshold steps i acc k =
    Some (acc ++
          map (fun j => step_record this dataA dataB threshold j
                          JS.NaN nan_loss) (seq i steps), k).
Proof.
  intros this nan_loss.
  induction steps as [| steps IH]; intros i acc k.
  - cbn. rewrite app_nil_r. reflexivity.
  - rewrite sequentialTest_loop_S. cbv zeta.
    rewrite !calculatePosterior_unfold.
    assert (EP : forall pa pb qa qb k0,
              calculateProbabilityBGreaterThanAMonteCarlo rng fuel this
                {| alpha := pa; beta := pb |} {| alpha := qa; beta := qb |} k0
              = Some (JS.NaN, k0)).
    { intros. rewrite <- JS_div_0_0. reflexivity. }
    assert (EL : forall pa pb qa qb k0,
              calculateExpectedLoss rng fuel this
                {| alpha := pa; beta := pb |} {| alpha := qa; beta := qb |} k0
              = Some (nan_loss, k0)).
    { intros. unfold calculateExpectedLoss. rewrite bind_unfold, EP.
      unfold nan_loss. rewrite <- JS_div_0_0. reflexivity. }
    rewrite EP, EL.
    change (stop_condition JS.NaN threshold) with false. cbv iota.
    rewrite IH, <- app_assoc. reflexivity.
Qed.

(** X19: with the sample count set to 0 the sequential test always returns,
    draws no random number and never stops early: it emits one record per
    step of the shorter list, each with NaN for the probability and the
    losses and with [shouldStop = false]. *)
Theorem sequentialTest_zero_samples (rng : nat -> R) (fuel : nat)
    (alpha0 beta0 : R) (dataA dataB : list Observation)
    (threshold : option R) (k : nat) :
  let this := {| this_alpha := alpha0; this_beta := beta0;
                 monteCarloSamples := 0%nat |} in
  exists results : list Step.t,
    sequentialTest rng fuel this dataA dataB threshold k = Some (results, k) /\
    length results = Nat.min (length dataA) (length dataB) /\
    forall r, In r results ->
      Step.probBGreater r = JS.NaN /\
      Loss.lossA (Step.expectedLoss r) = JS.NaN /\
      Loss.lossB (Step.expectedLoss r) = JS.NaN /\
      Step.shouldStop r = false.
Proof.
  intros this. unfold sequentialTest.
  rewrite (sequentialTest_loop_zero_samples rng fuel alpha0 beta0).
  eexists; split; [reflexivity |].
  cbn [app]. split; [rewrite length_map, length_seq; reflexivity |].
  intros r Hin. apply in_map_iff in Hin. destruct Hin as (j & Er & _).
  subst r. repeat split.
Qed.

(** ** The dashboard *)

Module DashboardFacts.
Import String.
Local Open Scope string_scope.

(** X20: the recommendation of the dashboard.  Without results it is
    [null].  For an estimate [p] in [0,1] it names B exactly when
    [p > 0.8], A exactly when [p < 0.2], and is inconclusive otherwise; the
    confidence is High exactly when a variant is named; the probability
    reported is that of the named variant and always at least 1/2, above
    0.8 when a variant is named and at most 0.8 otherwise.  For the
    estimate NaN it is inconclusive, with probability NaN. *)
Theorem getRecommendation_cases (p : R) (loss : Loss.t) :
  0 <= p <= 1 ->
  Dashboard.getRecommendation None = None /\
  (exists rec : Recommendation.t,
     Dashboard.getRecommendation (Some (JS.NaN, loss)) = Some rec /\
     Recommendation.variant rec = "Inconclusive" /\
     Recommendation.probability rec = JS.NaN) /\
  exists (rec : Recommendation.t) (q : R),
    Dashboard.getRecommendation (Some (JS.Fin p, loss)) = Some rec /\
    Recommendation.probability rec = JS.Fin q /\
    1 / 2 <= q <= 1 /\
    (Recommendation.variant rec = "B" <-> 0.8 < p) /\
    (Recommendation.variant rec = "A" <-> p < 0.2) /\
    (Recommendation.variant rec = "Inconclusive" <-> 0.2 <= p <= 0.8) /\
    (Recommendation.variant rec = "B" -> q = p /\
       Recommendation.expectedLoss rec = Loss.lossA loss) /\
    (Recommendation.variant rec = "A" -> q = 1 - p /\
       Recommendation.expectedLoss rec = Loss.lossB loss) /\
    (Recommendation.confidence rec = "High" <-> 0.8 < q) /\
    (Recommendation.confidence rec = "Low" <->
       Recommendation.variant rec = "Inconclusive").
Proof.
  intros Hp.
  split; [reflexivity |].
  split; [eexists; repeat split |].
  unfold Dashboard.getRecommendation, Number.gt, Number.lt.
  destruct (Rgt_dec p 0.8) as [Hb | Hb].
  - eexists; exists p. split; [reflexivity |].
    cbn [Recommendation.variant Recommendation.confidence
         Recommendation.probability Recommendation.expectedLoss].
    repeat split; intros; try discriminate; try lra; auto.
  - destruct (Rlt_dec p 0.2) as [Ha | Ha].
    + eexists; exists (1 - p). split; [reflexivity |].
      cbn [Recommendation.variant Recommendation.confidence
           Recommendation.probability Recommendation.expectedLoss].
      repeat split; intros; try discriminate; try lra; auto.
    + eexists; exists (Rmax p (1 - p)). split; [reflexivity |].
      cbn [Recommendation.variant Recommendation.confidence
           Recommendation.probability Recommendation.expectedLoss].
      assert (Hq : 1 / 2 <= Rmax p (1 - p) <= 0.8).
      { split.
        - destruct (Rle_dec p (1 / 2)).
          + apply Rle_trans with (1 - p); [lra | apply Rmax_r].
          + apply Rle_trans with p; [lra | apply Rmax_l].
        - apply Rmax_lub; lra. }
      repeat split; intros; try discriminate; try lra; auto.
Qed.

Lemma getRecommendation_cases_witness :
  exists (rec : Recommendation.t) (q : R),
    Dashboard.getRecommendation (Some (JS.Fin (1 / 2), seq_loss)) = Some rec /\
    Recommendation.probability rec = JS.Fin q /\
    1 / 2 <= q <= 1.
Proof.
  destruct (getRecommendation_cases (1 / 2) seq_loss)
    as (_ & _ & rec & q & E & Eq & Hq & _); [lra |].
  exists rec, q. repeat split; tauto.
Defined.

(** X21: the preview of a prior's impact.  The effective sample size
    [max(0, alpha + beta - 2)] is never negative and the confidence
    [min(1, (alpha + beta - 2) / 10)] never exceeds 1, reaching 1 from
    [alpha + beta = 12] on; but the confidence is not bounded below: it
    is negative exactly when [alpha + beta < 2], which among the presets
    happens for the Jeffreys prior alone.  Mean and variance are those the
    calculator computes. *)
Theorem calculatePriorImpact_bounds (a b : R) :
  let impact := calculatePriorImpact a b in
  0 <= PriorImpact.effectiveSampleSize impact /\
  (PriorImpact.effectiveSampleSize impact = 0 <-> a + b <= 2) /\
  PriorImpact.confidence impact <= 1 /\
  (PriorImpact.confidence impact = 1 <-> 12 <= a + b) /\
  (PriorImpact.confidence impact < 0 <-> a + b < 2) /\
  PriorImpact.mean impact =
    calculateExpectedValue {| alpha := a; beta := b |} /\
  PriorImpact.variance impact =
    calculateVariance {| alpha := a; beta := b |} /\
  (forall name prior, In (name, prior) Dashboard.priorPresets ->
     positive_shapes prior /\
     (PriorImpact.confidence
        (calculatePriorImpact (alpha prior) (beta prior)) < 0
      <-> name = "jeffreys")).
Proof.
  intros impact.
  unfold impact, calculatePriorImpact, Math.max, Math.min.
  cbn [PriorImpact.effectiveSampleSize PriorImpact.confidence
       PriorImpact.mean PriorImpact.variance].
  split; [apply Rmax_l |].
  split.
  { split; intros H.
    - pose proof (Rmax_r 0 (a + b - 2)). lra.
    - apply Rmax_left. lra. }
  split; [apply Rmin_l |].
  split.
  { split; intros H.
    - pose proof (Rmin_r 1 ((a + b - 2) / 10)). lra.
    - apply Rmin_left. lra. }
  split.
  { split; intros H.
    - destruct (Rle_dec 1 ((a + b - 2) / 10)) as [L | L].
      + rewrite Rmin_left in H by exact L. lra.
      + rewrite Rmin_right in H by lra. lra.
    - rewrite Rmin_right by lra. lra. }
  split; [reflexivity |].
  split; [reflexivity |].
  intros name prior Hin.
  assert (Conf : forall x y, x + y < 12 ->
            Rmin 1 ((x + y - 2) / 10) = (x + y - 2) / 10)
    by (intros; apply Rmin_right; lra).
  unfold Dashboard.priorPresets in Hin. cbn [In] in Hin.
  unfold positive_shapes.
  repeat (destruct Hin as [Hin | Hin];
          [inversion Hin; subst; cbn [alpha beta];
           rewrite Conf by lra;
           split; [lra | split; intros; try discriminate; try reflexivity; lra]
          |]).
  contradiction.
Qed.

Lemma calculatePriorImpact_bounds_witness :
  positive_shapes {| alpha := 0.5; beta := 0.5 |} /\
  PriorImpact.confidence (calculatePriorImpact 0.5 0.5) < 0.
Proof.
  destruct (calculatePriorImpact_bounds 1 1) as (_ & _ & _ & _ & _ & _ & _ & H).
  destruct (H "jeffreys" {| alpha := 0.5; beta := 0.5 |}) as [Hp Hc].
  - right; left; reflexivity.
  - split; [exact Hp | apply Hc; reflexivity].
Defined.

End DashboardFacts.

(** ** The input component of the sequential test *)

Lemma mapi_from_length {A B : Type} (f : A -> nat -> B) (l : list A) :
  forall i, length (mapi_from i f l) = length l.
Proof.
  induction l as [| x l IH]; intros i; cbn; [reflexivity |].
  rewrite IH. reflexivity.
Qed.

Lemma mapi_from_nth_error {A B : Type} (f : A -> nat -> B) (l : list A) :
  forall i j,
    nth_error (mapi_from i f l) j =
    option_map (fun x => f x (i + j)%nat) (nth_error l j).
Proof.
  induction l as [| x l IH]; intros i j; cbn.
  - destruct j; reflexivity.
  - destruct j as [| j]; cbn.
    + rewrite Nat.add_0_r. reflexivity.
    + rewrite IH. replace (S i + j)%nat with (i + S j)%nat by lia.
      reflexivity.
Qed.

Lemma mapi_from_id {A : Type} (f : A -> nat -> A) (l : list A) :
  forall i,
    (forall x j, (i <= j < i + length l)%nat -> f x j = x) ->
    mapi_from i f l = l.
Proof.
  induction l as [| x l IH]; intros i H; cbn; [reflexivity |].
  rewrite H by (cbn; lia). f_equal.
  apply IH. intros y j Hj. apply H. cbn. lia.
Qed.

Lemma filteri_from_past {A : Type} (index : nat) (l : list A) :
  forall i, (index < i)%nat ->
    filteri_from i (fun _ j => negb (j =? index)%nat) l = l.
Proof.
  induction l as [| x l IH]; intros i Hi; cbn [filteri_from]; [reflexivity |].
  destruct (Nat.eqb_spec i index) as [E | N]; [lia |]. cbn [negb].
  f_equal. apply IH. lia.
Qed.

Lemma filteri_from_remove {A : Type} (index : nat) (l : list A) :
  forall i, (i <= index)%nat ->
    filteri_from i (fun _ j => negb (j =? index)%nat) l =
    firstn (index - i) l ++ skipn (S (index - i)) l.
Proof.
  induction l as [| x l IH]; intros i Hi; cbn [filteri_from].
  - rewrite firstn_nil. reflexivity.
  - destruct (Nat.eqb_spec i index) as [E | N]; cbn [negb].
    + subst i. rewrite Nat.sub_diag. cbn [firstn skipn app].
      apply filteri_from_past. lia.
    + rewrite IH by lia.
      replace (index - i)%nat with (S (index - S i))%nat by lia.
      reflexivity.
Qed.

Module SequentialTestInputFacts.
Import SequentialTestInput.

Lemma get_set (v v' : Variant) (points : list Observation)
    (prev : SequentialData.t) :
  get v' (set v points prev) = if
    match v, v' with
    | VariantA, VariantA | VariantB, VariantB => true
    | _, _ => false
    end then points else get v' prev.
Proof. destruct v, v'; reflexivity. Qed.

Lemma set_get (v : Variant) (prev : SequentialData.t) :
  set v (get v prev) prev = prev.
Proof. destruct v, prev; reflexivity. Qed.

(** X22: adding a data point appends the point (0, 0) to the chosen arm
    and leaves the other arm as it is; removing the point at an index
    deletes that entry alone and keeps the order of the others, and does
    nothing when the index is past the end; removing the point just added
    restores the state. *)
Theorem add_remove_data_point (v : Variant) (index : nat)
    (prev : SequentialData.t) :
  let points := get v prev in
  get v (addDataPoint v prev) = points ++ [ {| successes := 0; trials := 0 |} ]
  /\
  (forall v', v' <> v ->
     get v' (addDataPoint v prev) = get v' prev /\
     get v' (removeDataPoint v index prev) = get v' prev) /\
  get v (removeDataPoint v index prev) =
    firstn index points ++ skipn (S index) points /\
  ((index < length points)%nat ->
   length (get v (removeDataPoint v index prev)) = (length points - 1)%nat) /\
  ((length points <= index)%nat -> removeDataPoint v index prev = prev) /\
  removeDataPoint v (length points) (addDataPoint v prev) = prev.
Proof.
  intros points.
  assert (Hrem : forall l : list Observation,
            filteri_from 0 (fun _ j => negb (j =? index)%nat) l =
            firstn index l ++ skipn (S index) l).
  { intros l. rewrite filteri_from_remove by lia.
    rewrite Nat.sub_0_r. reflexivity. }
  split; [destruct v; reflexivity |].
  split; [intros v' Hv; destruct v, v'; try congruence; split; reflexivity |].
  assert (Eget : get v (removeDataPoint v index prev) =
                 firstn index points ++ skipn (S index) points).
  { unfold removeDataPoint. rewrite Hrem. destruct v; reflexivity. }
  split; [exact Eget |].
  split.
  { intros Hlt. rewrite Eget, length_app, length_firstn, length_skipn. lia. }
  split.
  { intros Hge. unfold removeDataPoint. rewrite Hrem.
    fold points. rewrite firstn_all2, skipn_all2 by lia.
    rewrite app_nil_r. apply set_get. }
  unfold removeDataPoint.
  rewrite filteri_from_remove by lia. rewrite Nat.sub_0_r.
  assert (E : get v (addDataPoint v prev) =
              points ++ [ {| successes := 0; trials := 0 |} ])
    by (destruct v; reflexivity).
  rewrite E.
  rewrite firstn_app, Nat.sub_diag, firstn_all. cbn [firstn].
  rewrite skipn_all2 by (rewrite length_app; cbn; lia).
  rewrite !app_nil_r.
  destruct v, prev; reflexivity.
Qed.

Lemma add_remove_data_point_witness :
  let prev := {| SequentialData.variantA := seq_dataA;
                 SequentialData.variantB := seq_dataB |} in
  removeDataPoint VariantA 5 prev = prev /\
  length (get VariantA (removeDataPoint VariantA 0 prev)) = 1%nat.
Proof.
  intros prev.
  destruct (add_remove_data_point VariantA 5 prev) as (_ & _ & _ & _ & H5 & _).
  destruct (add_remove_data_point VariantA 0 prev) as (_ & _ & _ & H0 & _).
  split; [apply H5; simpl; lia | apply H0; simpl; lia].
Defined.

(** X23: an update rewrites one field of one data point.  The arm keeps
    its length, every other point and the other arm are unchanged, and the
    point at the index keeps its other field; the value stored is the
    integer [parseInt] returns, or 0 when it returns NaN, so it is never
    NaN but may be negative; an index past the end changes nothing; and
    the same update applied twice equals one application. *)
Theorem update_data_point (parseInt : String.string -> option Z)
    (v : Variant) (index : nat) (field : Field) (value : String.string)
    (prev : SequentialData.t) :
  let next := updateDataPoint parseInt v index field value prev in
  let stored := or_zero (parseInt value) in
  length (get v next) = length (get v prev) /\
  (forall v', v' <> v -> get v' next = get v' prev) /\
  (forall j, j <> index -> nth_error (get v next) j = nth_error (get v prev) j)
  /\
  (forall point, nth_error (get v prev) index = Some point ->
     nth_error (get v next) index = Some (set_field field stored point) /\
     match field with
     | Successes => successes (set_field field stored point) = stored /\
                    trials (set_field field stored point) = trials point
     | Trials => trials (set_field field stored point) = stored /\
                 successes (set_field field stored point) = successes point
     end) /\
  (exists z : Z, stored = IZR z) /\
  ((length (get v prev) <= index)%nat -> next = prev) /\
  updateDataPoint parseInt v index field value next = next.
Proof.
  intros next stored.
  set (f := fun (point : Observation) (i : nat) =>
              if (i =? index)%nat then set_field field stored point
              else point).
  assert (Eget : get v next = mapi_from 0 f (get v prev))
    by (destruct v; reflexivity).
  split; [rewrite Eget; apply mapi_from_length |].
  split; [intros v' Hv; destruct v, v'; try congruence; reflexivity |].
  split.
  { intros j Hj. rewrite Eget, mapi_from_nth_error. cbn [Nat.add].
    destruct (nth_error (get v prev) j) as [pt |]; [| reflexivity].
    cbn. unfold f. destruct (Nat.eqb_spec j index); [congruence | reflexivity]. }
  split.
  { intros point Hpt. split.
    - rewrite Eget, mapi_from_nth_error, Hpt. cbn. unfold f.
      rewrite Nat.eqb_refl. reflexivity.
    - destruct field; split; reflexivity. }
  split.
  { unfold stored, or_zero. destruct (parseInt value) as [z |].
    - exists z; reflexivity.
    - exists 0%Z; reflexivity. }
  split.
  { intros Hge. unfold next, updateDataPoint. fold stored. fold f.
    rewrite mapi_from_id; [apply set_get |].
    intros x j Hj. unfold f.
    destruct (Nat.eqb_spec j index); [lia | reflexivity]. }
  unfold updateDataPoint at 1. fold stored. fold f. rewrite Eget.
  assert (Idem : forall l i, mapi_from i f (mapi_from i f l) = mapi_from i f l).
  { induction l as [| x l IH]; intros i; cbn; [reflexivity |].
    rewrite IH. f_equal. unfold f.
    destruct (i =? index)%nat; [| reflexivity].
    destruct field; reflexivity. }
  rewrite Idem.
  unfold next, updateDataPoint. fold stored. fold f.
  destruct v; reflexivity.
Qed.

Lemma update_data_point_witness :
  let prev := {| SequentialData.variantA := seq_dataA;
                 SequentialData.variantB := seq_dataB |} in
  updateDataPoint (fun _ => None) VariantB 2 Trials String.EmptyString prev
    = prev.
Proof.
  intros prev.
  destruct (update_data_point (fun _ => None) VariantB 2 Trials
              String.EmptyString prev) as (_ & _ & _ & _ & _ & Hpast & _).
  apply Hpast. simpl; lia.
Defined.

End SequentialTestInputFacts.

(** ** The sample size calculator of the dashboard *)

Lemma inverseNormalCDF_upper_half_pos (p : R) :
  0.5 < p < 1 -> 0 < inverseNormalCDF p.
Proof.
  intros [Hlo Hhi].
  unfold inverseNormalCDF.
  destruct (Rlt_dec p InvNorm.p_low) as [Hl | _].
  { unfold InvNorm.p_low in Hl; lra. }
  destruct (Rle_dec p InvNorm.p_high) as [Hc | Ht].
  - unfold InvNorm.p_high, InvNorm.p_low in Hc.
    set (q := p - 0.5).
    assert (Hq : 0 < q <= 0.47575) by (unfold q; lra).
    assert (Hr : 0 <= q * q < 0.2264) by nra.
    pose proof (central_num_pos _ Hr) as HN.
    pose proof (central_den_pos _ Hr) as HD.
    apply Rdiv_lt_0_compat; [apply Rmult_lt_0_compat; lra | exact HD].
  - assert (Hp : InvNorm.p_high < p < 1) by lra.
    pose proof (upper_tail_argument p Hp) as Hq.
    set (q := Math.sqrt (-2 * Math.log (1 - p))) in *.
    pose proof (tail_num_neg q Hq) as HN.
    assert (HD : 0 < InvNorm.tail_den q) by (apply tail_den_pos; lra).
    apply Rdiv_lt_0_compat; [lra | exact HD].
Qed.

Module SampleSizeFacts.
Import String.
Local Open Scope string_scope.

(** X24: for rates in (0,1) with a lift other than 0, a significance level
    in (0,1), a power in [1/2, 1) and a positive daily traffic, the sample
    size per variant is a positive whole number and the total is twice
    it.  The duration shown is the expected duration capped at the
    maximum, so the test [actualDuration <= maxDuration] can fail only
    when it compares NaN: the feasibility is 'challenging' exactly when
    [maxDuration] is NaN, as it is once the field is emptied, and then the
    duration and the sample shown are NaN; for every number it is
    'feasible', also when less than the total sample can be collected
    within the cap, and the sample shown is the whole total whenever the
    expected duration fits the cap. *)
Theorem calculateSampleSize_feasibility (state : SampleSizeState.t) :
  let p1 := SampleSizeState.baselineRate state in
  let p2 := p1 * (1 + SampleSizeState.expectedLift state) in
  let results := DynamicSampleSizeCalculator.calculateSampleSize state in
  0 < p1 < 1 -> 0 < p2 < 1 -> p1 <> p2 ->
  0 < SampleSizeState.alpha state < 1 ->
  0.5 <= SampleSizeState.power state < 1 ->
  0 < SampleSizeState.dailyTraffic state ->
  (exists z : Z, (1 <= z)%Z /\ SampleSizeResults.perVariant results = IZR z) /\
  SampleSizeResults.total results = 2 * SampleSizeResults.perVariant results /\
  (SampleSizeResults.feasibility results = "challenging" <->
   SampleSizeState.maxDuration state = JS.NaN) /\
  (SampleSizeState.maxDuration state <> JS.NaN ->
   SampleSizeResults.feasibility results = "feasible") /\
  (SampleSizeState.maxDuration state = JS.NaN ->
   SampleSizeResults.actualDuration results = JS.NaN /\
   SampleSizeResults.actualTotal results = JS.NaN) /\
  (forall cap : R,
     SampleSizeState.maxDuration state = JS.Fin cap ->
     let expected := SampleSizeResults.expectedDuration results in
     SampleSizeResults.actualDuration results = JS.Fin (Rmin expected cap) /\
     SampleSizeResults.actualTotal results =
       JS.Fin (Rmin (SampleSizeResults.total results)
                 (SampleSizeState.dailyTraffic state * Rmin expected cap)) /\
     (expected <= cap ->
      SampleSizeResults.actualTotal results =
        JS.Fin (SampleSizeResults.total results))).
Proof.
  intros p1 p2 results Hp1 Hp2 Hne Ha Hpow Hd.
  unfold results, DynamicSampleSizeCalculator.calculateSampleSize.
  cbv zeta.
  cbn [SampleSizeResults.feasibility SampleSizeResults.perVariant
       SampleSizeResults.total SampleSizeResults.actualDuration
       SampleSizeResults.expectedDuration SampleSizeResults.actualTotal].
  change (SampleSizeState.baselineRate state *
          (1 + SampleSizeState.expectedLift state)) with p2.
  change (SampleSizeState.baselineRate state) with p1.
  unfold DynamicSampleSizeCalculator.inverseNormalCDF.
  set (zA := inverseNormalCDF (1 - SampleSizeState.alpha state / 2)).
  set (zB := inverseNormalCDF (SampleSizeState.power state)).
  set (s1 := Math.sqrt (2 * ((p1 + p2) / 2) * (1 - (p1 + p2) / 2))).
  set (s2 := Math.sqrt (p1 * (1 - p1) + p2 * (1 - p2))).
  set (ratio := MathInt.pow2 (zA * s1 + zB * s2) / MathInt.pow2 (p2 - p1)).
  set (per := MathInt.ceil ratio).
  set (d := SampleSizeState.dailyTraffic state) in *.
  set (dur := MathInt.ceil (per * 2 / d)).
  assert (HzA : 0 < zA) by (apply inverseNormalCDF_upper_half_pos; lra).
  assert (HzB : 0 <= zB) by (apply inverseNormalCDF_upper_half_closed; lra).
  assert (Hs1 : 0 < s1).
  { apply sqrt_lt_R0. apply Rmult_lt_0_compat; lra. }
  assert (Hs2 : 0 <= s2) by apply sqrt_pos.
  assert (Hbase : 0 < zA * s1 + zB * s2).
  { pose proof (Rmult_lt_0_compat _ _ HzA Hs1).
    pose proof (Rmult_le_pos _ _ HzB Hs2). lra. }
  assert (Hratio : 0 < ratio).
  { unfold ratio, MathInt.pow2. apply Rdiv_lt_0_compat.
    - apply pow_lt; exact Hbase.
    - assert (Hd0 : p2 - p1 <> 0) by lra.
      pose proof (pow_nonzero (p2 - p1) 2 Hd0) as Hnz.
      pose proof (pow2_ge_0 (p2 - p1)) as Hge. lra. }
  pose proof (Zceil_bound ratio) as Hceil.
  fold (MathInt.ceil ratio) in Hceil. fold per in Hceil.
  pose proof (Zceil_bound (per * 2 / d)) as Hdur.
  fold (MathInt.ceil (per * 2 / d)) in Hdur. fold dur in Hdur.
  split.
  { exists (Zceil ratio). split; [| reflexivity].
    assert (H : 0 < IZR (Zceil ratio))
      by (unfold per, MathInt.ceil in Hceil; lra).
    apply lt_IZR in H. lia. }
  split; [ring |].
  destruct (SampleSizeState.maxDuration state) as [cap | | |] eqn:Emax;
    cbn [Number.min Number.le Number.rmul].
  - (* a number *)
    destruct (Rle_dec (Rmin dur cap) cap) as [_ | N];
      [| exfalso; apply N, Rmin_r].
    split; [split; intros H; discriminate |].
    split; [intros _; reflexivity |].
    split; [intros H; discriminate |].
    intros cap' [= <-]. cbv zeta.
    split; [reflexivity |]. split; [reflexivity |].
    intros Hfit. f_equal.
    rewrite (Rmin_left dur cap) by exact Hfit.
    apply Rmin_left.
    replace (per * 2) with (per * 2 / d * d) by (field; lra).
    rewrite (Rmult_comm d dur).
    apply Rmult_le_compat_r; lra.
  - (* NaN *)
    split; [split; intros _; reflexivity |].
    split; [intros H; contradiction |].
    split; [intros _; split; reflexivity |].
    intros cap H; discriminate.
  - (* Infinity *)
    split; [split; intros H; discriminate |].
    split; [intros _; reflexivity |].
    split; [intros H; discriminate |].
    intros cap H; discriminate.
  - (* -Infinity *)
    split; [split; intros H; discriminate |].
    split; [intros _; reflexivity |].
    split; [intros H; discriminate |].
    intros cap H; discriminate.
Qed.

Lemma calculateSampleSize_feasibility_witness :
  SampleSizeResults.feasibility
    (DynamicSampleSizeCalculator.calculateSampleSize
       {| SampleSizeState.baselineRate := 0.12;
          SampleSizeState.expectedLift := 0.15;
          SampleSizeState.power := 0.8;
          SampleSizeState.alpha := 0.05;
          SampleSizeState.dailyTraffic := 1000;
          SampleSizeState.maxDuration := JS.Fin 30 |}) = "feasible" /\
  SampleSizeResults.feasibility
    (DynamicSampleSizeCalculator.calculateSampleSize
       {| SampleSizeState.baselineRate := 0.12;
          SampleSizeState.expectedLift := 0.15;
          SampleSizeState.power := 0.8;
          SampleSizeState.alpha := 0.05;
          SampleSizeState.dailyTraffic := 1000;
          SampleSizeState.maxDuration := JS.NaN |}) = "challenging".
Proof.
  split.
  - apply (calculateSampleSize_feasibility
             {| SampleSizeState.baselineRate := 0.12;
                SampleSizeState.expectedLift := 0.15;
                SampleSizeState.power := 0.8;
                SampleSizeState.alpha := 0.05;
                SampleSizeState.dailyTraffic := 1000;
                SampleSizeState.maxDuration := JS.Fin 30 |});
      cbn; try lra; discriminate.
  - apply (calculateSampleSize_feasibility
             {| SampleSizeState.baselineRate := 0.12;
                SampleSizeState.expectedLift := 0.15;
                SampleSizeState.power := 0.8;
                SampleSizeState.alpha := 0.05;
                SampleSizeState.dailyTraffic := 1000;
                SampleSizeState.maxDuration := JS.NaN |});
      cbn; try lra; reflexivity.
Defined.

End SampleSizeFacts.

(** ** The data simulation service *)

Lemma floor_bounds (x lo hi : R) :
  lo <= x <= hi -> lo - 1 < MathInt.floor x <= hi.
Proof.
  intros H. unfold MathInt.floor.
  pose proof (Zfloor_bound x). lra.
Qed.

Lemma floor_int_bounds (x : R) (lo hi : Z) :
  IZR lo <= x < IZR hi ->
  IZR lo <= MathInt.floor x <= IZR hi - 1.
Proof.
  intros H. unfold MathInt.floor.
  pose proof (Zfloor_bound x) as Hb.
  assert (H1 : (lo - 1 < Zfloor x)%Z).
  { apply lt_IZR. rewrite minus_IZR. lra. }
  assert (H2 : (Zfloor x < hi)%Z) by (apply lt_IZR; lra).
  split.
  - apply IZR_le. lia.
  - rewrite <- minus_IZR. apply IZR_le. lia.
Qed.

Module DataSimulationFacts.
Import String.
Local Open Scope string_scope.

(** X25: the service's sample size formula takes [power] and [alpha] but
    never reads them: the quantiles 1.96 and 0.84 are fixed, so every
    value of the two arguments gives the result of the defaults.  For
    rates in (0,1) and a lift other than 0 the size per variant is a
    positive whole number, and the expected duration is the total divided
    by 1000 visitors a day, rounded up. *)
Theorem calculateSampleSize_ignores_power (this : DataSimulationService.t)
    (baselineRate expectedLift : R) (power alpha : option R) :
  let p1 := baselineRate in
  let p2 := baselineRate * (1 + expectedLift) in
  let result :=
    DataSimulationService.calculateSampleSize this baselineRate
      expectedLift power alpha in
  0 < p1 < 1 -> 0 < p2 < 1 -> p1 <> p2 ->
  result =
    DataSimulationService.calculateSampleSize this baselineRate
      expectedLift None None /\
  (exists z : Z, (1 <= z)%Z /\ SampleSize.perVariant result = IZR z) /\
  SampleSize.total result = 2 * SampleSize.perVariant result /\
  (exists z : Z, (1 <= z)%Z /\ SampleSize.expectedDuration result = IZR z) /\
  1000 * (SampleSize.expectedDuration result - 1) < SampleSize.total result
    <= 1000 * SampleSize.expectedDuration result.
Proof.
  intros p1 p2 result Hp1 Hp2 Hne.
  split; [reflexivity |].
  unfold result, DataSimulationService.calculateSampleSize.
  cbv zeta.
  cbn [SampleSize.perVariant SampleSize.total SampleSize.expectedDuration].
  change (baselineRate * (1 + expectedLift)) with p2.
  change baselineRate with p1.
  set (s1 := Math.sqrt (2 * ((p1 + p2) / 2) * (1 - (p1 + p2) / 2))).
  set (s2 := Math.sqrt (p1 * (1 - p1) + p2 * (1 - p2))).
  set (ratio := MathInt.pow2 (1.96 * s1 + 0.84 * s2) / MathInt.pow2 (p2 - p1)).
  assert (Hs1 : 0 < s1).
  { apply sqrt_lt_R0. apply Rmult_lt_0_compat; lra. }
  assert (Hs2 : 0 <= s2) by apply sqrt_pos.
  assert (Hratio : 0 < ratio).
  { unfold ratio, MathInt.pow2. apply Rdiv_lt_0_compat.
    - apply pow_lt. lra.
    - assert (Hd0 : p2 - p1 <> 0) by lra.
      pose proof (pow_nonzero (p2 - p1) 2 Hd0) as Hnz.
      pose proof (pow2_ge_0 (p2 - p1)) as Hge. lra. }
  pose proof (Zceil_bound ratio) as Hceil.
  assert (Hper : (1 <= Zceil ratio)%Z).
  { assert (H : 0 < IZR (Zceil ratio)) by lra.
    apply lt_IZR in H. lia. }
  assert (Hper' : 1 <= IZR (Zceil ratio)) by (apply IZR_le; exact Hper).
  fold (MathInt.ceil ratio) in Hper'.
  set (per := MathInt.ceil ratio) in *.
  pose proof (Zceil_bound (per * 2 / 1000)) as Hdur.
  fold (MathInt.ceil (per * 2 / 1000)) in Hdur.
  split; [exists (Zceil ratio); split; [exact Hper | reflexivity] |].
  split; [ring |].
  split.
  - exists (Zceil (per * 2 / 1000)). split; [| reflexivity].
    assert (H : 0 < IZR (Zceil (per * 2 / 1000))).
    { unfold MathInt.ceil in Hdur. lra. }
    apply lt_IZR in H. lia.
  - set (dur := MathInt.ceil (per * 2 / 1000)) in *. lra.
Qed.

Lemma calculateSampleSize_ignores_power_witness :
  DataSimulationService.calculateSampleSize
    DataSimulationService.constructor 0.12 0.15 (Some 0.9) (Some 0.01) =
  DataSimulationService.calculateSampleSize
    DataSimulationService.constructor 0.12 0.15 None None.
Proof.
  apply (calculateSampleSize_ignores_power
           DataSimulationService.constructor 0.12 0.15
           (Some 0.9) (Some 0.01)); lra.
Defined.

Lemma array_from_spec {A : Type} (f : nat -> M A) (c : nat)
    (P : nat -> A -> Prop) :
  (forall i k, exists x, f i k = Some (x, (c + k)%nat) /\ P i x) ->
  forall n i k,
    exists l, array_from f n i k = Some (l, (c * n + k)%nat) /\
              Forall2 P (seq i n) l.
Proof.
  intros Hf. induction n as [| n IH]; intros i k.
  - exists []. cbn [array_from seq]. rewrite Nat.mul_0_r.
    split; [reflexivity | constructor].
  - destruct (Hf i k) as (x & Hx & HP).
    destruct (IH (S i) (c + k)%nat) as (l & Hl & HF).
    exists (x :: l). cbn [array_from seq].
    rewrite bind_unfold, Hx, bind_unfold, Hl.
    split; [unfold ret; do 2 f_equal; lia | constructor; assumption].
Qed.

Lemma Forall2_map_r {A B C : Type} (g : B -> C) (h : A -> C)
    (l1 : list A) (l2 : list B) :
  Forall2 (fun a b => g b = h a) l1 l2 -> map g l2 = map h l1.
Proof.
  induction 1 as [| a b l1 l2 Hab _ IH]; cbn [map];
    [reflexivity | rewrite Hab, IH; reflexivity].
Qed.

Lemma Forall2_Forall_r {A B : Type} (P : A -> B -> Prop) (Q : B -> Prop)
    (l1 : list A) (l2 : list B) :
  (forall a b, P a b -> Q b) -> Forall2 P l1 l2 -> Forall Q l2.
Proof.
  intros HPQ. induction 1 as [| a b l1 l2 Hab _ IH]; constructor;
    [exact (HPQ a b Hab) | exact IH].
Qed.

Lemma Forall2_seq_nth_error {A : Type} (P : nat -> A -> Prop) (n : nat) :
  forall (i : nat) (l : list A) (j : nat) (x : A),
    Forall2 P (seq i n) l -> nth_error l j = Some x -> P (i + j)%nat x.
Proof.
  induction n as [| n IH]; intros i l j x HF Hj.
  - inversion HF; subst. destruct j; discriminate.
  - cbn [seq] in HF. inversion HF as [| a b l1 l2 Hab HF' E1 E2]; subst.
    destruct j as [| j].
    + cbn in Hj. injection Hj as <-. rewrite Nat.add_0_r. exact Hab.
    + cbn in Hj. rewrite <- Nat.add_succ_comm. apply (IH _ _ _ _ HF' Hj).
Qed.

Lemma hourly_entry (rng : nat -> R) (hour k : nat) :
  unit_range rng ->
  exists traffic conversionRate,
    bind (DataSimulationService.getHourlyTraffic rng hour)
      (fun traffic =>
         bind (DataSimulationService.getHourlyConversionRate rng hour)
           (fun conversionRate =>
              ret {| Hourly.hour := hour;
                     Hourly.traffic := traffic;
                     Hourly.conversionRate := conversionRate |})) k =
    Some ({| Hourly.hour := hour;
             Hourly.traffic := traffic;
             Hourly.conversionRate := conversionRate |}, (2 + k)%nat) /\
    0.2 <= traffic < 1.2 /\ 0.7 <= conversionRate < 1.1 /\
    ((9 <= hour <= 17)%nat -> 0.8 <= traffic) /\
    ((hour < 9 \/ hour = 18 \/ 22 < hour)%nat -> traffic < 0.4).
Proof.
  intros Hrng.
  pose proof (Hrng k) as H0. pose proof (Hrng (S k)) as H1.
  unfold DataSimulationService.getHourlyTraffic,
    DataSimulationService.getHourlyConversionRate.
  destruct (9 <=? hour)%nat eqn:E9; destruct (hour <=? 17)%nat eqn:E17;
    destruct (19 <=? hour)%nat eqn:E19; destruct (hour <=? 22)%nat eqn:E22;
    destruct (10 <=? hour)%nat eqn:E10; destruct (hour <=? 14)%nat eqn:E14;
    destruct (20 <=? hour)%nat eqn:E20;
    cbn [andb];
    repeat match goal with
           | H : (_ <=? _)%nat = true |- _ => apply Nat.leb_le in H
           | H : (_ <=? _)%nat = false |- _ => apply Nat.leb_gt in H
           end;
    try (exfalso; lia);
    (eexists; eexists; split; [reflexivity |]);
    (split; [lra |]); (split; [lra |]);
    (split; [intros Hh; first [lra | exfalso; lia]
            | intros Hh; first [lra | exfalso; lia]]).
Qed.

Lemma weekly_entry (rng : nat -> R) (names : list string) (day k : nat) :
  unit_range rng ->
  exists traffic conversionRate,
    bind (DataSimulationService.getWeeklyTraffic rng day)
      (fun traffic =>
         bind (DataSimulationService.getWeeklyConversionRate rng day)
           (fun conversionRate =>
              ret {| Weekly.day := nth day names EmptyString;
                     Weekly.traffic := traffic;
                     Weekly.conversionRate := conversionRate |})) k =
    Some ({| Weekly.day := nth day names EmptyString;
             Weekly.traffic := traffic;
             Weekly.conversionRate := conversionRate |}, (2 + k)%nat) /\
    0.6 <= traffic < 1.1 /\ 0.7 <= conversionRate < 1 /\
    ((day = 0 \/ day = 6)%nat -> traffic < 0.8) /\
    ((1 <= day <= 5)%nat -> 0.8 <= traffic).
Proof.
  intros Hrng.
  pose proof (Hrng k) as H0. pose proof (Hrng (S k)) as H1.
  unfold DataSimulationService.getWeeklyTraffic,
    DataSimulationService.getWeeklyConversionRate.
  destruct (day =? 0)%nat eqn:E0; destruct (day =? 6)%nat eqn:E6;
    destruct (day =? 1)%nat eqn:E1; destruct (day =? 5)%nat eqn:E5;
    cbn [orb];
    repeat match goal with
           | H : (_ =? _)%nat = true |- _ => apply Nat.eqb_eq in H
           | H : (_ =? _)%nat = false |- _ => apply Nat.eqb_neq in H
           end;
    try (exfalso; lia);
    (eexists; eexists; split; [reflexivity |]);
    (split; [lra |]); (split; [lra |]);
    (split; [intros Hh; first [lra | exfalso; lia]
            | intros Hh; first [lra | exfalso; lia]]).
Qed.

(** X26: with random numbers in [0, 1) the behaviour patterns always
    come out after 62 draws: 24 hourly entries for the hours 0 to 23 and
    7 weekly entries from Sunday to Saturday.  Hourly traffic factors lie
    in [0.2, 1.2) and hourly conversion factors in [0.7, 1.1); weekly
    traffic factors lie in [0.6, 1.1) and weekly conversion factors in
    [0.7, 1).  Every business hour (9 to 17) has more traffic than every
    night hour (before 9, at 18, after 22), and the weekend entries (the
    first and the last) stay below 0.8, which every weekday reaches. *)
Theorem generateUserBehaviorPatterns_ranges (rng : nat -> R) (k : nat) :
  unit_range rng ->
  exists patterns,
    DataSimulationService.generateUserBehaviorPatterns rng k =
      Some (patterns, (62 + k)%nat) /\
    map Hourly.hour (Patterns.hourly patterns) = seq 0 24 /\
    map Weekly.day (Patterns.weekly patterns) =
      ["Sunday"; "Monday"; "Tuesday"; "Wednesday"; "Thursday"; "Friday";
       "Saturday"] /\
    Forall (fun h => 0.2 <= Hourly.traffic h < 1.2 /\
                     0.7 <= Hourly.conversionRate h < 1.1)
      (Patterns.hourly patterns) /\
    Forall (fun w => 0.6 <= Weekly.traffic w < 1.1 /\
                     0.7 <= Weekly.conversionRate w < 1)
      (Patterns.weekly patterns) /\
    (forall busy quiet,
       In busy (Patterns.hourly patterns) ->
       In quiet (Patterns.hourly patterns) ->
       (9 <= Hourly.hour busy <= 17)%nat ->
       (Hourly.hour quiet < 9 \/ Hourly.hour quiet = 18 \/
        22 < Hourly.hour quiet)%nat ->
       Hourly.traffic quiet < Hourly.traffic busy) /\
    (forall i j weekend weekday,
       nth_error (Patterns.weekly patterns) i = Some weekend ->
       nth_error (Patterns.weekly patterns) j = Some weekday ->
       (i = 0 \/ i = 6)%nat -> (1 <= j <= 5)%nat ->
       Weekly.traffic weekend < Weekly.traffic weekday).
Proof.
  intros Hrng.
  set (names := ["Sunday"; "Monday"; "Tuesday"; "Wednesday"; "Thursday";
                 "Friday"; "Saturday"]).
  set (PH := fun (hour : nat) (h : Hourly.t) =>
               Hourly.hour h = hour /\
               0.2 <= Hourly.traffic h < 1.2 /\
               0.7 <= Hourly.conversionRate h < 1.1 /\
               ((9 <= hour <= 17)%nat -> 0.8 <= Hourly.traffic h) /\
               ((hour < 9 \/ hour = 18 \/ 22 < hour)%nat ->
                Hourly.traffic h < 0.4)).
  set (PW := fun (day : nat) (w : Weekly.t) =>
               Weekly.day w = nth day names EmptyString /\
               0.6 <= Weekly.traffic w < 1.1 /\
               0.7 <= Weekly.conversionRate w < 1 /\
               ((day = 0 \/ day = 6)%nat -> Weekly.traffic w < 0.8) /\
               ((1 <= day <= 5)%nat -> 0.8 <= Weekly.traffic w)).
  unfold DataSimulationService.generateUserBehaviorPatterns.
  fold names.
  match goal with
  | |- context [bind (array_from ?f 24 0) _] =>
      destruct (array_from_spec f 2 PH) with (n := 24%nat) (i := 0%nat)
        (k := k) as (hourly & Hh & HFh)
  end.
  { intros i k0.
    destruct (hourly_entry rng i k0 Hrng) as (t & c & Hrun & Hb).
    eexists. split; [exact Hrun |].
    split; [reflexivity | exact Hb]. }
  match goal with
  | |- context [bind (array_from ?f 7 0) _] =>
      destruct (array_from_spec f 2 PW) with (n := 7%nat) (i := 0%nat)
        (k := (2 * 24 + k)%nat) as (weekly & Hw & HFw)
  end.
  { intros i k0.
    destruct (weekly_entry rng names i k0 Hrng) as (t & c & Hrun & Hb).
    eexists. split; [exact Hrun |].
    split; [reflexivity | exact Hb]. }
  exists {| Patterns.hourly := hourly; Patterns.weekly := weekly |}.
  cbn [Patterns.hourly Patterns.weekly].
  split.
  { rewrite bind_unfold, Hh, bind_unfold, Hw. reflexivity. }
  assert (HQh : Forall (fun h => PH (Hourly.hour h) h) hourly).
  { revert HFh. apply Forall2_Forall_r.
    intros a b Hab. destruct Hab as [E Hab]. rewrite E.
    split; [exact E | exact Hab]. }
  split.
  { rewrite <- (map_id (seq 0 24)).
    apply Forall2_map_r.
    revert HFh. apply Forall2_impl. intros a b Hab. apply Hab. }
  split.
  { change names with (map (fun day => nth day names EmptyString) (seq 0 7)).
    apply Forall2_map_r.
    revert HFw. apply Forall2_impl. intros a b Hab. apply Hab. }
  split.
  { revert HQh. apply Forall_impl. intros h Hh'.
    destruct Hh' as (_ & Ht & Hc & _). split; assumption. }
  split.
  { revert HFw. apply Forall2_Forall_r. intros a b Hab.
    destruct Hab as (_ & Ht & Hc & _). split; assumption. }
  split.
  { intros busy quiet Hb Hq Hbusy Hquiet.
    rewrite Forall_forall in HQh.
    destruct (HQh busy Hb) as (_ & _ & _ & Hhi & _).
    destruct (HQh quiet Hq) as (_ & _ & _ & _ & Hlo).
    specialize (Hhi Hbusy). specialize (Hlo Hquiet). lra. }
  intros i j weekend weekday Hi Hj Hwe Hwd.
  assert (Hnth : forall n w, nth_error weekly n = Some w -> PW n w).
  { intros n w Hn. apply (Forall2_seq_nth_error PW 7 0 weekly n w HFw Hn). }
  destruct (Hnth i weekend Hi) as (_ & _ & _ & Hlo & _).
  destruct (Hnth j weekday Hj) as (_ & _ & _ & _ & Hhi).
  specialize (Hlo Hwe). specialize (Hhi Hwd). lra.
Qed.

Lemma generateUserBehaviorPatterns_ranges_witness :
  exists patterns,
    DataSimulationService.generateUserBehaviorPatterns rng_stuck 0%nat =
    Some (patterns, 62%nat).
Proof.
  destruct (generateUserBehaviorPatterns_ranges rng_stuck 0%nat)
    as (patterns & Hrun & _).
  - intros k. unfold rng_stuck. lra.
  - exists patterns. exact Hrun.
Defined.

Lemma floor_nonneg (x : R) : 0 <= x -> 0 <= MathInt.floor x.
Proof.
  intros Hx.
  destruct (floor_int_bounds x 0 (Zfloor x + 1)) as [H _]; [| exact H].
  pose proof (Zfloor_bound x) as Hb. rewrite plus_IZR. lra.
Qed.

Lemma safe_rate_bounds (rate : R) :
  0.01 <= Math.max 0.01 (Math.min 0.99 rate) <= 0.99 /\
  (rate <= 0.9 -> Math.max 0.01 (Math.min 0.99 rate) <= 0.9).
Proof.
  unfold Math.max, Math.min, Rmax, Rmin.
  destruct (Rle_dec 0.99 rate); destruct (Rle_dec 0.01 _); lra.
Qed.

Lemma successes_bounds (n rate u : R) :
  0 <= n -> 0.01 <= rate <= 0.9 -> 0 <= u < 1 ->
  0 <= MathInt.floor (n * rate * (0.9 + u * 0.2)) <= n.
Proof.
  intros Hn Hr Hu.
  assert (Hx : 0 <= n * rate * (0.9 + u * 0.2) <= n).
  { assert (H1 : 0 <= rate * (0.9 + u * 0.2) <= 1) by nra.
    rewrite Rmult_assoc. nra. }
  split; [apply floor_nonneg; lra |].
  pose proof (Zfloor_bound (n * rate * (0.9 + u * 0.2))) as Hb.
  unfold MathInt.floor. lra.
Qed.

Lemma sum_le_compat {A : Type} (f g : A -> R) (l : list A) :
  (forall a, In a l -> f a <= g a) ->
  fold_right Rplus 0 (map f l) <= fold_right Rplus 0 (map g l).
Proof.
  induction l as [| a l IH]; intros H; cbn [map fold_right]; [lra |].
  pose proof (H a (or_introl eq_refl)).
  assert (fold_right Rplus 0 (map f l) <= fold_right Rplus 0 (map g l)).
  { apply IH. intros b Hb. apply H. right; exact Hb. }
  lra.
Qed.

Lemma sum_lt_compat {A : Type} (f g : A -> R) (l : list A) :
  l <> [] -> (forall a, In a l -> f a < g a) ->
  fold_right Rplus 0 (map f l) < fold_right Rplus 0 (map g l).
Proof.
  intros Hne H.
  assert (Hle : fold_right Rplus 0 (map f (tl l))
                <= fold_right Rplus 0 (map g (tl l))).
  { apply sum_le_compat. intros a Ha. apply Rlt_le, H.
    destruct l; [contradiction | right; exact Ha]. }
  destruct l as [| a l]; [contradiction |].
  cbn [map fold_right tl] in *.
  pose proof (H a (or_introl eq_refl)). lra.
Qed.

Lemma sum_const {A : Type} (c : R) (l : list A) :
  fold_right Rplus 0 (map (fun _ => c) l) = INR (List.length l) * c.
Proof.
  induction l as [| a l IH]; [cbn; lra |].
  cbn [map fold_right List.length]. rewrite IH, S_INR. lra.
Qed.

Lemma generateTestData_loop_spec (rng : nat -> R) (sampleSize : R)
    (days : nat) (sA sB : R) (remaining : nat) :
  forall (day : nat) (acc : list Day.t) (k : nat),
    DataSimulationService.generateTestData_loop rng sampleSize days sA sB
      remaining day acc k =
    Some ((acc ++
           map (fun j =>
                  test_day sampleSize days sA sB (day + j)
                    (rng (3 * j + k)%nat) (rng (3 * j + 1 + k)%nat)
                    (rng (3 * j + 2 + k)%nat))
             (seq 0 remaining))%list,
          (3 * remaining + k)%nat).
Proof.
  induction remaining as [| n IH]; intros day acc k.
  - cbn. rewrite app_nil_r. reflexivity.
  - cbn [DataSimulationService.generateTestData_loop].
    rewrite !bind_unfold. cbn [Math_random].
    rewrite bind_unfold. cbn [Math_random].
    rewrite bind_unfold. cbn [Math_random].
    rewrite IH. f_equal. f_equal; [| lia].
    rewrite <- app_assoc. f_equal.
    cbn [seq map app]. rewrite <- seq_shift, map_map.
    f_equal.
    + unfold test_day. rewrite Nat.add_0_r. reflexivity.
    + apply map_ext. intros j.
      replace (S day + j)%nat with (day + S j)%nat by lia.
      replace (3 * j + S (S (S k)))%nat with (3 * S j + k)%nat by lia.
      replace (3 * j + 1 + S (S (S k)))%nat with (3 * S j + 1 + k)%nat
        by lia.
      replace (3 * j + 2 + S (S (S k)))%nat with (3 * S j + 2 + k)%nat
        by lia.
      reflexivity.
Qed.

(** The trials of a generated day: never negative, and within one of the
    share [sampleSize / days] scaled by 0.8 to 1.2. *)
Lemma test_day_trials (sampleSize : R) (days : nat) (sA sB : R)
    (day : nat) (u ua ub : R) :
  0 <= sampleSize -> (0 < days)%nat -> 0 <= u < 1 ->
  let d := test_day sampleSize days sA sB day u ua ub in
  DayVariant.trials (Day.variantB d) = DayVariant.trials (Day.variantA d) /\
  0 <= DayVariant.trials (Day.variantA d) /\
  0.8 * (sampleSize / INR days) - 1 < DayVariant.trials (Day.variantA d)
    <= 1.2 * (sampleSize / INR days).
Proof.
  intros HS Hd Hu d. unfold d, test_day.
  cbn [Day.variantA Day.variantB DayVariant.trials].
  assert (Hn : 0 < INR days) by (apply lt_0_INR; exact Hd).
  assert (Hx : 0 <= sampleSize / INR days).
  { apply Rmult_le_pos; [lra | apply Rlt_le, Rinv_0_lt_compat; exact Hn]. }
  set (x := sampleSize / INR days) in *.
  split; [reflexivity |].
  split; [apply floor_nonneg; nra |].
  apply floor_bounds. nra.
Qed.

Lemma test_day_successes (sampleSize : R) (days : nat) (sA sB : R)
    (day : nat) (u ua ub : R) :
  0 <= sampleSize -> (0 < days)%nat ->
  0 <= u < 1 -> 0 <= ua < 1 -> 0 <= ub < 1 ->
  0.01 <= sA <= 0.9 -> 0.01 <= sB <= 0.9 ->
  let d := test_day sampleSize days sA sB day u ua ub in
  0 <= DayVariant.successes (Day.variantA d)
    <= DayVariant.trials (Day.variantA d) /\
  0 <= DayVariant.successes (Day.variantB d)
    <= DayVariant.trials (Day.variantB d).
Proof.
  intros HS Hd Hu Hua Hub HA HB d.
  destruct (test_day_trials sampleSize days sA sB day u ua ub HS Hd Hu)
    as (_ & Hn & _).
  fold d in Hn. unfold d, test_day in *.
  cbn [Day.variantA Day.variantB DayVariant.trials DayVariant.successes] in *.
  split; apply successes_bounds; assumption.
Qed.

(** X27: for a scenario that exists, a sample size that is not negative
    and random numbers in [0, 1), [generateTestData] returns after
    [2 + 3 * days] draws with one entry per day, numbered from 1.  Both
    variants get the same trials every day, so the two totals of trials
    agree; that total is not the sample size asked for but a number that
    is at most 1.2 * sampleSize and, from one day on, above
    0.8 * sampleSize - days.  When the scenario's
    rates stay at or below 0.9, as those of the five built-in scenarios
    do, every day and both totals are valid observations: successes
    between 0 and trials. *)
Theorem generateTestData_totals (rng : nat -> R)
    (this : DataSimulationService.t) (scenarioIndex : option nat)
    (sampleSize : option R) (days : option nat) (k : nat)
    (scenario : Scenario.t) :
  let size := JS.arg_or 1000 sampleSize in
  let n := JS.arg_or 7%nat days in
  unit_range rng -> 0 <= size ->
  DataSimulationService.scenario_at this (JS.arg_or 0%nat scenarioIndex) =
    Some scenario ->
  exists data,
    DataSimulationService.generateTestData rng this scenarioIndex
      sampleSize days k = Some (Returns data, (3 * n + 2 + k)%nat) /\
    TestData.scenario data = scenario /\
    map Day.day (TestData.dailyData data) = seq 1 n /\
    Forall (fun d => DayVariant.trials (Day.variantB d) =
                     DayVariant.trials (Day.variantA d))
      (TestData.dailyData data) /\
    trials (TestData.totalB data) = trials (TestData.totalA data) /\
    trials (TestData.totalA data) <= 1.2 * size /\
    ((0 < n)%nat -> 0.8 * size - INR n < trials (TestData.totalA data)) /\
    (moderate scenario ->
     Forall (fun d =>
               0 <= DayVariant.successes (Day.variantA d)
                 <= DayVariant.trials (Day.variantA d) /\
               0 <= DayVariant.successes (Day.variantB d)
                 <= DayVariant.trials (Day.variantB d))
       (TestData.dailyData data) /\
     0 <= successes (TestData.totalA data) <= trials (TestData.totalA data) /\
     0 <= successes (TestData.totalB data) <= trials (TestData.totalB data)).
Proof.
  intros size n Hrng HS Hsc.
  unfold DataSimulationService.generateTestData. cbv zeta.
  change (JS.arg_or 1000 sampleSize) with size.
  change (JS.arg_or 7%nat days) with n.
  rewrite Hsc.
  rewrite bind_unfold. cbn [Math_random].
  rewrite bind_unfold. cbn [Math_random].
  rewrite bind_unfold, generateTestData_loop_spec. cbn [app].
  set (rateA := Scenario.baselineRate scenario +
                (rng k - 0.5) * Scenario.variability scenario).
  set (rateB := Scenario.baselineRate scenario *
                (1 + Scenario.expectedLift scenario) +
                (rng (S k) - 0.5) * Scenario.variability scenario).
  set (sA := Math.max 0.01 (Math.min 0.99 rateA)).
  set (sB := Math.max 0.01 (Math.min 0.99 rateB)).
  set (g := fun j : nat =>
              test_day size n sA sB (0 + j) (rng (3 * j + S (S k))%nat)
                (rng (3 * j + 1 + S (S k))%nat)
                (rng (3 * j + 2 + S (S k))%nat)).
  set (dailyData := map g (seq 0 n)).
  eexists. split.
  { replace (3 * n + 2 + k)%nat with (3 * n + S (S k))%nat by lia.
    unfold ret. reflexivity. }
  cbn [TestData.scenario TestData.dailyData TestData.totalA TestData.totalB
       successes trials].
  rewrite !fold_left_sum, !Rplus_0_l.
  assert (Hin : forall d, In d dailyData ->
                  exists j, (j < n)%nat /\ d = g j).
  { intros d Hd. unfold dailyData in Hd. apply in_map_iff in Hd.
    destruct Hd as (j & <- & Hj). apply in_seq in Hj.
    exists j. split; [lia | reflexivity]. }
  assert (Htr : forall d, In d dailyData ->
                  DayVariant.trials (Day.variantB d) =
                    DayVariant.trials (Day.variantA d) /\
                  0 <= DayVariant.trials (Day.variantA d) /\
                  0.8 * (size / INR n) - 1 < DayVariant.trials (Day.variantA d)
                    <= 1.2 * (size / INR n)).
  { intros d Hd. destruct (Hin d Hd) as (j & Hj & ->).
    apply test_day_trials; [exact HS | lia | apply Hrng]. }
  split; [reflexivity |].
  split.
  { unfold dailyData. rewrite map_map, <- seq_shift.
    apply map_ext. intros j. cbn. lia. }
  split.
  { apply Forall_forall. intros d Hd. apply (Htr d Hd). }
  split.
  { f_equal. apply map_ext_in. intros d Hd. apply (Htr d Hd). }
  assert (Hlen : List.length dailyData = n).
  { unfold dailyData. rewrite length_map, length_seq. reflexivity. }
  split.
  { destruct (Nat.eq_dec n 0) as [E0 | Hn0].
    - unfold dailyData. rewrite E0. cbn. lra.
    - assert (Hn : 0 < INR n) by (apply lt_0_INR; lia).
      apply Rle_trans with
        (fold_right Rplus 0
           (map (fun _ : Day.t => 1.2 * (size / INR n)) dailyData)).
      + apply sum_le_compat. intros d Hd. apply (Htr d Hd).
      + rewrite sum_const, Hlen. apply Req_le. field. lra. }
  split.
  { intros Hpos.
    assert (Hn : 0 < INR n) by (apply lt_0_INR; exact Hpos).
    apply Rle_lt_trans with
      (fold_right Rplus 0
         (map (fun _ : Day.t => 0.8 * (size / INR n) - 1) dailyData)).
    - rewrite sum_const, Hlen. apply Req_le. field. lra.
    - apply sum_lt_compat.
      + intros E. rewrite E in Hlen. cbn in Hlen. lia.
      + intros d Hd. apply (Htr d Hd). }
  intros (Hv & HmA & HmB).
  assert (HsA : 0.01 <= sA <= 0.9).
  { destruct (safe_rate_bounds rateA) as [[H1 _] H2].
    split; [exact H1 | apply H2].
    unfold rateA. pose proof (Hrng k). nra. }
  assert (HsB : 0.01 <= sB <= 0.9).
  { destruct (safe_rate_bounds rateB) as [[H1 _] H2].
    split; [exact H1 | apply H2].
    unfold rateB. pose proof (Hrng (S k)). nra. }
  assert (Hsu : forall d, In d dailyData ->
                  0 <= DayVariant.successes (Day.variantA d)
                    <= DayVariant.trials (Day.variantA d) /\
                  0 <= DayVariant.successes (Day.variantB d)
                    <= DayVariant.trials (Day.variantB d)).
  { intros d Hd. destruct (Hin d Hd) as (j & Hj & ->).
    apply test_day_successes;
      [exact HS | lia | apply Hrng | apply Hrng | apply Hrng
      | exact HsA | exact HsB]. }
  split; [apply Forall_forall; exact Hsu |].
  split; (split;
    [ apply Rle_trans with
        (fold_right Rplus 0 (map (fun _ : Day.t => 0) dailyData));
      [ rewrite sum_const; lra
      | apply sum_le_compat; intros d Hd; apply (Hsu d Hd) ]
    | apply sum_le_compat; intros d Hd; apply (Hsu d Hd) ]).
Qed.

Lemma generateTestData_totals_witness :
  exists data,
    DataSimulationService.generateTestData rng_stuck
      DataSimulationService.constructor None None None 0%nat =
    Some (Returns data, 23%nat) /\
    trials (TestData.totalA data) <= 1.2 * 1000 /\
    0.8 * 1000 - 7 < trials (TestData.totalA data).
Proof.
  destruct (generateTestData_totals rng_stuck
              DataSimulationService.constructor None None None 0%nat
              (nth 0 (DataSimulationService.scenarios
                        DataSimulationService.constructor)
                 {| Scenario.name := EmptyString;
                    Scenario.description := EmptyString;
                    Scenario.baselineRate := 0;
                    Scenario.expectedLift := 0;
                    Scenario.variability := 0 |}))
    as (data & Hrun & _ & _ & _ & _ & Hup & Hlo & _).
  - intros k. unfold rng_stuck. lra.
  - cbn. lra.
  - reflexivity.
  - exists data. split; [exact Hrun |]. split; [exact Hup |].
    assert (H7 : (0 < JS.arg_or 7 None)%nat) by (cbn; lia).
    specialize (Hlo H7). cbn [JS.arg_or] in Hlo.
    assert (E7 : INR 7 = 7) by (rewrite INR_IZR_INZ; reflexivity).
    rewrite E7 in Hlo. exact Hlo.
Defined.

Lemma last_cons_default {A : Type} (a d : A) (l : list A) :
  last (a :: l) d = last l a.
Proof.
  revert a d. induction l as [| b l IH]; intros a d; [reflexivity |].
  change (last (a :: b :: l) d) with (last (b :: l) d).
  rewrite !IH. reflexivity.
Qed.

(** What a returning run of the loop of [generateSequentialData] has
    pushed and left in the two cumulative objects. *)
Lemma generateSequentialData_loop_inv (rng : nat -> R) (fuel : nat)
    (this : DataSimulationService.t) (sA sB : R) (remaining : nat) :
  forall (day : nat) (cA cB : Observation) (acc : list SequentialDay.t)
         (k : nat) (data : list SequentialDay.t) (fA fB : Observation)
         (k' : nat),
    DataSimulationService.generateSequentialData_loop rng fuel this sA sB
      remaining day cA cB acc k = Some ((data, fA, fB), k') ->
    exists new,
      data = (acc ++ new)%list /\
      (List.length new <= remaining)%nat /\
      day_chain rng sA sB day cA cB new /\
      fA = last (map (fun d => SequentialVariant.cumulative
                                 (SequentialDay.variantA d)) new) cA /\
      fB = last (map (fun d => SequentialVariant.cumulative
                                 (SequentialDay.variantB d)) new) cB /\
      ((List.length new < remaining)%nat ->
       exists front d,
         new = (front ++ [d])%list /\ SequentialDay.shouldStop d = true).
Proof.
  induction remaining as [| n IH];
    intros day cA cB acc k data fA fB k' Hrun.
  - cbn in Hrun. injection Hrun as <- <- <- <-.
    exists []. rewrite app_nil_r.
    repeat split; [cbn; lia | intros H; cbn in H; lia].
  - cbn [DataSimulationService.generateSequentialData_loop] in Hrun.
    rewrite bind_unfold in Hrun. cbn [Math_random] in Hrun.
    rewrite bind_unfold in Hrun. cbn [Math_random] in Hrun.
    rewrite bind_unfold in Hrun. cbn [Math_random] in Hrun.
    rewrite bind_unfold in Hrun. cbv zeta in Hrun.
    match type of Hrun with
    | match ?call with _ => _ end = _ =>
        destruct call as [[p k4] |] eqn:Hp; [| discriminate]
    end.
    set (d := sequential_day sA sB day cA cB (rng k) (rng (S k))
                (rng (S (S k))) p).
    change ((if JS.ge p 0.95 || JS.le p 0.05
             then ret ((acc ++ [d])%list,
                       SequentialVariant.cumulative
                         (SequentialDay.variantA d),
                       SequentialVariant.cumulative
                         (SequentialDay.variantB d))
             else
               DataSimulationService.generateSequentialData_loop rng fuel
                 this sA sB n (S day)
                 (SequentialVariant.cumulative (SequentialDay.variantA d))
                 (SequentialVariant.cumulative (SequentialDay.variantB d))
                 (acc ++ [d])%list) k4 = Some (data, fA, fB, k')) in Hrun.
    assert (Hstop : SequentialDay.shouldStop d =
                    JS.ge p 0.95 || JS.le p 0.05) by reflexivity.
    destruct (JS.ge p 0.95 || JS.le p 0.05) eqn:Estop.
    + cbn in Hrun. injection Hrun as <- <- <- <-.
      exists [d]. split; [reflexivity |].
      split; [cbn; lia |].
      split.
      { cbn [day_chain]. split; [exists k, p; reflexivity |].
        split; [left; reflexivity | exact I]. }
      split; [reflexivity |]. split; [reflexivity |].
      intros _. exists [], d. split; [reflexivity | exact Hstop].
    + destruct (IH _ _ _ _ _ _ _ _ _ Hrun)
        as (new & Hdata & Hlen & Hchain & HfA & HfB & Hlast).
      exists (d :: new).
      split; [rewrite Hdata, <- app_assoc; reflexivity |].
      split; [cbn; lia |].
      split.
      { cbn [day_chain]. split; [exists k, p; reflexivity |].
        split; [right; exact Hstop | exact Hchain]. }
      split; [cbn [map]; rewrite last_cons_default; exact HfA |].
      split; [cbn [map]; rewrite last_cons_default; exact HfB |].
      intros Hshort.
      destruct Hlast as (front & d' & Hnew & Hd'); [cbn in Hshort; lia |].
      exists (d :: front), d'. split; [rewrite Hnew; reflexivity | exact Hd'].
Qed.

Lemma day_chain_days (rng : nat -> R) (sA sB : R)
    (l : list SequentialDay.t) :
  forall (day : nat) (cA cB : Observation),
    day_chain rng sA sB day cA cB l ->
    map SequentialDay.day l = seq day (List.length l).
Proof.
  induction l as [| d l IH]; intros day cA cB Hc; [reflexivity |].
  destruct Hc as ((k & p & ->) & _ & Hc).
  cbn [map List.length seq]. f_equal. apply (IH _ _ _ Hc).
Qed.

Lemma day_chain_stops (rng : nat -> R) (sA sB : R)
    (l : list SequentialDay.t) :
  forall (day : nat) (cA cB : Observation),
    day_chain rng sA sB day cA cB l ->
    forall i d, nth_error l i = Some d -> (S i < List.length l)%nat ->
                SequentialDay.shouldStop d = false.
Proof.
  induction l as [| d0 l IH]; intros day cA cB Hc i d Hi Hlt.
  - destruct i; discriminate.
  - destruct Hc as (_ & Hstop & Hc).
    destruct i as [| i].
    + cbn in Hi. injection Hi as <-.
      destruct Hstop as [-> | Hstop]; [cbn in Hlt; lia | exact Hstop].
    + cbn in Hi. apply (IH _ _ _ Hc i d Hi). cbn in Hlt. lia.
Qed.

Lemma day_chain_sums (rng : nat -> R) (sA sB : R)
    (l : list SequentialDay.t) :
  forall (day : nat) (cA cB : Observation),
    day_chain rng sA sB day cA cB l ->
    forall i d, nth_error l i = Some d ->
      let total (variant : SequentialDay.t -> SequentialVariant.t)
                (field : SequentialVariant.t -> R) :=
        fold_right Rplus 0
          (map (fun d' => field (variant d')) (firstn (S i) l)) in
      successes (SequentialVariant.cumulative (SequentialDay.variantA d)) =
        successes cA +
        total SequentialDay.variantA SequentialVariant.successes /\
      trials (SequentialVariant.cumulative (SequentialDay.variantA d)) =
        trials cA + total SequentialDay.variantA SequentialVariant.trials /\
      successes (SequentialVariant.cumulative (SequentialDay.variantB d)) =
        successes cB +
        total SequentialDay.variantB SequentialVariant.successes /\
      trials (SequentialVariant.cumulative (SequentialDay.variantB d)) =
        trials cB + total SequentialDay.variantB SequentialVariant.trials.
Proof.
  induction l as [| d0 l IH]; intros day cA cB Hc i d Hi total.
  - destruct i; discriminate.
  - destruct Hc as ((k & p & E) & _ & Hc).
    assert (H0 :
      successes (SequentialVariant.cumulative (SequentialDay.variantA d0)) =
        successes cA + SequentialVariant.successes (SequentialDay.variantA d0) /\
      trials (SequentialVariant.cumulative (SequentialDay.variantA d0)) =
        trials cA + SequentialVariant.trials (SequentialDay.variantA d0) /\
      successes (SequentialVariant.cumulative (SequentialDay.variantB d0)) =
        successes cB + SequentialVariant.successes (SequentialDay.variantB d0) /\
      trials (SequentialVariant.cumulative (SequentialDay.variantB d0)) =
        trials cB + SequentialVariant.trials (SequentialDay.variantB d0)).
    { rewrite E. repeat split; reflexivity. }
    destruct H0 as (E1 & E2 & E3 & E4).
    destruct i as [| i].
    + cbn in Hi. injection Hi as <-.
      unfold total. cbn [firstn map fold_right].
      rewrite E1, E2, E3, E4. repeat split; lra.
    + cbn in Hi.
      destruct (IH _ _ _ Hc i d Hi) as (F1 & F2 & F3 & F4).
      unfold total. rewrite firstn_cons. cbn [map fold_right].
      rewrite F1, F2, F3, F4, E1, E2, E3, E4. repeat split; lra.
Qed.

Lemma day_chain_Forall (rng : nat -> R) (sA sB : R)
    (Q : Observation -> Observation -> Prop)
    (P : SequentialDay.t -> Prop) :
  (forall day cA cB k p,
     Q cA cB ->
     let d := sequential_day sA sB day cA cB (rng k) (rng (S k))
                (rng (S (S k))) p in
     P d /\
     Q (SequentialVariant.cumulative (SequentialDay.variantA d))
       (SequentialVariant.cumulative (SequentialDay.variantB d))) ->
  forall (l : list SequentialDay.t) (day : nat) (cA cB : Observation),
    Q cA cB -> day_chain rng sA sB day cA cB l ->
    Forall P l /\
    Q (last (map (fun d => SequentialVariant.cumulative
                              (SequentialDay.variantA d)) l) cA)
      (last (map (fun d => SequentialVariant.cumulative
                              (SequentialDay.variantB d)) l) cB).
Proof.
  intros Hstep. induction l as [| d l IH]; intros day cA cB HQ Hc.
  - split; [constructor | exact HQ].
  - destruct Hc as ((k & p & E) & _ & Hc).
    destruct (Hstep day cA cB k p HQ) as [HP HQ'].
    rewrite <- E in HP, HQ'.
    destruct (IH _ _ _ HQ' Hc) as [HF HL].
    split; [constructor; assumption |].
    cbn [map]. rewrite !last_cons_default. exact HL.
Qed.

Lemma or_zero_not_NaN (p : option JS.number) :
  DataSimulationService.or_zero p <> JS.NaN.
Proof. destruct p as [[r | | |] |]; discriminate. Qed.

(** What [generateSequentialData] returns is built from a run of its
    loop. *)
Lemma generateSequentialData_inv (rng : nat -> R) (fuel : nat)
    (this : DataSimulationService.t) (scenarioIndex maxDays : option nat)
    (k k' : nat) (run : SequentialRun.t) :
  DataSimulationService.generateSequentialData rng fuel this scenarioIndex
    maxDays k = Some (Returns run, k') ->
  let scenario := SequentialRun.scenario run in
  let sA := Math.max 0.01
              (Math.min 0.99
                 (Scenario.baselineRate scenario +
                  (rng k - 0.5) * Scenario.variability scenario)) in
  let sB := Math.max 0.01
              (Math.min 0.99
                 (Scenario.baselineRate scenario *
                  (1 + Scenario.expectedLift scenario) +
                  (rng (S k) - 0.5) * Scenario.variability scenario)) in
  DataSimulationService.scenario_at this (JS.arg_or 0%nat scenarioIndex) =
    Some scenario /\
  DataSimulationService.generateSequentialData_loop rng fuel this sA sB
    (JS.arg_or 30%nat maxDays) 1 {| successes := 0; trials := 0 |}
    {| successes := 0; trials := 0 |} [] (S (S k)) =
  Some ((SequentialRun.sequentialData run,
         FinalResults.variantA (SequentialRun.finalResults run),
         FinalResults.variantB (SequentialRun.finalResults run)), k') /\
  FinalResults.probabilityBGreater (SequentialRun.finalResults run) <>
    JS.NaN.
Proof.
  intros Hrun.
  unfold DataSimulationService.generateSequentialData in Hrun.
  cbv zeta in Hrun.
  destruct (DataSimulationService.scenario_at this
              (JS.arg_or 0%nat scenarioIndex)) as [scenario |] eqn:Hsc;
    [| discriminate].
  rewrite bind_unfold in Hrun. cbn [Math_random] in Hrun.
  rewrite bind_unfold in Hrun. cbn [Math_random] in Hrun.
  rewrite bind_unfold in Hrun.
  match type of Hrun with
  | match ?call with _ => _ end = _ =>
      destruct call as [[[[data fA] fB] k2] |] eqn:Hloop; [| discriminate]
  end.
  cbn in Hrun. injection Hrun as <- <-.
  cbn [SequentialRun.scenario SequentialRun.sequentialData
       SequentialRun.finalResults FinalResults.variantA
       FinalResults.variantB FinalResults.probabilityBGreater].
  split; [reflexivity |].
  split; [exact Hloop | apply or_zero_not_NaN].
Qed.

(** X28: in every run of [generateSequentialData] that returns, the
    records are those of the days 1, 2, ... up to [maxDays] at most; each
    record's cumulative object holds the sums of the daily successes and
    trials up to that day, and the final results hold the totals of the
    last day (zero for no day).  Only the last record can have
    [shouldStop] set, and it has whenever the run ends before [maxDays].
    The final probability is never NaN: a NaN estimate is replaced by 0. *)
Theorem generateSequentialData_running_totals (rng : nat -> R) (fuel : nat)
    (this : DataSimulationService.t) (scenarioIndex maxDays : option nat)
    (k k' : nat) (run : SequentialRun.t) :
  DataSimulationService.generateSequentialData rng fuel this scenarioIndex
    maxDays k = Some (Returns run, k') ->
  let data := SequentialRun.sequentialData run in
  let final := SequentialRun.finalResults run in
  let cumulativeA :=
    fun d => SequentialVariant.cumulative (SequentialDay.variantA d) in
  let cumulativeB :=
    fun d => SequentialVariant.cumulative (SequentialDay.variantB d) in
  let total (variant : SequentialDay.t -> SequentialVariant.t)
            (field : SequentialVariant.t -> R) (i : nat) :=
    fold_right Rplus 0
      (map (fun d => field (variant d)) (firstn (S i) data)) in
  DataSimulationService.scenario_at this (JS.arg_or 0%nat scenarioIndex) =
    Some (SequentialRun.scenario run) /\
  (List.length data <= JS.arg_or 30%nat maxDays)%nat /\
  map SequentialDay.day data = seq 1 (List.length data) /\
  (forall i d, nth_error data i = Some d ->
     successes (cumulativeA d) =
       total SequentialDay.variantA SequentialVariant.successes i /\
     trials (cumulativeA d) =
       total SequentialDay.variantA SequentialVariant.trials i /\
     successes (cumulativeB d) =
       total SequentialDay.variantB SequentialVariant.successes i /\
     trials (cumulativeB d) =
       total SequentialDay.variantB SequentialVariant.trials i) /\
  FinalResults.variantA final =
    last (map cumulativeA data) {| successes := 0; trials := 0 |} /\
  FinalResults.variantB final =
    last (map cumulativeB data) {| successes := 0; trials := 0 |} /\
  (forall i d, nth_error data i = Some d -> (S i < List.length data)%nat ->
               SequentialDay.shouldStop d = false) /\
  ((List.length data < JS.arg_or 30%nat maxDays)%nat ->
   exists front d,
     data = (front ++ [d])%list /\ SequentialDay.shouldStop d = true) /\
  FinalResults.probabilityBGreater final <> JS.NaN.
Proof.
  intros Hrun data final cumulativeA cumulativeB total.
  destruct (generateSequentialData_inv _ _ _ _ _ _ _ _ Hrun)
    as (Hsc & Hloop & HNaN).
  apply generateSequentialData_loop_inv in Hloop.
  destruct Hloop as (new & Hdata & Hlen & Hchain & HfA & HfB & Hlast).
  cbn [app] in Hdata. fold data in Hdata. subst new.
  split; [exact Hsc |].
  split; [exact Hlen |].
  split; [apply (day_chain_days _ _ _ _ _ _ _ Hchain) |].
  split.
  { intros i d Hi.
    destruct (day_chain_sums _ _ _ _ _ _ _ Hchain i d Hi)
      as (E1 & E2 & E3 & E4).
    cbn [successes trials] in E1, E2, E3, E4.
    unfold total, cumulativeA, cumulativeB.
    rewrite E1, E2, E3, E4. repeat split; lra. }
  split; [exact HfA |].
  split; [exact HfB |].
  split; [apply (day_chain_stops _ _ _ _ _ _ _ Hchain) |].
  split; [exact Hlast | exact HNaN].
Qed.

(** With a calculator that draws no sample every estimate is NaN, so the
    loop never stops early and always returns. *)
Lemma generateSequentialData_loop_zero_samples (rng : nat -> R)
    (fuel : nat) (sA sB : R) (remaining : nat) :
  forall (day : nat) (cA cB : Observation) (acc : list SequentialDay.t)
         (k : nat),
    exists data fA fB,
      DataSimulationService.generateSequentialData_loop rng fuel
        zero_sample_service sA sB remaining day cA cB acc k =
      Some ((data, fA, fB), (3 * remaining + k)%nat) /\
      List.length data = (List.length acc + remaining)%nat.
Proof.
  induction remaining as [| n IH]; intros day cA cB acc k.
  - exists acc, cA, cB. split; [reflexivity | lia].
  - cbn [DataSimulationService.generateSequentialData_loop].
    rewrite bind_unfold. cbn [Math_random].
    rewrite bind_unfold. cbn [Math_random].
    rewrite bind_unfold. cbn [Math_random].
    rewrite bind_unfold. cbv zeta.
    assert (EP : forall pA pB k0,
              calculateProbabilityBGreaterThanAMonteCarlo rng fuel
                (DataSimulationService.calculator zero_sample_service)
                pA pB k0 = Some (JS.NaN, k0)).
    { intros [a1 b1] [a2 b2] k0. rewrite <- JS_div_0_0. reflexivity. }
    rewrite EP.
    change (JS.ge JS.NaN 0.95 || JS.le JS.NaN 0.05) with false. cbv iota.
    match goal with
    | |- context [DataSimulationService.generateSequentialData_loop rng fuel
                    zero_sample_service sA sB n (S day) ?cA' ?cB' ?acc'] =>
        destruct (IH (S day) cA' cB' acc' (S (S (S k))))
          as (data & fA & fB & Hrun & Hlen)
    end.
    exists data, fA, fB. split.
    + rewrite Hrun. do 2 f_equal. lia.
    + rewrite Hlen, length_app. cbn [List.length]. lia.
Qed.

Lemma generateSequentialData_zero_samples (rng : nat -> R) (fuel : nat)
    (scenarioIndex maxDays : option nat) (k : nat) :
  exists run,
    DataSimulationService.generateSequentialData rng fuel
      zero_sample_service scenarioIndex maxDays k =
    Some (Returns run, (3 * JS.arg_or 30%nat maxDays + 2 + k)%nat) /\
    List.length (SequentialRun.sequentialData run) =
      JS.arg_or 30%nat maxDays.
Proof.
  unfold DataSimulationService.generateSequentialData. cbv zeta.
  assert (Hsc : exists scenario,
            DataSimulationService.scenario_at zero_sample_service
              (JS.arg_or 0%nat scenarioIndex) = Some scenario).
  { unfold DataSimulationService.scenario_at.
    destruct (nth_error _ (JS.arg_or 0%nat scenarioIndex)) as [s |];
      [exists s; reflexivity | eexists; reflexivity]. }
  destruct Hsc as (scenario & ->).
  rewrite bind_unfold. cbn [Math_random].
  rewrite bind_unfold. cbn [Math_random].
  rewrite bind_unfold.
  match goal with
  | |- context [DataSimulationService.generateSequentialData_loop rng fuel
                  zero_sample_service ?sA ?sB ?n 1 ?cA ?cB [] ?k0] =>
      destruct (generateSequentialData_loop_zero_samples rng fuel sA sB n 1
                  cA cB [] k0) as (data & fA & fB & Hrun & Hlen)
  end.
  rewrite Hrun. eexists. split.
  - unfold ret. do 2 f_equal. lia.
  - cbn [SequentialRun.sequentialData]. rewrite Hlen. reflexivity.
Qed.

Lemma generateSequentialData_running_totals_witness :
  exists run k',
    DataSimulationService.generateSequentialData rng_stuck 0
      zero_sample_service None (Some 2%nat) 0%nat = Some (Returns run, k') /\
    map SequentialDay.day (SequentialRun.sequentialData run) =
      seq 1 (List.length (SequentialRun.sequentialData run)).
Proof.
  destruct (generateSequentialData_zero_samples rng_stuck 0 None
              (Some 2%nat) 0%nat) as (run & Hrun & _).
  exists run, (3 * JS.arg_or 30%nat (Some 2%nat) + 2 + 0)%nat.
  split; [exact Hrun |].
  apply (generateSequentialData_running_totals rng_stuck 0
           zero_sample_service None (Some 2%nat) 0%nat _ run Hrun).
Defined.

Lemma scenario_at_In (this : DataSimulationService.t) (i : nat)
    (scenario : Scenario.t) :
  DataSimulationService.scenario_at this i = Some scenario ->
  In scenario (DataSimulationService.scenarios this).
Proof.
  unfold DataSimulationService.scenario_at.
  destruct (nth_error (DataSimulationService.scenarios this) i) as [s |]
    eqn:E.
  - intros [= <-]. apply (nth_error_In _ _ E).
  - intros H. apply (nth_error_In _ _ H).
Qed.

Lemma sequential_day_valid (sA sB : R) (day : nat) (cA cB : Observation)
    (u ua ub : R) (p : JS.number) :
  0.01 <= sA <= 0.9 -> 0.01 <= sB <= 0.9 ->
  0 <= u < 1 -> 0 <= ua < 1 -> 0 <= ub < 1 ->
  0 <= successes cA <= trials cA -> 0 <= successes cB <= trials cB ->
  trials cB = trials cA ->
  let d := sequential_day sA sB day cA cB u ua ub p in
  let a := SequentialDay.variantA d in
  let b := SequentialDay.variantB d in
  (200 <= SequentialVariant.trials a <= 299 /\
   SequentialVariant.trials b = SequentialVariant.trials a /\
   0 <= SequentialVariant.successes a <= SequentialVariant.trials a /\
   0 <= SequentialVariant.successes b <= SequentialVariant.trials b) /\
  0 <= successes (SequentialVariant.cumulative a)
    <= trials (SequentialVariant.cumulative a) /\
  0 <= successes (SequentialVariant.cumulative b)
    <= trials (SequentialVariant.cumulative b) /\
  trials (SequentialVariant.cumulative b) =
    trials (SequentialVariant.cumulative a).
Proof.
  intros HsA HsB Hu Hua Hub HcA HcB Heq d a b.
  unfold a, b, d, sequential_day.
  cbn [SequentialDay.variantA SequentialDay.variantB
       SequentialVariant.trials SequentialVariant.successes
       SequentialVariant.cumulative successes trials].
  assert (Hn : 0 <= MathInt.floor (u * 100) <= 100 - 1).
  { apply (floor_int_bounds (u * 100) 0 100). lra. }
  set (n := 200 + MathInt.floor (u * 100)) in *.
  assert (Hn' : 200 <= n <= 299) by (unfold n; lra).
  assert (H0 : 0 <= n) by lra.
  pose proof (successes_bounds n sA ua H0 HsA Hua) as HA.
  pose proof (successes_bounds n sB ub H0 HsB Hub) as HB.
  repeat split; lra.
Qed.

(** X29: with random numbers in [0, 1) and scenarios whose rates stay at
    or below 0.9, as those of the five built-in scenarios do, every
    record of a returning run of [generateSequentialData] has between 200
    and 299 trials, the same for both variants, and successes between 0
    and the trials; the cumulative totals passed to [calculatePosterior]
    at each day, and the final ones, are never an invalid observation. *)
Theorem generateSequentialData_valid_observations (rng : nat -> R)
    (fuel : nat) (this : DataSimulationService.t)
    (scenarioIndex maxDays : option nat) (k k' : nat)
    (run : SequentialRun.t) :
  unit_range rng ->
  Forall moderate (DataSimulationService.scenarios this) ->
  DataSimulationService.generateSequentialData rng fuel this scenarioIndex
    maxDays k = Some (Returns run, k') ->
  let valid (c : Observation) :=
    ~ InvalidObservation (successes c) (trials c) in
  Forall
    (fun d =>
       let a := SequentialDay.variantA d in
       let b := SequentialDay.variantB d in
       (200 <= SequentialVariant.trials a <= 299 /\
        SequentialVariant.trials b = SequentialVariant.trials a /\
        0 <= SequentialVariant.successes a <= SequentialVariant.trials a /\
        0 <= SequentialVariant.successes b <= SequentialVariant.trials b) /\
       valid (SequentialVariant.cumulative a) /\
       valid (SequentialVariant.cumulative b))
    (SequentialRun.sequentialData run) /\
  valid (FinalResults.variantA (SequentialRun.finalResults run)) /\
  valid (FinalResults.variantB (SequentialRun.finalResults run)) /\
  trials (FinalResults.variantB (SequentialRun.finalResults run)) =
    trials (FinalResults.variantA (SequentialRun.finalResults run)).
Proof.
  intros Hrng Hmod Hrun valid.
  destruct (generateSequentialData_inv _ _ _ _ _ _ _ _ Hrun)
    as (Hsc & Hloop & _).
  apply scenario_at_In in Hsc.
  rewrite Forall_forall in Hmod.
  destruct (Hmod _ Hsc) as (Hv & HmA & HmB).
  set (scenario := SequentialRun.scenario run) in *.
  set (rateA := Scenario.baselineRate scenario +
                (rng k - 0.5) * Scenario.variability scenario) in *.
  set (rateB := Scenario.baselineRate scenario *
                (1 + Scenario.expectedLift scenario) +
                (rng (S k) - 0.5) * Scenario.variability scenario) in *.
  assert (HsA : 0.01 <= Math.max 0.01 (Math.min 0.99 rateA) <= 0.9).
  { destruct (safe_rate_bounds rateA) as [[H1 _] H2].
    split; [exact H1 | apply H2].
    unfold rateA. pose proof (Hrng k). nra. }
  assert (HsB : 0.01 <= Math.max 0.01 (Math.min 0.99 rateB) <= 0.9).
  { destruct (safe_rate_bounds rateB) as [[H1 _] H2].
    split; [exact H1 | apply H2].
    unfold rateB. pose proof (Hrng (S k)). nra. }
  set (sA := Math.max 0.01 (Math.min 0.99 rateA)) in *.
  set (sB := Math.max 0.01 (Math.min 0.99 rateB)) in *.
  apply generateSequentialData_loop_inv in Hloop.
  destruct Hloop as (new & Hdata & _ & Hchain & HfA & HfB & _).
  cbn [app] in Hdata. subst new.
  set (Q := fun cA cB : Observation =>
              0 <= successes cA <= trials cA /\
              0 <= successes cB <= trials cB /\
              trials cB = trials cA).
  assert (Hvalid : forall c : Observation,
            0 <= successes c <= trials c -> valid c).
  { intros c Hc. unfold valid, InvalidObservation. lra. }
  destruct (day_chain_Forall rng sA sB Q
              (fun d =>
                 let a := SequentialDay.variantA d in
                 let b := SequentialDay.variantB d in
                 (200 <= SequentialVariant.trials a <= 299 /\
                  SequentialVariant.trials b = SequentialVariant.trials a /\
                  0 <= SequentialVariant.successes a
                    <= SequentialVariant.trials a /\
                  0 <= SequentialVariant.successes b
                    <= SequentialVariant.trials b) /\
                 valid (SequentialVariant.cumulative a) /\
                 valid (SequentialVariant.cumulative b)))
    with (l := SequentialRun.sequentialData run) (day := 1%nat)
         (cA := {| successes := 0; trials := 0 |})
         (cB := {| successes := 0; trials := 0 |})
    as (HF & HQA & HQB & HQt).
  - intros day cA cB k0 p (HcA & HcB & Heq).
    destruct (sequential_day_valid sA sB day cA cB (rng k0) (rng (S k0))
                (rng (S (S k0))) p HsA HsB (Hrng _) (Hrng _) (Hrng _)
                HcA HcB Heq) as (Hd & HA & HB & Ht).
    split; [| split; [exact HA | split; [exact HB | exact Ht]]].
    split; [exact Hd |].
    split; apply Hvalid; assumption.
  - unfold Q. cbn. lra.
  - exact Hchain.
  - rewrite <- HfA in HQA, HQt. rewrite <- HfB in HQB, HQt.
    split; [exact HF |].
    split; [apply Hvalid; exact HQA |].
    split; [apply Hvalid; exact HQB | exact HQt].
Qed.

Lemma constructor_scenarios_moderate :
  Forall moderate
    (DataSimulationService.scenarios DataSimulationService.constructor).
Proof.
  repeat constructor; unfold moderate; cbn; lra.
Qed.

Lemma generateSequentialData_valid_observations_witness :
  exists run k',
    DataSimulationService.generateSequentialData rng_stuck 0
      zero_sample_service (Some 4%nat) (Some 3%nat) 0%nat =
      Some (Returns run, k') /\
    ~ InvalidObservation
        (successes (FinalResults.variantA (SequentialRun.finalResults run)))
        (trials (FinalResults.variantA (SequentialRun.finalResults run))).
Proof.
  destruct (generateSequentialData_zero_samples rng_stuck 0 (Some 4%nat)
              (Some 3%nat) 0%nat) as (run & Hrun & _).
  exists run, (3 * JS.arg_or 30%nat (Some 3%nat) + 2 + 0)%nat.
  split; [exact Hrun |].
  refine (proj1 (proj2 (generateSequentialData_valid_observations rng_stuck
                          0 zero_sample_service (Some 4%nat) (Some 3%nat)
                          0%nat _ run _ _ Hrun))).
  - intros k. unfold rng_stuck. lra.
  - exact constructor_scenarios_moderate.
Defined.

End DataSimulationFacts.
